(** * Aiken2QTI: a shallow embedding of [aiken2qti.py]

    The development follows the three classes of the program:
    - [Question] and [AikenParser] (the line scanner of [parse_file]),
    - [QTIGenerator] (the ElementTree documents of an item and of the
      manifest, their serialisation, the title derivation),
    - [PackageBuilder] (the staging directory and the archive).

    Python strings are sequences of Unicode code points; a code point is an
    [N].  The two regular expressions of the parser are written out as
    matchers that follow the backtracking order of Python's [re] module. *)

From Stdlib Require Import String Ascii.
From Stdlib Require Import List NArith ZArith Bool Arith Lia DecimalNat.
From Stdlib Require Import Sorted Permutation.
Import ListNotations.

(* ================================================================== *)
(** ** Python strings *)
(* ================================================================== *)

Module PyStr.

Local Open Scope N_scope.

Definition char := N.
Definition pystr := list char.

(** A literal of the source, ASCII only. *)
Definition py (s : string) : pystr :=
  map N_of_ascii (list_ascii_of_string s).

Definition char_eqb (a b : char) : bool := N.eqb a b.

Fixpoint str_eqb (a b : pystr) : bool :=
  match a, b with
  | [], [] => true
  | x :: a', y :: b' => char_eqb x y && str_eqb a' b'
  | _, _ => false
  end.

(** [not s] on a string. *)
Definition is_empty (s : pystr) : bool :=
  match s with [] => true | _ :: _ => false end.

Definition in_range (lo hi c : char) : bool := (lo <=? c) && (c <=? hi).

(** [str.isspace] on one character, which is also what [\s] matches in a
    [str] pattern and what [str.strip()] removes: U+0009..U+000D,
    U+001C..U+0020, U+0085, U+00A0, U+1680, U+2000..U+200A, U+2028, U+2029,
    U+202F, U+205F, U+3000. *)
Definition isspace (c : char) : bool :=
  in_range 9 13 c || in_range 28 32 c || char_eqb c 133 || char_eqb c 160
  || char_eqb c 5760 || in_range 8192 8202 c || char_eqb c 8232
  || char_eqb c 8233 || char_eqb c 8239 || char_eqb c 8287
  || char_eqb c 12288.

Fixpoint lstrip (s : pystr) : pystr :=
  match s with
  | c :: s' => if isspace c then lstrip s' else s
  | [] => []
  end.

Definition rstrip (s : pystr) : pystr := rev (lstrip (rev s)).

(** [s.strip()] *)
Definition strip (s : pystr) : pystr := rstrip (lstrip s).

Definition newline : char := 10.

(** [s.endswith(suffix)] *)
Fixpoint startswith (s prefix : pystr) : bool :=
  match prefix, s with
  | [], _ => true
  | p :: prefix', c :: s' => char_eqb p c && startswith s' prefix'
  | _ :: _, [] => false
  end.

Definition endswith (s suffix : pystr) : bool :=
  startswith (rev s) (rev suffix).

(** Comparison of strings as [sorted] uses it: lexicographic on code
    points. *)
Fixpoint str_leb (a b : pystr) : bool :=
  match a, b with
  | [], _ => true
  | _ :: _, [] => false
  | x :: a', y :: b' =>
      if x <? y then true
      else if y <? x then false
      else str_leb a' b'
  end.

Fixpoint insert_sorted (k : pystr) (l : list pystr) : list pystr :=
  match l with
  | [] => [k]
  | x :: l' => if str_leb k x then k :: l else x :: insert_sorted k l'
  end.

(** [sorted(keys)] *)
Definition sorted (l : list pystr) : list pystr :=
  fold_right insert_sorted [] l.

(** [s[:n]] for a Python integer [n]: a negative [n] counts from the
    end. *)
Definition slice_to (s : pystr) (n : Z) : pystr :=
  if (0 <=? n)%Z then firstn (Z.to_nat n) s
  else firstn (length s - Z.to_nat (- n))%nat s.

End PyStr.
Import PyStr.

(* ================================================================== *)
(** ** Python dictionaries: insertion ordered, one entry per key *)
(* ================================================================== *)

Module PyDict.

Definition dict (V : Type) := list (pystr * V).

Definition empty {V} : dict V := [].

Fixpoint get {V} (k : pystr) (d : dict V) : option V :=
  match d with
  | [] => None
  | (k', v) :: d' => if str_eqb k k' then Some v else get k d'
  end.

(** [k in d] *)
Definition mem {V} (k : pystr) (d : dict V) : bool :=
  match get k d with Some _ => true | None => false end.

(** [d[k] = v]: a key already present keeps its place. *)
Fixpoint set {V} (k : pystr) (v : V) (d : dict V) : dict V :=
  match d with
  | [] => [(k, v)]
  | (k', v') :: d' =>
      if str_eqb k k' then (k, v) :: d' else (k', v') :: set k v d'
  end.

Definition keys {V} (d : dict V) : list pystr := map fst d.

Definition len {V} (d : dict V) : nat := length d.

(** [not d] *)
Definition is_empty {V} (d : dict V) : bool :=
  match d with [] => true | _ :: _ => false end.

(** [d.copy()]: values of the model are immutable, a copy is the value. *)
Definition copy {V} (d : dict V) : dict V := d.

End PyDict.

(* ================================================================== *)
(** ** Exceptions and results *)
(* ================================================================== *)

(** What [Question.__post_init__] reports. *)
Inductive validation_error :=
| EmptyText
| NoOptions
| AnswerNotInOptions (answer : pystr) (available : list pystr).

Inductive exn :=
| FileNotFoundError
| ValueError (why : option validation_error)
| UnicodeDecodeError
| UnicodeEncodeError
| ExpatError
| OSError.

Inductive result (A : Type) :=
| Ok (a : A)
| Raise (e : exn).
Arguments Ok {A} a.
Arguments Raise {A} e.

Definition raises {A} (r : result A) : bool :=
  match r with Ok _ => false | Raise _ => true end.

(* ================================================================== *)
(** ** class Question *)
(* ================================================================== *)

Record Question := mkQuestion {
  text : pystr;
  options : PyDict.dict pystr;
  answer : pystr
}.

(** [__post_init__], the three checks in the order of the source. *)
Definition post_init (q : Question) : result Question :=
  if is_empty (strip (text q)) then Raise (ValueError (Some EmptyText))
  else if PyDict.is_empty (options q) then Raise (ValueError (Some NoOptions))
  else if negb (PyDict.mem (answer q) (options q)) then
    Raise (ValueError (Some (AnswerNotInOptions (answer q)
                                                (PyDict.keys (options q)))))
  else Ok q.

(** [Question(text=..., options=..., answer=...)] *)
Definition Question_new (t : pystr) (o : PyDict.dict pystr) (a : pystr)
  : result Question :=
  post_init (mkQuestion t o a).

(** The invariant the constructor checks, as a boolean. *)
Definition Question_valid (q : Question) : bool :=
  negb (is_empty (strip (text q)))
  && negb (PyDict.is_empty (options q))
  && PyDict.mem (answer q) (options q).

(** The class is declared with a bare [@dataclass] (no [frozen=True]): an
    attribute assignment [q.field = value] rebinds the field and runs no
    validation. *)
Inductive assignment :=
| SetText (t : pystr)
| SetOptions (o : PyDict.dict pystr)
| SetAnswer (a : pystr).

Definition Question_setattr (q : Question) (u : assignment) : Question :=
  match u with
  | SetText t => mkQuestion t (options q) (answer q)
  | SetOptions o => mkQuestion (text q) o (answer q)
  | SetAnswer a => mkQuestion (text q) (options q) a
  end.

(* ================================================================== *)
(** ** class AikenParser *)
(* ================================================================== *)

Module Regex.

Local Open Scope N_scope.

Definition is_AZ (c : char) : bool := in_range 65 90 c.
Definition is_az (c : char) : bool := in_range 97 122 c.

(** [$] without [re.MULTILINE]: the end of the string, or just before a
    newline that ends the string. *)
Definition at_end (s : pystr) : bool :=
  match s with
  | [] => true
  | [c] => char_eqb c newline
  | _ => false
  end.

(** [(.+)$]: [.] matches everything but a newline; the greedy run has to
    reach the end of the string. *)
Fixpoint dot_run (s : pystr) : pystr * pystr :=
  match s with
  | c :: s' =>
      if char_eqb c newline then ([], s)
      else let (t, r) := dot_run s' in (c :: t, r)
  | [] => ([], [])
  end.

Definition dot_plus_end (s : pystr) : option pystr :=
  let (t, r) := dot_run s in
  if negb (is_empty t) && at_end r then Some t else None.

(** [\s*(.+)$] after the first blank of [\s+]: the blank run is greedy and
    gives characters back to [(.+)] when the rest does not match. *)
Fixpoint blanks_then_text (s : pystr) : option pystr :=
  match s with
  | c :: s' =>
      if isspace c then
        match blanks_then_text s' with
        | Some t => Some t
        | None => dot_plus_end s
        end
      else dot_plus_end s
  | [] => None
  end.

(** [re.compile(r"^([A-Z])[\)\.]\s+(.+)$").match(line)], giving
    [(group(1), group(2))]. *)
Definition option_pattern (line : pystr) : option (pystr * pystr) :=
  match line with
  | c :: d :: w :: rest =>
      if is_AZ c && (char_eqb d 41 || char_eqb d 46) && isspace w then
        match blanks_then_text rest with
        | Some t => Some ([c], t)
        | None => None
        end
      else None
  | _ => None
  end.

(** A literal of the pattern under [re.IGNORECASE]: the letter in either
    case, and for [S] also U+017F (LATIN SMALL LETTER LONG S), whose case
    folding is [s]. *)
Definition literal_ignorecase (p c : char) : bool :=
  char_eqb c p
  || (is_AZ p && char_eqb c (p + 32))
  || (char_eqb p 83 && char_eqb c 383).

Fixpoint match_literals (pat s : pystr) : option pystr :=
  match pat, s with
  | [], _ => Some s
  | p :: pat', c :: s' =>
      if literal_ignorecase p c then match_literals pat' s' else None
  | _ :: _, [] => None
  end.

(** [[A-Z]] under [re.IGNORECASE] in a [str] pattern: the 52 ASCII letters
    and U+0130, U+0131, U+017F, U+212A. *)
Definition class_AZ_ignorecase (c : char) : bool :=
  is_AZ c || is_az c || char_eqb c 304 || char_eqb c 305
  || char_eqb c 383 || char_eqb c 8490.

Definition letter_end (s : pystr) : option pystr :=
  match s with
  | c :: r => if class_AZ_ignorecase c && at_end r then Some [c] else None
  | [] => None
  end.

(** [\s*([A-Z])$] *)
Fixpoint blanks_then_letter (s : pystr) : option pystr :=
  match s with
  | c :: s' =>
      if isspace c then
        match blanks_then_letter s' with
        | Some g => Some g
        | None => letter_end s
        end
      else letter_end s
  | [] => None
  end.

(** [re.compile(r"^ANSWER:\s*([A-Z])$", re.IGNORECASE).match(line)], giving
    [group(1)]. *)
Definition answer_pattern (line : pystr) : option pystr :=
  match match_literals (py "ANSWER:") line with
  | Some rest => blanks_then_letter rest
  | None => None
  end.

(** [str.upper] on one character of [class_AZ_ignorecase]: U+0131 becomes
    [I], U+017F becomes [S], U+0130 and U+212A are upper case already. *)
Definition upper_char (c : char) : char :=
  if is_az c then c - 32
  else if char_eqb c 305 then 73
  else if char_eqb c 383 then 83
  else c.

(** [group(1).upper()] *)
Definition upper (s : pystr) : pystr := map upper_char s.

End Regex.

(** Log records of the module's [logger], by level and message. *)
Inductive log_record :=
| Info_parsing
| Error_encoding_try_latin1
| Warning_answer_without_question (line_number : nat)
| Warning_answer_without_options (line_number : nat)
| Debug_question_parsed (count : nat)
| Error_in_question (line_number : nat) (e : exn)
| Warning_incomplete_question
| Info_parse_done (count : nat).

(** The local variables of the loop in [parse_file], with the log. *)
Record scan_state := mkScan {
  questions : list Question;
  current_question_text : pystr;
  current_options : PyDict.dict pystr;
  line_number : nat;
  log : list log_record
}.

Definition scan_init (log0 : list log_record) : scan_state :=
  mkScan [] [] PyDict.empty 0 log0.

(** One iteration of [for line in lines].  The [except ValueError] clause
    catches whatever [Question] raises: [post_init] raises nothing else. *)
Definition scan_line (st : scan_state) (line : pystr) : scan_state :=
  let n := S (line_number st) in
  let qs := questions st in
  let txt := current_question_text st in
  let opts := current_options st in
  if is_empty line then mkScan qs txt opts n (log st)
  else
    match Regex.answer_pattern line with
    | Some g =>
        let answer := Regex.upper g in
        if is_empty txt then
          mkScan qs txt opts n
                 (log st ++ [Warning_answer_without_question n])
        else if PyDict.is_empty opts then
          mkScan qs txt opts n
                 (log st ++ [Warning_answer_without_options n])
        else
          match Question_new (strip txt) (PyDict.copy opts) answer with
          | Ok question =>
              let qs' := qs ++ [question] in
              mkScan qs' [] PyDict.empty n
                     (log st ++ [Debug_question_parsed (length qs')])
          | Raise e =>
              mkScan qs [] PyDict.empty n
                     (log st ++ [Error_in_question n e])
          end
    | None =>
        match Regex.option_pattern line with
        | Some (option_letter, option_text) =>
            mkScan qs txt (PyDict.set option_letter option_text opts) n
                   (log st)
        | None =>
            if is_empty txt then mkScan qs line opts n (log st)
            else mkScan qs (txt ++ py " " ++ line) opts n (log st)
        end
    end.

Definition scan_lines (st : scan_state) (lines : list pystr) : scan_state :=
  fold_left scan_line lines st.

(** What follows the loop: the warning about a question left open, the
    closing message, [return questions]. *)
Definition scan_finish (st : scan_state) : list Question * list log_record :=
  let log1 :=
    if negb (is_empty (current_question_text st))
       || negb (PyDict.is_empty (current_options st))
    then log st ++ [Warning_incomplete_question]
    else log st in
  (questions st, log1 ++ [Info_parse_done (length (questions st))]).

(** The body of [parse_file] from [questions = []] on, for the stripped
    lines. *)
Definition parse_lines (log0 : list log_record) (lines : list pystr)
  : list Question * list log_record :=
  scan_finish (scan_lines (scan_init log0) lines).

(** What the file system answers to [parse_file]: whether the path exists,
    and what [open(...).readlines()] gives under each encoding (the list of
    lines, a decoding error, or another exception). *)
Inductive read_outcome :=
| ReadLines (lines : list pystr)
| ReadDecodeError
| ReadFails (e : exn).

Record file_env := mkEnv {
  path_exists : bool;
  read_utf8 : read_outcome;
  read_latin1 : read_outcome
}.

(** [AikenParser.parse_file]: the result and the log. *)
Definition parse_file (env : file_env)
  : result (list Question) * list log_record :=
  if negb (path_exists env) then (Raise FileNotFoundError, [])
  else
    match read_utf8 env with
    | ReadLines raw =>
        let (qs, l) := parse_lines [Info_parsing] (map strip raw) in
        (Ok qs, l)
    | ReadDecodeError =>
        match read_latin1 env with
        | ReadLines raw =>
            let (qs, l) :=
              parse_lines [Info_parsing; Error_encoding_try_latin1]
                          (map strip raw) in
            (Ok qs, l)
        | ReadDecodeError | ReadFails _ =>
            (Raise (ValueError None),
             [Info_parsing; Error_encoding_try_latin1])
        end
    | ReadFails e => (Raise e, [Info_parsing])
    end.

(* ================================================================== *)
(** ** ElementTree documents *)
(* ================================================================== *)

Module ET.

Local Open Scope N_scope.

(** [xml.etree.ElementTree.Element]: tag, attributes in insertion order,
    text, children in the order of the [SubElement] calls. *)
#[warnings="-register-all"]
Inductive Element :=
| Elem (tag : pystr) (attrib : list (pystr * pystr)) (text : option pystr)
       (children : list Element).

Definition tag_of (e : Element) : pystr :=
  match e with Elem t _ _ _ => t end.
Definition attrib_of (e : Element) : list (pystr * pystr) :=
  match e with Elem _ a _ _ => a end.
Definition text_of (e : Element) : option pystr :=
  match e with Elem _ _ t _ => t end.
Definition children_of (e : Element) : list Element :=
  match e with Elem _ _ _ c => c end.

(** [elem.findall(tag)]: the direct children with that tag. *)
Definition findall (tag : pystr) (e : Element) : list Element :=
  filter (fun c => str_eqb (tag_of c) tag) (children_of e).

(** [_escape_cdata]: [&], [<] and [>] become entity references. *)
Definition escape_cdata_char (c : char) : pystr :=
  if char_eqb c 38 then py "&amp;"
  else if char_eqb c 60 then py "&lt;"
  else if char_eqb c 62 then py "&gt;"
  else [c].

Definition escape_cdata (s : pystr) : pystr := flat_map escape_cdata_char s.

(** [_escape_attrib]: also the double quote, and carriage return, newline
    and tab as character references. *)
Definition escape_attrib_char (c : char) : pystr :=
  if char_eqb c 38 then py "&amp;"
  else if char_eqb c 60 then py "&lt;"
  else if char_eqb c 62 then py "&gt;"
  else if char_eqb c 34 then py "&quot;"
  else if char_eqb c 13 then py "&#13;"
  else if char_eqb c 10 then py "&#10;"
  else if char_eqb c 9 then py "&#09;"
  else [c].

Definition escape_attrib (s : pystr) : pystr := flat_map escape_attrib_char s.

Definition serialize_attrib (kv : pystr * pystr) : pystr :=
  py " " ++ fst kv ++ py "=" ++ [34] ++ escape_attrib (snd kv) ++ [34].

(** [ET.tostring(root, encoding="unicode")]: no declaration, an element
    with neither text nor children in the short form. *)
Fixpoint tostring (e : Element) : pystr :=
  match e with
  | Elem tag attrib text children =>
      let start := py "<" ++ tag ++ flat_map serialize_attrib attrib in
      let body :=
        match text with Some t => escape_cdata t | None => [] end in
      let has_text :=
        match text with Some (_ :: _) => true | _ => false end in
      let has_children :=
        match children with _ :: _ => true | [] => false end in
      if has_text || has_children then
        start ++ py ">" ++ body ++ flat_map tostring children
              ++ py "</" ++ tag ++ py ">"
      else start ++ py " />"
  end.

(** The [Char] production of XML 1.0, outside of which expat reports
    "not well-formed (invalid token)". *)
Definition xml_char (c : char) : bool :=
  char_eqb c 9 || char_eqb c 10 || char_eqb c 13
  || in_range 32 55295 c || in_range 57344 65533 c
  || in_range 65536 1114111 c.

End ET.
Import ET.

(* ================================================================== *)
(** ** The library calls and the file system the program depends on *)
(* ================================================================== *)

(** What a path names: a regular file with its bytes, or a directory.  A
    path is the string given on the command line; two spellings of one
    file are two paths. *)
Inductive node :=
| RegularFile (content : list N)
| Directory.

Definition filesystem := PyDict.dict node.

(** The number of uuids drawn, the staging directory (absent, or the
    mapping from file name to content; a path that is there but is no
    directory refuses to be cleared) and the archives that lie outside the
    staging directory, by the path they were written under (a path stands
    for the file it names: two paths are two files), each with its members
    in the order they were added.  The log messages of the
    generator and the builder are not modelled. *)
Record world := mkWorld {
  uuid_calls : nat;
  temp_dir : option (PyDict.dict pystr);
  archives : PyDict.dict (PyDict.dict pystr)
}.

(** What the builder asks of the staging directory: [shutil.rmtree] and
    [mkdir] in [_setup_temp_directory], [open] and [write] for a staged
    file, [shutil.rmtree] in [_cleanup_temp_directory]. *)
Inductive staging_request :=
| Clear_staging
| Make_staging
| Write_staged (filename : pystr)
| Remove_staging.

(** What follows the opening of the archive: [zipf.write(file_path,
    arcname)] for a member, and the end of the [with] block. *)
Inductive archive_step :=
| Add_member (arcname : pystr)
| Close_archive.

(** Where an output path lies: outside the staging directory, or inside
    it under a relative name. *)
Inductive placement :=
| Outside
| Inside (member : pystr).

(** [uuid.uuid4().hex], by the number of calls made before it, and
    [minidom.parseString(s).toprettyxml(indent="  ")].  Of the XML parser
    only this is used: a document that holds a character outside
    [xml_char] is refused with an exception (expat's "not well-formed
    (invalid token)", or the encoding error of a lone surrogate).  The
    serialiser of ElementTree writes such characters as they are.

    The file system answers every request of the program: it may refuse
    it with an exception ([FileNotFoundError] for a directory that is
    missing, [NotADirectoryError], [PermissionError], a full disk ...), and
    then says what is left: of the staging directory for a request on it,
    of the members of the archive for a step of its writing, of the named
    file for the sample.  A refused [open] leaves everything as it was.
    It says where an output path lies, lists the files of a directory in an
    order of its own ([rglob]), and gives the content an archive file
    has while it holds the given members. *)
Class Runtime := {
  uuid4_hex : nat -> pystr;
  minidom_pretty : pystr -> result pystr;
  expat_rejects :
    forall s, forallb xml_char s = false -> raises (minidom_pretty s) = true;
  staging_refused :
    staging_request -> world -> option (exn * option (PyDict.dict pystr));
  open_refused : pystr -> world -> option exn;
  archive_refused :
    archive_step -> pystr -> world -> option (exn * PyDict.dict pystr);
  placement_of : pystr -> placement;
  rglob : PyDict.dict pystr -> PyDict.dict pystr;
  rglob_permutation : forall d, Permutation (rglob d) d;
  zip_image : PyDict.dict pystr -> pystr;
  sample_refused : pystr -> filesystem -> option (exn * option node)
}.

(** Computations that read and change the world and may raise. *)
Definition M (A : Type) := world -> result A * world.

Definition ret {A} (a : A) : M A := fun w => (Ok a, w).

Definition bind {A B} (m : M A) (k : A -> M B) : M B :=
  fun w =>
    match m w with
    | (Ok a, w') => k a w'
    | (Raise e, w') => (Raise e, w')
    end.

Notation "x <- m ;; k" := (bind m (fun x => k))
  (at level 61, m at next level, right associativity).

(** [try: body finally: final]: the final part runs whatever the body
    did; when it raises, its exception is the one that leaves. *)
Definition try_finally {A} (body : M A) (final : M unit) : M A :=
  fun w =>
    let (r, w') := body w in
    match final w' with
    | (Ok _, w'') => (r, w'')
    | (Raise e, w'') => (Raise e, w'')
    end.

Definition lift {A} (r : result A) : M A := fun w => (r, w).

Definition set_staging (d : option (PyDict.dict pystr)) (w : world) : world :=
  mkWorld (uuid_calls w) d (archives w).

Section WithRuntime.

Context {rt : Runtime}.

Definition uuid4 : M pystr :=
  fun w =>
    (Ok (uuid4_hex (uuid_calls w)),
     mkWorld (S (uuid_calls w)) (temp_dir w) (archives w)).

(* ================================================================== *)
(** ** class QTIGenerator *)
(* ================================================================== *)

Definition qti_ns : pystr := py "http://www.imsglobal.org/xsd/imsqti_v2p1".
Definition imscp_ns : pystr := py "http://www.imsglobal.org/xsd/imscp_v1p1".

Definition title_placeholder : pystr :=
  py "Pregunta sin t" ++ [237%N] ++ py "tulo".

(** The characters the [re.sub] call of [_safe_title] deletes: less-than,
    greater-than, ampersand and the double quote. *)
Definition title_unsafe (c : char) : bool :=
  char_eqb c 60%N || char_eqb c 62%N || char_eqb c 38%N || char_eqb c 34%N.

Definition _safe_title (text : pystr) (max_length : Z) : pystr :=
  let safe_text := filter (fun c => negb (title_unsafe c)) text in
  let safe_text :=
    if (Z.of_nat (length safe_text) >? max_length)%Z
    then slice_to safe_text max_length ++ py "..."
    else safe_text in
  if is_empty safe_text then title_placeholder else safe_text.

Definition default_max_length : Z := 50.

(** [f"Choice_{letter}_{uuid.uuid4().hex[:8]}"] *)
Definition choice_id (letter hex : pystr) : pystr :=
  py "Choice_" ++ letter ++ py "_" ++ firstn 8 hex.

(** The dictionary comprehension over [question.options.keys()]. *)
Fixpoint make_option_ids (letters : list pystr) (ids : PyDict.dict pystr)
  : M (PyDict.dict pystr) :=
  match letters with
  | [] => ret ids
  | letter :: rest =>
      hex <- uuid4 ;;
      make_option_ids rest (PyDict.set letter (choice_id letter hex) ids)
  end.

(** [d[k]] where [k] ranges over the keys of [d], so that no [KeyError]
    is raised. *)
Definition getitem (d : PyDict.dict pystr) (k : pystr) : pystr :=
  match PyDict.get k d with Some v => v | None => [] end.

Definition correct_response (q : Question) (option_ids : PyDict.dict pystr)
  : Element :=
  Elem (py "correctResponse") [] None
       (if PyDict.mem (answer q) option_ids
        then [Elem (py "value") [] (Some (getitem option_ids (answer q))) []]
        else []).

Definition simple_choice (q : Question) (option_ids : PyDict.dict pystr)
  (letter : pystr) : Element :=
  Elem (py "simpleChoice")
       [(py "identifier", getitem option_ids letter)]
       (Some (getitem (options q) letter)) [].

(** The element [_add_response_processing] appends to the root. *)
Definition _add_response_processing : Element :=
  Elem (py "responseProcessing")
    [(py "template",
      py "http://www.imsglobal.org/question/qti_v2p1/rptemplates/match_correct")]
    None [].

(** The tree [generate_item_xml] has built when it calls [ET.tostring].
    In [xsi:schemaLocation] the source replaces [xsd/] by [xsd/] in the
    namespace, which leaves it as it is. *)
Definition item_tree (q : Question) (item_id : pystr)
  (option_ids : PyDict.dict pystr) : Element :=
  Elem (py "assessmentItem")
    [(py "xmlns", qti_ns);
     (py "xmlns:xsi", py "http://www.w3.org/2001/XMLSchema-instance");
     (py "xsi:schemaLocation", qti_ns ++ py " " ++ qti_ns ++ py ".xsd");
     (py "identifier", item_id);
     (py "title", _safe_title (text q) default_max_length);
     (py "adaptive", py "false");
     (py "timeDependent", py "false")]
    None
    [Elem (py "responseDeclaration")
       [(py "identifier", py "RESPONSE");
        (py "cardinality", py "single");
        (py "baseType", py "identifier")]
       None
       [correct_response q option_ids];
     Elem (py "outcomeDeclaration")
       [(py "identifier", py "SCORE");
        (py "cardinality", py "single");
        (py "baseType", py "float")]
       None
       [Elem (py "defaultValue") [] None
          [Elem (py "value") [] (Some (py "0")) []]];
     Elem (py "itemBody") [] None
       [Elem (py "div") [] None [Elem (py "p") [] (Some (text q)) []];
        Elem (py "choiceInteraction")
          [(py "responseIdentifier", py "RESPONSE");
           (py "shuffle", py "true");
           (py "maxChoices", py "1")]
          None
          (Elem (py "prompt") []
                (Some (py "Selecciona la respuesta correcta:")) []
           :: map (simple_choice q option_ids)
                  (sorted (PyDict.keys (options q))))];
     _add_response_processing].

Definition generate_item_xml (q : Question) (item_id : pystr) : M pystr :=
  option_ids <- make_option_ids (PyDict.keys (options q)) PyDict.empty ;;
  lift (minidom_pretty (tostring (item_tree q item_id option_ids))).

Definition resource_element (r : pystr * pystr) : Element :=
  let (res_id, filename) := r in
  Elem (py "resource")
       [(py "identifier", py "RES-" ++ res_id);
        (py "type", py "imsqti_item_xmlv2p1");
        (py "href", filename)]
       None
       [Elem (py "file") [(py "href", filename)] None []].

Definition manifest_tree (manifest_hex : pystr)
  (resources : list (pystr * pystr)) : Element :=
  Elem (py "manifest")
    [(py "xmlns", imscp_ns);
     (py "xmlns:imsmd", py "http://www.imsglobal.org/xsd/imsmd_v1p2");
     (py "xmlns:imsqti", qti_ns);
     (py "identifier", py "MANIFEST-" ++ manifest_hex);
     (py "version", py "1.0")]
    None
    [Elem (py "metadata") [] None
       [Elem (py "schema") [] (Some (py "IMS Content")) [];
        Elem (py "schemaversion") [] (Some (py "1.1.3")) [];
        Elem (py "imsmd:lom") [] None
          [Elem (py "imsmd:general") [] None
             [Elem (py "imsmd:title") [] None
                [Elem (py "imsmd:langstring") [(py "xml:lang", py "es")]
                      (Some (py "Cuestionario Aiken2QTI")) []]]]];
     Elem (py "organizations") [] None [];
     Elem (py "resources") [] None (map resource_element resources)].

Definition generate_manifest (resources : list (pystr * pystr)) : M pystr :=
  hex <- uuid4 ;;
  lift (minidom_pretty (tostring (manifest_tree hex resources))).

(* ================================================================== *)
(** ** class PackageBuilder *)
(* ================================================================== *)

Fixpoint digits_of_uint (u : Decimal.uint) : pystr :=
  match u with
  | Decimal.Nil => []
  | Decimal.D0 u => 48%N :: digits_of_uint u
  | Decimal.D1 u => 49%N :: digits_of_uint u
  | Decimal.D2 u => 50%N :: digits_of_uint u
  | Decimal.D3 u => 51%N :: digits_of_uint u
  | Decimal.D4 u => 52%N :: digits_of_uint u
  | Decimal.D5 u => 53%N :: digits_of_uint u
  | Decimal.D6 u => 54%N :: digits_of_uint u
  | Decimal.D7 u => 55%N :: digits_of_uint u
  | Decimal.D8 u => 56%N :: digits_of_uint u
  | Decimal.D9 u => 57%N :: digits_of_uint u
  end.

(** [f"{index:03d}"] for an index that is not negative: the decimal
    digits, filled with zeros on the left up to three characters. *)
Definition format_03d (index : nat) : pystr :=
  let digits := digits_of_uint (Nat.to_uint index) in
  repeat 48%N (3 - length digits) ++ digits.

(** [f"question_{index:03d}_{item_id}.xml"] *)
Definition question_filename (index : nat) (item_id : pystr) : pystr :=
  py "question_" ++ format_03d index ++ py "_" ++ item_id ++ py ".xml".

Definition manifest_filename : pystr := py "imsmanifest.xml".

(** A request on the staging directory: done, with [done] as the new
    staging directory, or refused. *)
Definition staging (req : staging_request)
  (done : option (PyDict.dict pystr)) : M unit :=
  fun w =>
    match staging_refused req w with
    | None => (Ok tt, set_staging done w)
    | Some (e, remains) => (Raise e, set_staging remains w)
    end.

(** [_setup_temp_directory]: whatever is at the path is removed, the
    directory is created empty. *)
Definition _setup_temp_directory : M unit :=
  _ <- (fun w =>
          match temp_dir w with
          | Some _ => staging Clear_staging None w
          | None => (Ok tt, w)
          end) ;;
  staging Make_staging (Some PyDict.empty).

(** [_cleanup_temp_directory] *)
Definition _cleanup_temp_directory : M unit :=
  fun w =>
    match temp_dir w with
    | Some _ => staging Remove_staging None w
    | None => (Ok tt, w)
    end.

(** [with open(self.temp_dir / filename, "w") as f: f.write(content)] *)
Definition write_temp_file (filename content : pystr) : M unit :=
  fun w =>
    match temp_dir w with
    | Some d =>
        staging (Write_staged filename)
                (Some (PyDict.set filename content d)) w
    | None => (Raise FileNotFoundError, w)
    end.

(** The archive under [path] holds [members]: as an archive of its own
    when the path lies outside the staging directory, as a file of the
    staging directory otherwise. *)
Definition store_archive (path : pystr) (members : PyDict.dict pystr)
  (w : world) : world :=
  match placement_of path with
  | Outside =>
      mkWorld (uuid_calls w) (temp_dir w)
              (PyDict.set path members (archives w))
  | Inside member =>
      set_staging
        (match temp_dir w with
         | Some d => Some (PyDict.set member (zip_image members) d)
         | None => None
         end) w
  end.

(** [zipfile.ZipFile(output_path, "w", zipfile.ZIP_DEFLATED)]: the file
    is created, or emptied when it was there. *)
Definition open_archive (path : pystr) : M unit :=
  fun w =>
    match open_refused path w with
    | Some e => (Raise e, w)
    | None =>
        match placement_of path, temp_dir w with
        | Inside _, None => (Raise FileNotFoundError, w)
        | _, _ => (Ok tt, store_archive path PyDict.empty w)
        end
    end.

(** A step of the writing, after which the archive holds [members]. *)
Definition archive_request (step : archive_step) (path : pystr)
  (members : PyDict.dict pystr) : M unit :=
  fun w =>
    match archive_refused step path w with
    | None => (Ok tt, store_archive path members w)
    | Some (e, remains) => (Raise e, store_archive path remains w)
    end.

(** The files [self.temp_dir.rglob("*")] yields, by relative name, and
    the content of one of them as it stands. *)
Definition list_staged : M (list pystr) :=
  fun w =>
    (Ok (match temp_dir w with
         | Some d => PyDict.keys (rglob d)
         | None => []
         end), w).

Definition read_staged (arcname : pystr) : M pystr :=
  fun w =>
    (Ok (match temp_dir w with
         | Some d => getitem d arcname
         | None => []
         end), w).

(** The loop [for file_path in self.temp_dir.rglob("*")]; [members] are
    the members the archive holds already. *)
Fixpoint add_members (path : pystr) (arcnames : list pystr)
  (members : PyDict.dict pystr) : M (PyDict.dict pystr) :=
  match arcnames with
  | [] => ret members
  | arcname :: rest =>
      content <- read_staged arcname ;;
      let members' := members ++ [(arcname, content)] in
      _ <- archive_request (Add_member arcname) path members' ;;
      add_members path rest members'
  end.

(** [_create_zip_package]: the archive is opened under the output name,
    with [.zip] at its end, every file the staging directory then holds
    is added under its relative name, and the path is returned.  An
    exception inside the [with] block leaves the archive as far as it was
    written. *)
Definition _create_zip_package (output_filename : pystr) : M pystr :=
  let output_filename :=
    if endswith output_filename (py ".zip") then output_filename
    else output_filename ++ py ".zip" in
  _ <- open_archive output_filename ;;
  arcnames <- list_staged ;;
  members <- add_members output_filename arcnames PyDict.empty ;;
  _ <- archive_request Close_archive output_filename members ;;
  ret output_filename.

(** The loop [for index, question in enumerate(questions, 1)]. *)
Fixpoint build_items (index : nat) (questions : list Question)
  (resources : list (pystr * pystr)) : M (list (pystr * pystr)) :=
  match questions with
  | [] => ret resources
  | question :: rest =>
      hex <- uuid4 ;;
      let item_id := py "ITEM_" ++ hex in
      let filename := question_filename index item_id in
      xml_content <- generate_item_xml question item_id ;;
      _ <- write_temp_file filename xml_content ;;
      build_items (S index) rest (resources ++ [(item_id, filename)])
  end.

Definition build_package (questions : list Question)
  (output_filename : pystr) : M pystr :=
  _ <- _setup_temp_directory ;;
  try_finally
    (resources <- build_items 1 questions [] ;;
     manifest_content <- generate_manifest resources ;;
     _ <- write_temp_file manifest_filename manifest_content ;;
     _create_zip_package output_filename)
    _cleanup_temp_directory.

End WithRuntime.

(* ================================================================== *)
(** ** Reading lines, documents and file names *)
(* ================================================================== *)

(** The four kinds of line, tested in the order of the loop body. *)
Inductive line_kind :=
| Blank
| AnswerLine (letter : pystr)
| OptionLine (letter text : pystr)
| TextLine.

Definition classify (line : pystr) : line_kind :=
  if is_empty line then Blank
  else match Regex.answer_pattern line with
       | Some g => AnswerLine g
       | None =>
           match Regex.option_pattern line with
           | Some (k, v) => OptionLine k v
           | None => TextLine
           end
       end.

Definition starts_nonblank (s : pystr) : Prop :=
  match s with [] => True | c :: _ => isspace c = false end.

(** A run of lines that, scanned on its own, yields one question and
    leaves nothing accumulated. *)
Definition closed_block (block : list pystr) (q : Question) : Prop :=
  questions (scan_lines (scan_init []) block) = [q]
  /\ current_question_text (scan_lines (scan_init []) block) = []
  /\ current_options (scan_lines (scan_init []) block) = [].

(** Reading an item document: the texts of the [value] elements of the
    correct response, and the [simpleChoice] elements of the interaction. *)
Definition correct_response_values (item : Element) : list (option pystr) :=
  map text_of
      (flat_map (findall (py "value"))
         (flat_map (findall (py "correctResponse"))
            (findall (py "responseDeclaration") item))).

Definition interaction_choices (item : Element) : list Element :=
  flat_map (findall (py "simpleChoice"))
     (flat_map (findall (py "choiceInteraction"))
        (findall (py "itemBody") item)).

(** The content of a question file, paired with its item identifier: what
    minidom returned for the item document of the question, for some
    assignment of choice identifiers. *)
Definition rendered_as {rt : Runtime} (q : Question) (file : pystr * pystr)
  : Prop :=
  exists option_ids,
    minidom_pretty (tostring (item_tree q (fst file) option_ids))
    = Ok (snd file).

(** Reading a manifest document: the [resource] elements under
    [resources], the [href] of each and the [href] of its [file]
    children. *)
Definition attribute (name : pystr) (e : Element) : option pystr :=
  PyDict.get name (attrib_of e).

Definition manifest_resources (manifest : Element) : list Element :=
  flat_map (findall (py "resource")) (findall (py "resources") manifest).

Definition resource_href (r : Element) : option pystr :=
  attribute (py "href") r.

Definition resource_file_hrefs (r : Element) : list (option pystr) :=
  map (attribute (py "href")) (findall (py "file") r).

(** Reading a string of decimal digits back. *)
Definition digit_of_char (c : char) (u : Decimal.uint) : option Decimal.uint :=
  if char_eqb c 48%N then Some (Decimal.D0 u)
  else if char_eqb c 49%N then Some (Decimal.D1 u)
  else if char_eqb c 50%N then Some (Decimal.D2 u)
  else if char_eqb c 51%N then Some (Decimal.D3 u)
  else if char_eqb c 52%N then Some (Decimal.D4 u)
  else if char_eqb c 53%N then Some (Decimal.D5 u)
  else if char_eqb c 54%N then Some (Decimal.D6 u)
  else if char_eqb c 55%N then Some (Decimal.D7 u)
  else if char_eqb c 56%N then Some (Decimal.D8 u)
  else if char_eqb c 57%N then Some (Decimal.D9 u)
  else None.

Fixpoint uint_of_digits (s : pystr) : option Decimal.uint :=
  match s with
  | [] => Some Decimal.Nil
  | c :: s' =>
      match uint_of_digits s' with
      | Some u => digit_of_char c u
      | None => None
      end
  end.

(** The number a string of decimal digits denotes. *)
Definition int_of_digits (s : pystr) : option nat :=
  option_map Nat.of_uint (uint_of_digits s).

Definition is_digit (c : char) : bool := in_range 48%N 57%N c.

Fixpoint question_filenames (index : nat) (item_ids : list pystr)
  : list pystr :=
  match item_ids with
  | [] => []
  | item_id :: rest =>
      question_filename index item_id :: question_filenames (S index) rest
  end.

(* ================================================================== *)
(** ** A runtime and inputs to run the model on *)
(* ================================================================== *)

(** Identifiers that count the calls, and an XML stage that applies the
    character check of expat and returns the document after the XML
    declaration, without indenting it again.  The file system refuses
    nothing, every output path lies outside the staging directory, and the
    files of a directory are listed in the order they were written. *)
Definition reference_uuid (n : nat) : pystr :=
  let digits := digits_of_uint (Nat.to_uint n) in
  digits ++ repeat 48%N (32 - length digits).

Definition reference_pretty (s : pystr) : result pystr :=
  if forallb xml_char s
  then Ok (py "<?xml version=" ++ [34%N] ++ py "1.0" ++ [34%N]
              ++ py " ?>" ++ [newline] ++ s)
  else Raise ExpatError.

Definition reference_runtime : Runtime :=
  {| uuid4_hex := reference_uuid;
     minidom_pretty := reference_pretty;
     expat_rejects := fun s (H : forallb xml_char s = false) =>
       @eq_ind_r bool false
         (fun b : bool =>
            raises (if b
                    then Ok (py "<?xml version=" ++ [34%N] ++ py "1.0"
                                ++ [34%N] ++ py " ?>" ++ [newline] ++ s)
                    else Raise ExpatError) = true)
         eq_refl (forallb xml_char s) H;
     staging_refused := fun _ _ => None;
     open_refused := fun _ _ => None;
     archive_refused := fun _ _ _ => None;
     placement_of := fun _ => Outside;
     rglob := fun d => d;
     rglob_permutation := fun d => Permutation_refl d;
     zip_image := fun _ => [];
     sample_refused := fun _ _ => None |}.

Definition world0 : world := mkWorld 0 None PyDict.empty.

Definition nl (s : pystr) : pystr := s ++ [newline].

(** The scenario of the specification, with the keyword and the letter of
    the ANSWER line in lower case. *)
Definition example_raw : list pystr :=
  [nl (py "Q?"); nl (py "A) x"); nl (py "B) y"); py "answer: b"].

Definition example_env : file_env :=
  mkEnv true (ReadLines example_raw) ReadDecodeError.

Definition good_block : list pystr :=
  [py "Q1?"; py "A) x"; py "B) y"; py "ANSWER: A"].

(** A record that passes the validation of [Question] and whose text holds
    U+0001. *)
Definition control_char_question : Question :=
  mkQuestion (py "Q" ++ [1%N]) [(py "A", py "x")] (py "A").

(** A file of three lines whose question line holds U+0001. *)
Definition control_char_env : file_env :=
  mkEnv true
        (ReadLines [(py "Q" ++ [1%N; newline]); (py "A) x" ++ [newline]);
                    py "ANSWER: A"])
        ReadDecodeError.

(** The two questions of the repository's package test. *)
Definition example_questions : list Question :=
  [mkQuestion (py "Question 1") [(py "A", py "Opt 1"); (py "B", py "Opt 2")]
              (py "A");
   mkQuestion (py "Question 2") [(py "A", py "Opt A"); (py "B", py "Opt B")]
              (py "B")].

Definition example_build : result pystr * world :=
  @build_package reference_runtime example_questions (py "test_package") world0.

(** A thousand copies of a valid question. *)
Definition thousand_questions : list Question :=
  repeat (mkQuestion (py "Q") [(py "A", py "x")] (py "A")) 1000.

(* ================================================================== *)
(** ** Reading a block of lines *)
(* ================================================================== *)

(** [" ".join(lines)] *)
Fixpoint join_space (lines : list pystr) : pystr :=
  match lines with
  | [] => []
  | l :: rest =>
      match rest with
      | [] => l
      | _ :: _ => l ++ py " " ++ join_space rest
      end
  end.

Definition nonblank (line : pystr) : bool := negb (is_empty line).

Definition is_answer_line (line : pystr) : bool :=
  match Regex.answer_pattern line with Some _ => true | None => false end.

Definition is_text_line (line : pystr) : bool :=
  match classify line with TextLine => true | _ => false end.

(** The lines of a block that go to the question text, and the letter and
    text of its option lines, in the order of the lines. *)
Definition text_lines (block : list pystr) : list pystr :=
  filter is_text_line block.

Definition option_entries (block : list pystr) : list (pystr * pystr) :=
  flat_map (fun l => match classify l with
                     | OptionLine k v => [(k, v)]
                     | _ => []
                     end) block.

(** The dictionary the assignments [d[k] = v] build, one after the other. *)
Definition assign_all (entries : list (pystr * pystr))
  (d : PyDict.dict pystr) : PyDict.dict pystr :=
  fold_left (fun d kv => PyDict.set (fst kv) (snd kv) d) entries d.

(** A string [strip] leaves as it is. *)
Definition trimmed (s : pystr) : Prop := strip s = s.

(** One letter of [A]-[Z]. *)
Definition single_letter (k : pystr) : Prop :=
  exists c, k = [c] /\ Regex.is_AZ c = true.

(* ================================================================== *)
(** ** Reading the choices of an item document *)
(* ================================================================== *)

(** The order [sorted] puts strings in. *)
Definition str_le (a b : pystr) : Prop := str_leb a b = true.

Definition choice_identifiers (item : Element) : list (option pystr) :=
  map (attribute (py "identifier")) (interaction_choices item).

Definition choice_texts (item : Element) : list (option pystr) :=
  map text_of (interaction_choices item).

(* ================================================================== *)
(** ** Files, encodings and the logging configuration *)
(* ================================================================== *)

Module Codec.

Local Open Scope N_scope.

(** A continuation byte of UTF-8. *)
Definition continuation (b : N) : bool := in_range 128 191 b.

(** [bytes.decode("utf-8")], strict: the well-formed byte sequences of the
    Unicode standard (no overlong form, no surrogate, nothing above
    U+10FFFF); [None] stands for [UnicodeDecodeError]. *)
Fixpoint utf8_decode (bs : list N) : option pystr :=
  match bs with
  | [] => Some []
  | b0 :: r0 =>
      if b0 <? 128 then option_map (cons b0) (utf8_decode r0)
      else if in_range 194 223 b0 then
        match r0 with
        | b1 :: r1 =>
            if continuation b1
            then option_map (cons ((b0 - 192) * 64 + (b1 - 128)))
                            (utf8_decode r1)
            else None
        | [] => None
        end
      else if in_range 224 239 b0 then
        match r0 with
        | b1 :: b2 :: r2 =>
            if in_range (if b0 =? 224 then 160 else 128)
                        (if b0 =? 237 then 159 else 191) b1
               && continuation b2
            then option_map
                   (cons ((b0 - 224) * 4096 + (b1 - 128) * 64 + (b2 - 128)))
                   (utf8_decode r2)
            else None
        | _ => None
        end
      else if in_range 240 244 b0 then
        match r0 with
        | b1 :: b2 :: b3 :: r3 =>
            if in_range (if b0 =? 240 then 144 else 128)
                        (if b0 =? 244 then 143 else 191) b1
               && continuation b2 && continuation b3
            then option_map
                   (cons ((b0 - 240) * 262144 + (b1 - 128) * 4096
                          + (b2 - 128) * 64 + (b3 - 128)))
                   (utf8_decode r3)
            else None
        | _ => None
        end
      else None
  end.

(** [str.encode("utf-8")] on one character; a surrogate cannot be
    encoded. *)
Definition utf8_encode_char (c : char) : option (list N) :=
  if c <? 128 then Some [c]
  else if c <? 2048 then Some [192 + c / 64; 128 + c mod 64]
  else if in_range 55296 57343 c then None
  else if c <? 65536 then
    Some [224 + c / 4096; 128 + (c / 64) mod 64; 128 + c mod 64]
  else if c <? 1114112 then
    Some [240 + c / 262144; 128 + (c / 4096) mod 64; 128 + (c / 64) mod 64;
          128 + c mod 64]
  else None.

Fixpoint utf8_encode (s : pystr) : option (list N) :=
  match s with
  | [] => Some []
  | c :: s' =>
      match utf8_encode_char c, utf8_encode s' with
      | Some bs, Some rest => Some (bs ++ rest)
      | _, _ => None
      end
  end.

(** [bytes.decode("latin-1")]: every byte is the character of its value. *)
Definition latin1_decode (bs : list N) : pystr := bs.

(** What a file opened for reading in text mode does to line ends (the
    default [newline=None]): [\r\n] and a lone [\r] become [\n]. *)
Fixpoint universal_newlines (s : pystr) : pystr :=
  match s with
  | [] => []
  | c :: rest =>
      if c =? 13 then
        10 :: match rest with
              | d :: rest' =>
                  if d =? 10 then universal_newlines rest'
                  else universal_newlines rest
              | [] => []
              end
      else c :: universal_newlines rest
  end.

(** [f.readlines()] on the translated text: the lines with their [\n];
    [cur] is the line being read. *)
Fixpoint split_keepends (cur s : pystr) : list pystr :=
  match s with
  | [] => if is_empty cur then [] else [cur]
  | c :: rest =>
      if c =? 10 then (cur ++ [c]) :: split_keepends [] rest
      else split_keepends (cur ++ [c]) rest
  end.

Definition readlines (decoded : pystr) : list pystr :=
  split_keepends [] (universal_newlines decoded).

(** What a file opened for writing in text mode does to line ends: [\n]
    becomes the line separator of the platform. *)
Definition write_newlines (linesep s : pystr) : pystr :=
  flat_map (fun c => if c =? 10 then linesep else [c]) s.

End Codec.
Import Codec.

Inductive platform := Posix | Windows.

(** [os.linesep] *)
Definition linesep (os : platform) : pystr :=
  match os with Posix => [10%N] | Windows => [13%N; 10%N] end.

(** What [parse_file] meets at a path.  Opening a directory fails with an
    [OSError]; every sequence of bytes decodes as Latin-1. *)
Definition file_env_of (n : option node) : file_env :=
  match n with
  | None => mkEnv false (ReadFails FileNotFoundError)
                  (ReadFails FileNotFoundError)
  | Some Directory => mkEnv true (ReadFails OSError) (ReadFails OSError)
  | Some (RegularFile bytes) =>
      mkEnv true
            (match utf8_decode bytes with
             | Some s => ReadLines (readlines s)
             | None => ReadDecodeError
             end)
            (ReadLines (readlines (latin1_decode bytes)))
  end.

(** The levels of [logging] the program uses, with their numbers. *)
Inductive level := DEBUG | INFO | WARNING | ERROR.

Definition level_value (l : level) : nat :=
  match l with DEBUG => 10 | INFO => 20 | WARNING => 30 | ERROR => 40 end.

(** The root logger: how many handlers it has, and its level.  The logger
    of the module sets no level of its own, its records are emitted from
    the level of the root on. *)
Record logging := mkLogging {
  root_handlers : nat;
  root_level : level
}.

(** [logging.basicConfig(level=..., format=..., datefmt=...)]: nothing
    happens when the root logger has a handler already; otherwise one
    handler is added and the level set. *)
Definition basicConfig (lvl : level) (st : logging) : logging :=
  if Nat.eqb (root_handlers st) 0 then mkLogging 1 lvl else st.

(** The call at the top of the module, run when it is loaded. *)
Definition module_logging (st : logging) : logging := basicConfig INFO st.

Definition setup_logging (verbose : bool) (st : logging) : logging :=
  basicConfig (if verbose then DEBUG else INFO) st.

(** [logger.isEnabledFor(lvl)] *)
Definition is_enabled_for (lvl : level) (st : logging) : bool :=
  Nat.leb (level_value (root_level st)) (level_value lvl).

(** The root logger of an interpreter that has configured nothing. *)
Definition fresh_logging : logging := mkLogging 0 WARNING.

(* ================================================================== *)
(** ** The sample file, the input check and [main] *)
(* ================================================================== *)

Definition sample_lines : list pystr :=
  [[191%N] ++ py "Cu" ++ [225%N] ++ py "l es la capital de Francia?";
   py "A) Londres";
   py "B) Par" ++ [237%N] ++ py "s";
   py "C) Madrid  ";
   py "D) Roma";
   py "ANSWER: B";
   [];
   [191%N] ++ py "Cu" ++ [225%N] ++ py "ntos d" ++ [237%N]
     ++ py "as tiene una semana?";
   py "A) 5";
   py "B) 6";
   py "C) 7";
   py "D) 8";
   py "ANSWER: C";
   [];
   [191%N] ++ py "Cu" ++ [225%N] ++ py "l es el resultado de 2 + 2?";
   py "A) 3";
   py "B) 4";
   py "C) 5";
   py "D) 6";
   py "ANSWER: B";
   [];
   [191%N] ++ py "En qu" ++ [233%N] ++ py " a" ++ [241%N] ++ py "o lleg"
     ++ [243%N] ++ py " Crist" ++ [243%N] ++ py "bal Col" ++ [243%N]
     ++ py "n a Am" ++ [233%N] ++ py "rica?";
   py "A) 1490";
   py "B) 1491";
   py "C) 1492";
   py "D) 1493";
   py "ANSWER: C";
   [];
   [191%N] ++ py "Cu" ++ [225%N] ++ py "l es el oc" ++ [233%N] ++ py "ano m"
     ++ [225%N] ++ py "s grande del mundo?";
   py "A) Atl" ++ [225%N] ++ py "ntico";
   py "B) " ++ [205%N] ++ py "ndico";
   py "C) " ++ [193%N] ++ py "rtico";
   py "D) Pac" ++ [237%N] ++ py "fico";
   py "ANSWER: D"].

(** The literal of [create_sample_file]: every line is followed by a
    newline. *)
Definition sample_content : pystr := flat_map nl sample_lines.

(** [create_sample_file]: the path is opened for writing, which empties
    the file, and the text is written under UTF-8.  Opening a directory
    fails; the file system may refuse the file for another reason (the
    directory of the path is missing, the disk is full) and says what the
    path names then, if it is not what it named before. *)
Definition create_sample_file {rt : Runtime} (os : platform)
  (output_path : pystr) (files : filesystem) : result unit * filesystem :=
  match PyDict.get output_path files with
  | Some Directory => (Raise OSError, files)
  | _ =>
      match sample_refused output_path files with
      | Some (e, remains) =>
          (Raise e,
           match remains with
           | Some n => PyDict.set output_path n files
           | None => files
           end)
      | None =>
          match utf8_encode (write_newlines (linesep os) sample_content) with
          | Some bytes =>
              (Ok tt, PyDict.set output_path (RegularFile bytes) files)
          | None =>
              (Raise UnicodeEncodeError,
               PyDict.set output_path (RegularFile []) files)
          end
      end
  end.

(** [validate_input_file] *)
Definition validate_input_file (n : option node) : result unit :=
  match n with
  | None => Raise FileNotFoundError
  | Some Directory => Raise (ValueError None)
  | Some (RegularFile bytes) =>
      if Nat.eqb (length bytes) 0 then Raise (ValueError None) else Ok tt
  end.

(** The namespace [parse_args] returns; [None] is an argument that was
    not given. *)
Record cli_args := mkArgs {
  input_file : option pystr;
  output : pystr;
  create_sample : option pystr;
  verbose : bool;
  validate_only : bool
}.

Definition default_output : pystr := py "paquete_qti.zip".

(** The truth value of an optional string argument: [None] and the empty
    string are false. *)
Definition given (a : option pystr) : option pystr :=
  match a with
  | Some (c :: s) => Some (c :: s)
  | _ => None
  end.

(** How [main] ends: it returns a status, or [parser.error] leaves with
    [SystemExit], which no [except Exception] clause catches. *)
Inductive main_outcome :=
| Return (status : Z)
| SystemExit (status : Z).

(** The status of the process after [sys.exit(main())]. *)
Definition exit_status (o : main_outcome) : Z :=
  match o with Return s => s | SystemExit s => s end.

(** What [main] prints and logs, in order.  The closing report is in two
    parts: its heading and the line that names the archive, printed before
    the size of the archive is asked for, and the rest (size, count, the
    list of platforms), of which the name and the count are kept.  The
    records of the builder are left out, as in [world]. *)
Inductive event :=
| Logged (r : log_record)
| Info_sample_created (path : pystr)
| Print_sample_created (path : pystr)
| Info_starting
| Error_no_questions
| Print_found (count : nat)
| Print_validated
| Print_question (index : nat) (shown : pystr)
| Print_generated (output_path : pystr)
| Print_completed (output_path : pystr) (count : nat)
| Error_not_found (e : exn)
| Error_validation (e : exn)
| Error_unexpected (e : exn)
| Exception_details (e : exn).

(** [f"{q.text[:60]}{'...' if len(q.text) > 60 else ''}"] *)
Definition shown_text (text : pystr) : pystr :=
  firstn 60 text ++ (if Nat.ltb 60 (length text) then py "..." else []).

(** The lines of [for i, q in enumerate(questions, 1)]. *)
Fixpoint print_questions (i : nat) (questions : list Question) : list event :=
  match questions with
  | [] => []
  | q :: rest => Print_question i (shown_text (text q))
                 :: print_questions (S i) rest
  end.

(** The three [except] clauses of [main], by the class of the exception:
    the Unicode errors are [ValueError]s.  Each returns 1. *)
Definition handler (verbose : bool) (e : exn) : list event :=
  match e with
  | FileNotFoundError => [Error_not_found e]
  | ValueError _ | UnicodeDecodeError | UnicodeEncodeError =>
      [Error_validation e]
  | ExpatError | OSError =>
      Error_unexpected e :: (if verbose then [Exception_details e] else [])
  end.

(** The files the program reads and writes by path, the current directory
    (where the staging directory and the package go; it is kept apart from
    the files read, which are taken to lie outside the staging directory)
    and the logging configuration. *)
Record system := mkSystem {
  files : filesystem;
  cwd : world;
  logging_state : logging
}.

Record run := mkRun {
  outcome : main_outcome;
  events : list event;
  after : system
}.

Section CommandLine.

Context {rt : Runtime}.

(** [output_path.stat()] succeeds: the archive is where it was written. *)
Definition archive_exists (path : pystr) (w : world) : bool :=
  match placement_of path with
  | Outside => PyDict.mem path (archives w)
  | Inside member =>
      match temp_dir w with
      | Some d => PyDict.mem member d
      | None => false
      end
  end.

(** [main], from the namespace of the arguments on.  Printing is taken to
    succeed. *)
Definition main (os : platform) (args : cli_args) (s : system) : run :=
  let lg := setup_logging (verbose args) (logging_state s) in
  match given (create_sample args) with
  | Some sample_path =>
      match create_sample_file os sample_path (files s) with
      | (Ok _, files') =>
          mkRun (Return 0)
                [Info_sample_created sample_path;
                 Print_sample_created sample_path]
                (mkSystem files' (cwd s) lg)
      | (Raise e, files') =>
          mkRun (Return 1) (handler (verbose args) e)
                (mkSystem files' (cwd s) lg)
      end
  | None =>
      match given (input_file args) with
      | None => mkRun (SystemExit 2) [] (mkSystem (files s) (cwd s) lg)
      | Some input_path =>
          let found := PyDict.get input_path (files s) in
          match validate_input_file found with
          | Raise e =>
              mkRun (Return 1) (handler (verbose args) e)
                    (mkSystem (files s) (cwd s) lg)
          | Ok _ =>
              let (parsed, parse_log) := parse_file (file_env_of found) in
              let logged := Info_starting :: map Logged parse_log in
              match parsed with
              | Raise e =>
                  mkRun (Return 1) (logged ++ handler (verbose args) e)
                        (mkSystem (files s) (cwd s) lg)
              | Ok [] =>
                  mkRun (Return 1) (logged ++ [Error_no_questions])
                        (mkSystem (files s) (cwd s) lg)
              | Ok (q :: qs) =>
                  let questions := q :: qs in
                  let found_line := [Print_found (length questions)] in
                  if validate_only args then
                    mkRun (Return 0)
                          (logged ++ found_line ++ Print_validated
                             :: print_questions 1 questions)
                          (mkSystem (files s) (cwd s) lg)
                  else
                    match build_package questions (output args) (cwd s) with
                    | (Ok output_path, w') =>
                        if archive_exists output_path w' then
                          mkRun (Return 0)
                                (logged ++ found_line
                                   ++ [Print_generated output_path;
                                       Print_completed output_path
                                         (length questions)])
                                (mkSystem (files s) w' lg)
                        else
                          mkRun (Return 1)
                                (logged ++ found_line
                                   ++ Print_generated output_path
                                   :: handler (verbose args)
                                              FileNotFoundError)
                                (mkSystem (files s) w' lg)
                    | (Raise e, w') =>
                        mkRun (Return 1)
                              (logged ++ found_line
                                 ++ handler (verbose args) e)
                              (mkSystem (files s) w' lg)
                    end
              end
          end
      end
  end.

End CommandLine.

(** What [parse_file] returns for a path that names [n]. *)
Definition questions_of (n : option node) : result (list Question) :=
  fst (parse_file (file_env_of n)).

(** The letters of the options of the sample. *)
Definition sample_letters : list pystr := [py "A"; py "B"; py "C"; py "D"].

(** A file in Latin-1: [0xBF] and [0xE9] are not UTF-8. *)
Definition latin1_bytes : list N :=
  [191%N] ++ py "Caf" ++ [233%N] ++ py "?" ++ [10%N] ++ py "A) s" ++ [237%N]
    ++ [10%N] ++ py "B) no" ++ [10%N] ++ py "ANSWER: A" ++ [10%N].

(** A file whose question holds U+0001, and a system that holds it. *)
Definition control_char_bytes : list N :=
  py "Q" ++ [1%N; 10%N] ++ py "A) x" ++ [10%N] ++ py "ANSWER: A".

Definition example_system : system :=
  mkSystem [(py "in.txt", RegularFile control_char_bytes);
            (py "dir", Directory)]
           world0 (module_logging fresh_logging).

Definition example_args : cli_args :=
  mkArgs (Some (py "in.txt")) default_output None true false.

(** The ways [main] can go, by its arguments, the file it is given and
    the answers of the file system. *)
Inductive main_case {rt : Runtime} (os : platform) (args : cli_args)
  (s : system)
  : run -> Prop :=
| Sample_written p bytes :
    given (create_sample args) = Some p ->
    PyDict.get p (files s) <> Some Directory ->
    sample_refused p (files s) = None ->
    bytes <> [] ->
    utf8_decode bytes = Some (write_newlines (linesep os) sample_content) ->
    main_case os args s
      (mkRun (Return 0) [Info_sample_created p; Print_sample_created p]
             (mkSystem (PyDict.set p (RegularFile bytes) (files s)) (cwd s)
                       (setup_logging (verbose args) (logging_state s))))
| Sample_refused p e files' :
    given (create_sample args) = Some p ->
    (PyDict.get p (files s) = Some Directory
     \/ sample_refused p (files s) <> None) ->
    (forall name, name <> p ->
       PyDict.get name files' = PyDict.get name (files s)) ->
    main_case os args s
      (mkRun (Return 1) (handler (verbose args) e)
             (mkSystem files' (cwd s)
                       (setup_logging (verbose args) (logging_state s))))
| No_input :
    given (create_sample args) = None ->
    given (input_file args) = None ->
    main_case os args s
      (mkRun (SystemExit 2) []
             (mkSystem (files s) (cwd s)
                       (setup_logging (verbose args) (logging_state s))))
| Input_refused p e :
    given (create_sample args) = None ->
    given (input_file args) = Some p ->
    validate_input_file (PyDict.get p (files s)) = Raise e ->
    main_case os args s
      (mkRun (Return 1) (handler (verbose args) e)
             (mkSystem (files s) (cwd s)
                       (setup_logging (verbose args) (logging_state s))))
| No_questions p bytes lg :
    given (create_sample args) = None ->
    given (input_file args) = Some p ->
    PyDict.get p (files s) = Some (RegularFile bytes) ->
    bytes <> [] ->
    parse_file (file_env_of (Some (RegularFile bytes))) = (Ok [], lg) ->
    main_case os args s
      (mkRun (Return 1)
             ((Info_starting :: map Logged lg) ++ [Error_no_questions])
             (mkSystem (files s) (cwd s)
                       (setup_logging (verbose args) (logging_state s))))
| Validated p bytes q qs lg :
    given (create_sample args) = None ->
    given (input_file args) = Some p ->
    PyDict.get p (files s) = Some (RegularFile bytes) ->
    bytes <> [] ->
    parse_file (file_env_of (Some (RegularFile bytes))) = (Ok (q :: qs), lg) ->
    validate_only args = true ->
    main_case os args s
      (mkRun (Return 0)
             ((Info_starting :: map Logged lg)
                ++ [Print_found (length (q :: qs))]
                ++ Print_validated :: print_questions 1 (q :: qs))
             (mkSystem (files s) (cwd s)
                       (setup_logging (verbose args) (logging_state s))))
| Converted p bytes q qs lg out w' :
    given (create_sample args) = None ->
    given (input_file args) = Some p ->
    PyDict.get p (files s) = Some (RegularFile bytes) ->
    bytes <> [] ->
    parse_file (file_env_of (Some (RegularFile bytes))) = (Ok (q :: qs), lg) ->
    validate_only args = false ->
    build_package (q :: qs) (output args) (cwd s) = (Ok out, w') ->
    archive_exists out w' = true ->
    main_case os args s
      (mkRun (Return 0)
             ((Info_starting :: map Logged lg)
                ++ [Print_found (length (q :: qs))]
                ++ [Print_generated out;
                    Print_completed out (length (q :: qs))])
             (mkSystem (files s) w'
                       (setup_logging (verbose args) (logging_state s))))
| Archive_missing p bytes q qs lg out w' :
    given (create_sample args) = None ->
    given (input_file args) = Some p ->
    PyDict.get p (files s) = Some (RegularFile bytes) ->
    bytes <> [] ->
    parse_file (file_env_of (Some (RegularFile bytes))) = (Ok (q :: qs), lg) ->
    validate_only args = false ->
    build_package (q :: qs) (output args) (cwd s) = (Ok out, w') ->
    archive_exists out w' = false ->
    main_case os args s
      (mkRun (Return 1)
             ((Info_starting :: map Logged lg)
                ++ [Print_found (length (q :: qs))]
                ++ Print_generated out
                :: handler (verbose args) FileNotFoundError)
             (mkSystem (files s) w'
                       (setup_logging (verbose args) (logging_state s))))
| Conversion_failed p bytes q qs lg e w' :
    given (create_sample args) = None ->
    given (input_file args) = Some p ->
    PyDict.get p (files s) = Some (RegularFile bytes) ->
    bytes <> [] ->
    parse_file (file_env_of (Some (RegularFile bytes))) = (Ok (q :: qs), lg) ->
    validate_only args = false ->
    build_package (q :: qs) (output args) (cwd s) = (Raise e, w') ->
    main_case os args s
      (mkRun (Return 1)
             ((Info_starting :: map Logged lg)
                ++ [Print_found (length (q :: qs))]
                ++ handler (verbose args) e)
             (mkSystem (files s) w'
                       (setup_logging (verbose args) (logging_state s)))).

(** The question lines of the sample and its answers. *)
Definition sample_texts : list pystr :=
  map (fun i => nth i sample_lines []) [0; 7; 14; 21; 28].

Definition sample_answers : list pystr :=
  [py "B"; py "C"; py "B"; py "C"; py "D"].

(* ================================================================== *)
(** ** The grammar of a line *)
(* ================================================================== *)

(** The keyword of an ANSWER line as the pattern reads it: the characters
    of [ANSWER:], each in any case the flag [re.IGNORECASE] admits. *)
Definition answer_keyword (kw : pystr) : Prop :=
  Forall2 (fun p c => Regex.literal_ignorecase p c = true) (py "ANSWER:") kw.

(** A run of whitespace. *)
Definition blanks (ws : pystr) : Prop := forallb isspace ws = true.

(** A line as [readlines] returns it: no newline but, possibly, at its
    end. *)
Definition line_shape (l : pystr) : Prop :=
  exists body, ~ In newline body /\ (l = body \/ l = body ++ [newline]).

(* ================================================================== *)
(** ** Reading the log of a scan *)
(* ================================================================== *)

(** The line number a record reports an ANSWER line at that gave no
    question. *)
Definition reported_line (r : log_record) : option nat :=
  match r with
  | Warning_answer_without_question n => Some n
  | Warning_answer_without_options n => Some n
  | Error_in_question n _ => Some n
  | _ => None
  end.

Definition is_report (r : log_record) : bool :=
  match reported_line r with Some _ => true | None => false end.

(** The records about ANSWER lines that gave no question. *)
Definition reports (l : list log_record) : list log_record :=
  filter is_report l.

(* ================================================================== *)
(** ** What the file system does to a run *)
(* ================================================================== *)

(** The file system refuses no request of the builder. *)
Definition file_system_willing {rt : Runtime} : Prop :=
  (forall req w, staging_refused req w = None)
  /\ (forall path w, open_refused path w = None)
  /\ (forall step path w, archive_refused step path w = None).

(** The exception is one the file system refused a request of the builder
    with. *)
Definition refused_with {rt : Runtime} (e : exn) : Prop :=
  (exists req w remains, staging_refused req w = Some (e, remains))
  \/ (exists path w, open_refused path w = Some e)
  \/ (exists step path w remains,
        archive_refused step path w = Some (e, remains)).

(** What is between [try] and [finally] in [build_package]. *)
Definition package_body {rt : Runtime} (questions : list Question)
  (output_filename : pystr) : M pystr :=
  resources <- build_items 1 questions [] ;;
  manifest_content <- generate_manifest resources ;;
  _ <- write_temp_file manifest_filename manifest_content ;;
  _create_zip_package output_filename.

(** The name [_create_zip_package] gives the archive. *)
Definition archive_name (output_filename : pystr) : pystr :=
  if endswith output_filename (py ".zip") then output_filename
  else output_filename ++ py ".zip".

(* ================================================================== *)
(** * Properties *)
(* ================================================================== *)

(** ** Strings and dictionaries *)

Lemma char_eqb_eq a b : char_eqb a b = true <-> a = b.
Proof. apply N.eqb_eq. Qed.

Lemma char_eqb_neq a b : char_eqb a b = false <-> a <> b.
Proof. apply N.eqb_neq. Qed.

Lemma str_eqb_eq a b : str_eqb a b = true <-> a = b.
Proof.
  revert b. induction a as [|x a IH]; intros [|y b]; simpl;
    try (split; [discriminate | congruence]); try tauto.
  rewrite andb_true_iff, char_eqb_eq, IH. split.
  - intros [-> ->]. reflexivity.
  - intros E. inversion E. auto.
Qed.

Lemma str_eqb_refl a : str_eqb a a = true.
Proof. apply str_eqb_eq. reflexivity. Qed.

Lemma str_eqb_neq a b : str_eqb a b = false <-> a <> b.
Proof.
  destruct (str_eqb a b) eqn:E.
  - apply str_eqb_eq in E. split; [discriminate | congruence].
  - split; [| reflexivity]. intros _ H. apply str_eqb_eq in H. congruence.
Qed.

Lemma is_empty_true (s : pystr) : is_empty s = true <-> s = [].
Proof. destruct s; simpl; split; congruence. Qed.

Lemma is_empty_false (s : pystr) : is_empty s = false <-> s <> [].
Proof. destruct s; simpl; split; congruence. Qed.

Lemma lstrip_nonspace c r : isspace c = false -> lstrip (c :: r) = c :: r.
Proof. intros H. simpl. rewrite H. reflexivity. Qed.

Lemma lstrip_app_nonspace u c :
  isspace c = false -> exists u', lstrip (u ++ [c]) = u' ++ [c].
Proof.
  intros Hc. induction u as [|x u IH]; simpl.
  - rewrite Hc. exists []. reflexivity.
  - destruct (isspace x).
    + exact IH.
    + exists (x :: u). reflexivity.
Qed.

Lemma lstrip_head s c r : lstrip s = c :: r -> isspace c = false.
Proof.
  induction s as [|x s IH]; simpl; [discriminate |].
  destruct (isspace x) eqn:E; [exact IH |].
  intros H. inversion H. subst. exact E.
Qed.

Lemma lstrip_suffix s : exists w, s = w ++ lstrip s.
Proof.
  induction s as [|x s [w IH]]; simpl.
  - exists []. reflexivity.
  - destruct (isspace x).
    + exists (x :: w). simpl. congruence.
    + exists []. reflexivity.
Qed.

(** A string that starts with a character that is not blank keeps it
    through [strip]. *)
Lemma strip_keeps_head c r :
  isspace c = false -> exists r', strip (c :: r) = c :: r'.
Proof.
  intros Hc. unfold strip, rstrip. rewrite (lstrip_nonspace c r Hc).
  simpl rev. destruct (lstrip_app_nonspace (rev r) c Hc) as [u' ->].
  exists (rev u'). rewrite rev_app_distr. reflexivity.
Qed.

(** What [strip] returns does not start with a blank. *)
Lemma strip_head s c r : strip s = c :: r -> isspace c = false.
Proof.
  unfold strip, rstrip. intros H.
  destruct (lstrip s) as [|x t] eqn:E.
  - simpl in H. discriminate.
  - pose proof (lstrip_head _ _ _ E) as Hx.
    destruct (lstrip_suffix (rev (x :: t))) as [w Hw].
    assert (Hrev : x :: t = rev (lstrip (rev (x :: t))) ++ rev w).
    { rewrite <- rev_app_distr, <- Hw, rev_involutive. reflexivity. }
    rewrite H in Hrev. simpl in Hrev. inversion Hrev. subst. exact Hx.
Qed.

Module DictFacts.
Import PyDict.

Lemma mem_In {V} k (d : dict V) : mem k d = true <-> In k (keys d).
Proof.
  unfold mem, keys. induction d as [|[k' v] d IH]; simpl.
  - split; [discriminate | tauto].
  - destruct (str_eqb k k') eqn:E.
    + apply str_eqb_eq in E. subst. tauto.
    + apply str_eqb_neq in E. rewrite IH. split; [tauto |].
      intros [H | H]; [congruence | exact H].
Qed.

Lemma set_fresh {V} k (v : V) d : mem k d = false -> set k v d = d ++ [(k, v)].
Proof.
  unfold mem. induction d as [|[k' v'] d IH]; simpl; [reflexivity |].
  destruct (str_eqb k k'); [discriminate |].
  intros H. rewrite (IH H). reflexivity.
Qed.

Lemma get_set_same {V} k (v : V) d : get k (set k v d) = Some v.
Proof.
  induction d as [|[k' v'] d IH]; simpl.
  - rewrite str_eqb_refl. reflexivity.
  - destruct (str_eqb k k') eqn:E; simpl.
    + rewrite str_eqb_refl. reflexivity.
    + rewrite E. exact IH.
Qed.

Lemma get_set_other {V} k k' (v : V) d :
  k <> k' -> get k (set k' v d) = get k d.
Proof.
  intros Hne. induction d as [|[k2 v2] d IH]; simpl.
  - apply str_eqb_neq in Hne. rewrite Hne. reflexivity.
  - destruct (str_eqb k' k2) eqn:E; simpl.
    + apply str_eqb_eq in E. subst k2.
      apply str_eqb_neq in Hne. rewrite Hne. reflexivity.
    + destruct (str_eqb k k2); [reflexivity | exact IH].
Qed.

Lemma mem_set {V} k k' (v : V) d :
  mem k (set k' v d) = str_eqb k k' || mem k d.
Proof.
  unfold mem. destruct (str_eqb k k') eqn:E.
  - apply str_eqb_eq in E. subst. rewrite get_set_same. reflexivity.
  - apply str_eqb_neq in E. rewrite (get_set_other k k' v d E). reflexivity.
Qed.

Lemma set_values {V} (P : V -> Prop) k v (d : dict V) :
  P v -> Forall (fun kv => P (snd kv)) d ->
  Forall (fun kv => P (snd kv)) (set k v d).
Proof.
  intros Hv. induction d as [|[k' v'] d IH]; simpl; intros Hd.
  - constructor; [exact Hv | constructor].
  - inversion Hd; subst. destruct (str_eqb k k').
    + constructor; assumption.
    + constructor; [assumption | apply IH; assumption].
Qed.

Lemma keys_length {V} (d : dict V) : length (keys d) = len d.
Proof. apply length_map. Qed.

End DictFacts.

(** ** The two patterns *)

Module RegexFacts.
Import Regex.
Local Open Scope N_scope.

Ltac literal t :=
  let v := eval vm_compute in t in change t with v.

Lemma at_end_spec r : at_end r = true -> r = [] \/ r = [newline].
Proof.
  destruct r as [|c [|d r]]; simpl; intros H; try discriminate.
  - left. reflexivity.
  - right. apply char_eqb_eq in H. subst. reflexivity.
Qed.

Lemma dot_run_spec s t r :
  dot_run s = (t, r) -> s = t ++ r /\ ~ In newline t.
Proof.
  revert t r. induction s as [|c s IH]; simpl; intros t r H.
  - inversion H. split; [reflexivity | intros []].
  - destruct (char_eqb c newline) eqn:E.
    + inversion H. split; [reflexivity | intros []].
    + destruct (dot_run s) as [t' r'] eqn:D. inversion H; subst.
      destruct (IH t' r eq_refl) as [-> Hn]. split; [reflexivity |].
      intros [Hc | Hin]; [| exact (Hn Hin)].
      apply char_eqb_neq in E. congruence.
Qed.

Lemma dot_plus_end_spec s t :
  dot_plus_end s = Some t ->
  t <> [] /\ ~ In newline t /\ (s = t \/ s = t ++ [newline]).
Proof.
  unfold dot_plus_end. destruct (dot_run s) as [t' r] eqn:D.
  destruct (negb (is_empty t') && at_end r) eqn:E; [| discriminate].
  intros H. inversion H; subst t'. apply andb_true_iff in E as [E1 E2].
  apply negb_true_iff, is_empty_false in E1.
  destruct (dot_run_spec _ _ _ D) as [-> Hn].
  split; [exact E1 |]. split; [exact Hn |].
  destruct (at_end_spec _ E2) as [-> | ->].
  - left. apply app_nil_r.
  - right. reflexivity.
Qed.

Lemma blanks_then_text_spec s t :
  blanks_then_text s = Some t ->
  exists ws, forallb isspace ws = true /\ t <> [] /\ ~ In newline t
             /\ (s = ws ++ t \/ s = ws ++ t ++ [newline]).
Proof.
  induction s as [|c s IH]; simpl; [discriminate |].
  assert (Hdot : dot_plus_end (c :: s) = Some t ->
                 exists ws, forallb isspace ws = true /\ t <> []
                            /\ ~ In newline t
                            /\ (c :: s = ws ++ t \/ c :: s = ws ++ t ++ [newline])).
  { intros H. apply dot_plus_end_spec in H as (H1 & H2 & H3).
    exists []. simpl. auto. }
  destruct (isspace c) eqn:E; [| exact Hdot].
  destruct (blanks_then_text s) as [t'|] eqn:B; [| exact Hdot].
  intros H. inversion H; subst t'.
  destruct (IH eq_refl) as (ws & Hws & Ht & Hn & Hs).
  exists (c :: ws). simpl. rewrite E, Hws.
  repeat split; try assumption.
  destruct Hs as [-> | ->]; [left | right]; reflexivity.
Qed.

(** What a line recorded as an option looks like: one letter of [A]-[Z],
    a closing parenthesis or a full stop, at least one blank, and a text
    that is not empty. *)
Lemma option_pattern_spec line k v :
  option_pattern line = Some (k, v) ->
  exists c d ws,
    k = [c] /\ is_AZ c = true /\ (d = 41%N \/ d = 46%N)
    /\ ws <> [] /\ forallb isspace ws = true
    /\ v <> [] /\ ~ In newline v
    /\ (line = c :: d :: ws ++ v \/ line = c :: d :: ws ++ v ++ [newline]).
Proof.
  destruct line as [|c [|d [|w rest]]]; simpl; try discriminate.
  destruct (is_AZ c && (char_eqb d 41 || char_eqb d 46) && isspace w) eqn:E;
    [| discriminate].
  destruct (blanks_then_text rest) as [t|] eqn:B; [| discriminate].
  intros H. inversion H; subst k v.
  apply andb_true_iff in E as [E Hw]. apply andb_true_iff in E as [Hc Hd].
  apply blanks_then_text_spec in B as (ws & Hws & Ht & Hn & Hs).
  exists c, d, (w :: ws). simpl. rewrite Hw, Hws.
  repeat split; try assumption; try discriminate.
  - apply orb_true_iff in Hd as [Hd | Hd]; apply char_eqb_eq in Hd; auto.
  - destruct Hs as [-> | ->]; [left | right]; reflexivity.
Qed.

Lemma option_pattern_value line k v :
  option_pattern line = Some (k, v) -> v <> [].
Proof.
  intros H. apply option_pattern_spec in H as (c & d & ws & H).
  tauto.
Qed.

(** The two patterns exclude each other: the second character is [N] for
    one and a parenthesis or a full stop for the other. *)
Lemma option_not_answer line kv :
  option_pattern line = Some kv -> answer_pattern line = None.
Proof.
  destruct kv as [k v]. intros H.
  apply option_pattern_spec in H as (c & d & ws & _ & _ & Hd & _ & _ & _ & _ & Hl).
  unfold answer_pattern. literal (py "ANSWER:").
  assert (Hlit : literal_ignorecase 78 d = false).
  { destruct Hd as [-> | ->]; reflexivity. }
  destruct Hl as [-> | ->]; simpl; rewrite Hlit;
    destruct (literal_ignorecase 65 c); reflexivity.
Qed.

Lemma answer_pattern_nonempty line g :
  answer_pattern line = Some g -> is_empty line = false.
Proof. destruct line; [discriminate | reflexivity]. Qed.

Lemma option_pattern_nonempty line kv :
  option_pattern line = Some kv -> is_empty line = false.
Proof. destruct line; [discriminate | reflexivity]. Qed.

End RegexFacts.

(** ** The scanner, line by line *)

Lemma classify_answer line g :
  classify line = AnswerLine g <-> Regex.answer_pattern line = Some g.
Proof.
  unfold classify. split.
  - destruct (is_empty line); [discriminate |].
    destruct (Regex.answer_pattern line); [congruence |].
    destruct (Regex.option_pattern line) as [[? ?]|]; discriminate.
  - intros H. rewrite (RegexFacts.answer_pattern_nonempty _ _ H), H.
    reflexivity.
Qed.

Lemma classify_option line k v :
  classify line = OptionLine k v <-> Regex.option_pattern line = Some (k, v).
Proof.
  unfold classify. split.
  - destruct (is_empty line); [discriminate |].
    destruct (Regex.answer_pattern line); [discriminate |].
    destruct (Regex.option_pattern line) as [[? ?]|]; [congruence | discriminate].
  - intros H. rewrite (RegexFacts.option_pattern_nonempty _ _ H),
      (RegexFacts.option_not_answer _ _ H), H. reflexivity.
Qed.

Lemma classify_text line :
  classify line = TextLine <->
  line <> [] /\ Regex.answer_pattern line = None
  /\ Regex.option_pattern line = None.
Proof.
  unfold classify. split.
  - destruct (is_empty line) eqn:E; [discriminate |].
    apply is_empty_false in E.
    destruct (Regex.answer_pattern line); [discriminate |].
    destruct (Regex.option_pattern line) as [[? ?]|]; [discriminate | auto].
  - intros (H1 & H2 & H3). apply is_empty_false in H1.
    rewrite H1, H2, H3. reflexivity.
Qed.

Lemma scan_line_blank st :
  scan_line st [] =
  mkScan (questions st) (current_question_text st) (current_options st)
         (S (line_number st)) (log st).
Proof. reflexivity. Qed.

Lemma scan_line_option st line k v :
  Regex.option_pattern line = Some (k, v) ->
  scan_line st line =
  mkScan (questions st) (current_question_text st)
         (PyDict.set k v (current_options st)) (S (line_number st)) (log st).
Proof.
  intros H. unfold scan_line.
  rewrite (RegexFacts.option_pattern_nonempty _ _ H),
    (RegexFacts.option_not_answer _ _ H), H. reflexivity.
Qed.

Lemma scan_line_text st line :
  classify line = TextLine ->
  scan_line st line =
  mkScan (questions st)
         (if is_empty (current_question_text st) then line
          else current_question_text st ++ py " " ++ line)
         (current_options st) (S (line_number st)) (log st).
Proof.
  intros H. apply classify_text in H as (H1 & H2 & H3).
  apply is_empty_false in H1. unfold scan_line. rewrite H1, H2, H3.
  destruct (is_empty (current_question_text st)); reflexivity.
Qed.

Lemma scan_lines_app st l1 l2 :
  scan_lines st (l1 ++ l2) = scan_lines (scan_lines st l1) l2.
Proof. apply fold_left_app. Qed.

(** A line that is no ANSWER line leaves the list of questions alone. *)
Lemma scan_line_no_answer st line :
  Regex.answer_pattern line = None ->
  questions (scan_line st line) = questions st.
Proof.
  intros H. unfold scan_line. rewrite H.
  destruct (is_empty line); [reflexivity |].
  destruct (Regex.option_pattern line) as [[k v]|]; [reflexivity |].
  destruct (is_empty (current_question_text st)); reflexivity.
Qed.

Lemma scan_lines_no_answer st lines :
  Forall (fun l => Regex.answer_pattern l = None) lines ->
  questions (scan_lines st lines) = questions st.
Proof.
  revert st. induction lines as [|l lines IH]; intros st H; [reflexivity |].
  inversion H; subst. simpl. rewrite IH by assumption.
  apply scan_line_no_answer. assumption.
Qed.

(** The questions a run of lines adds depend on the accumulated text and
    options only, not on the questions found before. *)
Lemma scan_line_frame st1 st2 line :
  current_question_text st1 = current_question_text st2 ->
  current_options st1 = current_options st2 ->
  exists delta,
    questions (scan_line st1 line) = questions st1 ++ delta
    /\ questions (scan_line st2 line) = questions st2 ++ delta
    /\ current_question_text (scan_line st1 line)
       = current_question_text (scan_line st2 line)
    /\ current_options (scan_line st1 line)
       = current_options (scan_line st2 line).
Proof.
  destruct st1 as [q1 t1 o1 n1 l1], st2 as [q2 t2 o2 n2 l2]. simpl.
  intros <- <-. unfold scan_line. simpl.
  destruct (is_empty line); [exists []; rewrite !app_nil_r; auto |].
  destruct (Regex.answer_pattern line) as [g|].
  - destruct (is_empty t1); [exists []; rewrite !app_nil_r; auto |].
    destruct (PyDict.is_empty o1); [exists []; rewrite !app_nil_r; auto |].
    destruct (Question_new (strip t1) (PyDict.copy o1) (Regex.upper g)) as [q|e].
    + exists [q]. simpl. auto.
    + exists []. simpl. rewrite !app_nil_r. auto.
  - destruct (Regex.option_pattern line) as [[k v]|].
    + exists []. simpl. rewrite !app_nil_r. auto.
    + destruct (is_empty t1); exists []; simpl; rewrite !app_nil_r; auto.
Qed.

Lemma scan_lines_frame lines : forall st1 st2,
  current_question_text st1 = current_question_text st2 ->
  current_options st1 = current_options st2 ->
  exists delta,
    questions (scan_lines st1 lines) = questions st1 ++ delta
    /\ questions (scan_lines st2 lines) = questions st2 ++ delta
    /\ current_question_text (scan_lines st1 lines)
       = current_question_text (scan_lines st2 lines)
    /\ current_options (scan_lines st1 lines)
       = current_options (scan_lines st2 lines).
Proof.
  induction lines as [|l lines IH]; intros st1 st2 Ht Ho.
  - exists []. simpl. rewrite !app_nil_r. auto.
  - destruct (scan_line_frame st1 st2 l Ht Ho) as (d1 & H1 & H2 & Ht' & Ho').
    destruct (IH _ _ Ht' Ho') as (d2 & H3 & H4 & H5 & H6).
    exists (d1 ++ d2). simpl. rewrite H3, H4, H1, H2, <- !app_assoc. auto.
Qed.

Lemma parse_lines_questions log0 lines :
  fst (parse_lines log0 lines) = questions (scan_lines (scan_init log0) lines).
Proof. reflexivity. Qed.

(** From a state with nothing accumulated the scan adds what a fresh parse
    of the same lines returns. *)
Lemma scan_lines_closed st lines log1 :
  current_question_text st = [] -> current_options st = [] ->
  questions (scan_lines st lines)
  = questions st ++ fst (parse_lines log1 lines).
Proof.
  intros Ht Ho.
  destruct (scan_lines_frame lines st (scan_init log1) Ht Ho)
    as (d & H1 & H2 & _).
  rewrite parse_lines_questions, H1, H2. reflexivity.
Qed.

Lemma Question_new_ok t o a q :
  Question_new t o a = Ok q ->
  q = mkQuestion t o a /\ Question_valid q = true.
Proof.
  unfold Question_new, post_init. simpl.
  destruct (is_empty (strip t)) eqn:Et; [discriminate |].
  destruct (PyDict.is_empty o) eqn:Eo; [discriminate |].
  destruct (PyDict.mem a o) eqn:Em; [| discriminate].
  intros H. inversion H. subst q. split; [reflexivity |].
  unfold Question_valid. simpl. rewrite Et, Eo, Em. reflexivity.
Qed.

Lemma Question_new_valid t o a :
  Question_valid (mkQuestion t o a) = true ->
  Question_new t o a = Ok (mkQuestion t o a).
Proof.
  unfold Question_new, post_init, Question_valid. simpl.
  intros H. apply andb_true_iff in H as [H Hm].
  apply andb_true_iff in H as [Ht Ho].
  apply negb_true_iff in Ht, Ho. rewrite Ht, Ho, Hm. reflexivity.
Qed.

Lemma Question_new_invalid t o a :
  Question_valid (mkQuestion t o a) = false ->
  exists why, Question_new t o a = Raise (ValueError (Some why)).
Proof.
  unfold Question_new, post_init, Question_valid. simpl.
  destruct (is_empty (strip t)); [eexists; reflexivity |].
  destruct (PyDict.is_empty o); [eexists; reflexivity |].
  destruct (PyDict.mem a o); [discriminate | eexists; reflexivity].
Qed.

Lemma scan_line_answer_ok st line g :
  Regex.answer_pattern line = Some g ->
  current_question_text st <> [] ->
  starts_nonblank (current_question_text st) ->
  PyDict.mem (Regex.upper g) (current_options st) = true ->
  scan_line st line =
  mkScan (questions st
          ++ [mkQuestion (strip (current_question_text st))
                         (current_options st) (Regex.upper g)])
         [] PyDict.empty (S (line_number st))
         (log st ++ [Debug_question_parsed (length (questions st ++
            [mkQuestion (strip (current_question_text st))
                        (current_options st) (Regex.upper g)]))]).
Proof.
  intros Ha Ht Hs Hm. unfold scan_line.
  rewrite (RegexFacts.answer_pattern_nonempty _ _ Ha), Ha.
  destruct (current_question_text st) as [|c r] eqn:Et; [congruence |].
  simpl in Hs. simpl is_empty. cbv iota.
  destruct (current_options st) as [|kv d] eqn:Eo; [discriminate |].
  simpl PyDict.is_empty. cbv iota.
  rewrite Question_new_valid; [reflexivity |].
  assert (Hstrip : is_empty (strip (strip (c :: r))) = false).
  { destruct (strip_keeps_head c r Hs) as [r' E]. rewrite E.
    destruct (strip_keeps_head c r' Hs) as [r2 E2]. rewrite E2.
    reflexivity. }
  unfold Question_valid, PyDict.copy. simpl text. simpl options.
  simpl answer. rewrite Hstrip, Hm. reflexivity.
Qed.

Lemma scan_line_answer_bad st line g :
  Regex.answer_pattern line = Some g ->
  current_question_text st <> [] ->
  current_options st <> [] ->
  PyDict.mem (Regex.upper g) (current_options st) = false ->
  exists why,
    scan_line st line =
    mkScan (questions st) [] PyDict.empty (S (line_number st))
           (log st ++ [Error_in_question (S (line_number st))
                                         (ValueError (Some why))]).
Proof.
  intros Ha Ht Ho Hm. unfold scan_line.
  rewrite (RegexFacts.answer_pattern_nonempty _ _ Ha), Ha.
  apply is_empty_false in Ht. rewrite Ht.
  destruct (current_options st) as [|kv d] eqn:Eo; [congruence |].
  simpl PyDict.is_empty. cbv iota.
  destruct (Question_new_invalid (strip (current_question_text st))
              (PyDict.copy (kv :: d)) (Regex.upper g)) as [why ->].
  - unfold Question_valid, PyDict.copy. simpl text. simpl options.
    simpl answer. rewrite Hm. apply andb_false_r.
  - exists why. reflexivity.
Qed.

Lemma strip_starts_nonblank s : starts_nonblank (strip s).
Proof.
  destruct (strip s) as [|c r] eqn:E; simpl; [exact I |].
  exact (strip_head _ _ _ E).
Qed.

Lemma map_strip_starts_nonblank raw : Forall starts_nonblank (map strip raw).
Proof.
  induction raw; simpl; constructor; auto using strip_starts_nonblank.
Qed.

(** Lines of question text: the questions and options stay, the text
    grows and still starts with a character that is not blank. *)
Lemma scan_text_lines qlines : forall st,
  Forall (fun l => classify l = TextLine) qlines ->
  Forall starts_nonblank qlines ->
  starts_nonblank (current_question_text st) ->
  questions (scan_lines st qlines) = questions st
  /\ current_options (scan_lines st qlines) = current_options st
  /\ starts_nonblank (current_question_text (scan_lines st qlines))
  /\ (current_question_text st <> [] \/ qlines <> [] ->
      current_question_text (scan_lines st qlines) <> []).
Proof.
  induction qlines as [|l qlines IH]; intros st Hk Hs Hst.
  - simpl. repeat split; auto. intros [H | H]; congruence.
  - inversion Hk as [|? ? Hl Hk']; subst. inversion Hs as [|? ? Hsl Hs']; subst.
    simpl. pose proof (scan_line_text st l Hl) as E.
    apply classify_text in Hl as (Hne & _ & _).
    assert (Hnew : starts_nonblank (current_question_text (scan_line st l))
                   /\ current_question_text (scan_line st l) <> []).
    { rewrite E. simpl. destruct (current_question_text st) as [|c r]; simpl.
      - auto.
      - simpl in Hst. split; [exact Hst | discriminate]. }
    destruct Hnew as [Hn1 Hn2].
    destruct (IH (scan_line st l) Hk' Hs' Hn1) as (I1 & I2 & I3 & I4).
    split; [rewrite I1, E; reflexivity |].
    split; [rewrite I2, E; reflexivity |].
    split; [exact I3 |]. intros _. apply I4. left. exact Hn2.
Qed.

(** Lines of options with letters that are new: the options grow by one
    entry per line, in the order of the lines. *)
Lemma scan_option_lines olines : forall letters st,
  Forall2 (fun l k => exists v, classify l = OptionLine k v) olines letters ->
  NoDup letters ->
  (forall k, In k letters -> PyDict.mem k (current_options st) = false) ->
  questions (scan_lines st olines) = questions st
  /\ current_question_text (scan_lines st olines) = current_question_text st
  /\ PyDict.keys (current_options (scan_lines st olines))
     = PyDict.keys (current_options st) ++ letters.
Proof.
  induction olines as [|l olines IH]; intros letters st HF Hnd Hfresh.
  - inversion HF; subst. simpl. rewrite app_nil_r. auto.
  - inversion HF as [|? k ? letters' [v Hl] HF']; subst.
    inversion Hnd as [|? ? Hk Hnd']; subst.
    apply classify_option in Hl. simpl.
    pose proof (scan_line_option st l k v Hl) as E.
    destruct (IH letters' (scan_line st l) HF' Hnd') as (I1 & I2 & I3).
    + intros k' Hin. rewrite E. simpl. rewrite DictFacts.mem_set.
      rewrite (Hfresh k' (or_intror Hin)), orb_false_r.
      apply str_eqb_neq. intros ->. exact (Hk Hin).
    + rewrite I1, I2, I3, E. simpl.
      rewrite (DictFacts.set_fresh k v _ (Hfresh k (or_introl eq_refl))).
      unfold PyDict.keys. rewrite map_app, <- app_assoc. simpl. auto.
Qed.

Lemma parse_file_utf8 env raw :
  path_exists env = true -> read_utf8 env = ReadLines raw ->
  fst (parse_file env) = Ok (fst (parse_lines [Info_parsing] (map strip raw))).
Proof.
  intros He Hr. unfold parse_file. rewrite He, Hr. simpl.
  destruct (parse_lines [Info_parsing] (map strip raw)). reflexivity.
Qed.

Lemma parse_file_latin1 env raw :
  path_exists env = true -> read_utf8 env = ReadDecodeError ->
  read_latin1 env = ReadLines raw ->
  fst (parse_file env)
  = Ok (fst (parse_lines [Info_parsing; Error_encoding_try_latin1]
                         (map strip raw))).
Proof.
  intros He Hr Hl. unfold parse_file. rewrite He, Hr, Hl. simpl.
  destruct (parse_lines [Info_parsing; Error_encoding_try_latin1]
                        (map strip raw)). reflexivity.
Qed.

(** Whatever [parse_file] returns is the list of questions of a scan of
    the stripped lines. *)
Lemma parse_file_Ok env qs :
  fst (parse_file env) = Ok qs ->
  exists log0 raw, qs = fst (parse_lines log0 (map strip raw)).
Proof.
  unfold parse_file. destruct (path_exists env); [| discriminate].
  cbv beta iota delta [negb].
  destruct (read_utf8 env) as [raw| |e].
  - intros H. exists [Info_parsing], raw.
    destruct (parse_lines [Info_parsing] (map strip raw)).
    simpl in *. congruence.
  - destruct (read_latin1 env) as [raw| |e]; try discriminate.
    intros H. exists [Info_parsing; Error_encoding_try_latin1], raw.
    destruct (parse_lines [Info_parsing; Error_encoding_try_latin1]
                          (map strip raw)).
    simpl in *. congruence.
  - discriminate.
Qed.

(** An invariant of the questions found so far holds of what a scan
    returns when each constructed question has it. *)
Lemma scan_lines_questions_invariant (P : Question -> Prop) :
  (forall t o a q, Question_new t o a = Ok q -> PyDict.is_empty o = false ->
                   Forall (fun kv => snd kv <> []) o -> P q) ->
  forall lines st,
    Forall (fun kv => snd kv <> []) (current_options st) ->
    Forall P (questions st) ->
    Forall P (questions (scan_lines st lines))
    /\ Forall (fun kv => snd kv <> [])
              (current_options (scan_lines st lines)).
Proof.
  intros HP. induction lines as [|l lines IH]; intros st Ho Hq; [auto |].
  simpl. apply IH.
  - unfold scan_line.
    destruct (is_empty l); [exact Ho |].
    destruct (Regex.answer_pattern l) as [g|].
    + destruct (is_empty (current_question_text st)); [exact Ho |].
      destruct (PyDict.is_empty (current_options st)); [exact Ho |].
      destruct (Question_new _ _ _); constructor.
    + destruct (Regex.option_pattern l) as [[k v]|] eqn:E.
      * simpl. apply (DictFacts.set_values (fun v => v <> [])); [| exact Ho].
        exact (RegexFacts.option_pattern_value _ _ _ E).
      * destruct (is_empty (current_question_text st)); exact Ho.
  - unfold scan_line.
    destruct (is_empty l); [exact Hq |].
    destruct (Regex.answer_pattern l) as [g|].
    + destruct (is_empty (current_question_text st)); [exact Hq |].
      destruct (PyDict.is_empty (current_options st)) eqn:Eo; [exact Hq |].
      destruct (Question_new _ _ _) as [q|e] eqn:En; [| exact Hq].
      simpl. apply Forall_app. split; [exact Hq |].
      constructor; [| constructor]. exact (HP _ _ _ _ En Eo Ho).
    + destruct (Regex.option_pattern l) as [[k v]|]; [exact Hq |].
      destruct (is_empty (current_question_text st)); exact Hq.
Qed.

(* ================================================================== *)
(** * The parser *)
(* ================================================================== *)

(** C1.  A single block - one or more lines of question text, then [N]
    option lines with pairwise distinct letters, then an ANSWER line whose
    letter, in upper case, is one of these letters - parses to exactly one
    question; its [answer] is that upper-case letter and its [options] have
    exactly [N] entries, keyed by the letters of the option lines. *)
Theorem parse_file_single_block env raw qlines olines letters aline g :
  path_exists env = true ->
  read_utf8 env = ReadLines raw ->
  map strip raw = qlines ++ olines ++ [aline] ->
  qlines <> [] ->
  Forall (fun l => classify l = TextLine) qlines ->
  Forall2 (fun l k => exists v, classify l = OptionLine k v) olines letters ->
  NoDup letters ->
  classify aline = AnswerLine g ->
  In (Regex.upper g) letters ->
  exists q,
    fst (parse_file env) = Ok [q]
    /\ answer q = Regex.upper g
    /\ PyDict.len (options q) = length olines
    /\ PyDict.keys (options q) = letters.
Proof.
  intros He Hr Hraw Hq Htext Hopt Hnd Hans Hin.
  rewrite (parse_file_utf8 env raw He Hr), Hraw, parse_lines_questions.
  pose proof (map_strip_starts_nonblank raw) as Hsn. rewrite Hraw in Hsn.
  apply Forall_app in Hsn as [Hsq _].
  rewrite !scan_lines_app.
  set (st0 := scan_init [Info_parsing]).
  destruct (scan_text_lines qlines st0 Htext Hsq I) as (Q1 & O1 & S1 & T1).
  set (st1 := scan_lines st0 qlines) in *.
  destruct (scan_option_lines olines letters st1 Hopt Hnd) as (Q2 & T2 & K2).
  { intros k _. rewrite O1. reflexivity. }
  set (st2 := scan_lines st1 olines) in *.
  rewrite O1 in K2. simpl in K2.
  apply classify_answer in Hans.
  assert (Hmem : PyDict.mem (Regex.upper g) (current_options st2) = true).
  { apply DictFacts.mem_In. rewrite K2. exact Hin. }
  assert (Ht2 : current_question_text st2 <> []).
  { rewrite T2. apply T1. right. exact Hq. }
  assert (Hs2 : starts_nonblank (current_question_text st2)).
  { rewrite T2. exact S1. }
  simpl scan_lines.
  rewrite (scan_line_answer_ok st2 aline g Hans Ht2 Hs2 Hmem). simpl.
  rewrite Q2, Q1. simpl.
  eexists. split; [reflexivity |]. simpl. split; [reflexivity |].
  split; [| exact K2].
  unfold PyDict.len. rewrite <- (length_map fst).
  fold (PyDict.keys (current_options st2)). rewrite K2.
  symmetry. exact (Forall2_length Hopt).
Qed.

(** C4.  A block that has question text and at least one option when its
    ANSWER line comes, and whose answer letter is not among these options,
    adds no question: the questions found before stay as they are, the
    accumulated text and options are reset, the failure is logged, and the
    lines that follow are parsed as if they stood alone. *)
Theorem bad_answer_block_dropped log0 log1 pre blk aline g post :
  current_question_text (scan_lines (scan_init log0) pre) = [] ->
  current_options (scan_lines (scan_init log0) pre) = [] ->
  Forall (fun l => Regex.answer_pattern l = None) blk ->
  current_question_text (scan_lines (scan_init log0) (pre ++ blk)) <> [] ->
  current_options (scan_lines (scan_init log0) (pre ++ blk)) <> [] ->
  Regex.answer_pattern aline = Some g ->
  PyDict.mem (Regex.upper g)
             (current_options (scan_lines (scan_init log0) (pre ++ blk)))
  = false ->
  let st_bad := scan_lines (scan_init log0) (pre ++ blk ++ [aline]) in
  questions st_bad = fst (parse_lines log0 pre)
  /\ current_question_text st_bad = []
  /\ current_options st_bad = []
  /\ (exists n why, last (log st_bad) Info_parsing
                    = Error_in_question n (ValueError (Some why)))
  /\ fst (parse_lines log0 (pre ++ blk ++ aline :: post))
     = fst (parse_lines log0 pre) ++ fst (parse_lines log1 post).
Proof.
  intros Ht Ho Hblk Ht' Ho' Ha Hm st_bad.
  assert (E : exists why,
    st_bad = mkScan (questions (scan_lines (scan_init log0) pre)) []
               PyDict.empty
               (S (line_number (scan_lines (scan_init log0) (pre ++ blk))))
               (log (scan_lines (scan_init log0) (pre ++ blk))
                ++ [Error_in_question
                      (S (line_number (scan_lines (scan_init log0) (pre ++ blk))))
                      (ValueError (Some why))])).
  { unfold st_bad. rewrite app_assoc, scan_lines_app. simpl scan_lines.
    destruct (scan_line_answer_bad _ aline g Ha Ht' Ho' Hm) as [why ->].
    exists why. f_equal.
    rewrite scan_lines_app. apply scan_lines_no_answer. exact Hblk. }
  destruct E as [why E].
  split; [rewrite E; reflexivity |].
  split; [rewrite E; reflexivity |].
  split; [rewrite E; reflexivity |].
  split.
  - rewrite E. simpl. rewrite last_last. eauto.
  - rewrite parse_lines_questions.
    replace (pre ++ blk ++ aline :: post)
      with ((pre ++ blk ++ [aline]) ++ post)
      by (rewrite <- !app_assoc; reflexivity).
    rewrite scan_lines_app. fold st_bad.
    rewrite (scan_lines_closed st_bad post log1);
      rewrite E; reflexivity.
Qed.

(** C5.  An ANSWER line met while the accumulated question text is empty,
    or while no option is accumulated, changes neither the accumulated
    text, nor the accumulated options, nor the questions found: it only
    adds a warning to the log, and the scan goes on from there. *)
Theorem answer_without_question_or_options_discarded st line g rest :
  Regex.answer_pattern line = Some g ->
  current_question_text st = [] \/ current_options st = [] ->
  current_question_text (scan_line st line) = current_question_text st
  /\ current_options (scan_line st line) = current_options st
  /\ questions (scan_line st line) = questions st
  /\ (log (scan_line st line)
      = log st ++ [Warning_answer_without_question (S (line_number st))]
      \/ log (scan_line st line)
         = log st ++ [Warning_answer_without_options (S (line_number st))])
  /\ scan_lines st (line :: rest) = scan_lines (scan_line st line) rest.
Proof.
  intros Ha Hempty.
  split; [| split; [| split; [| split; [| reflexivity]]]];
    unfold scan_line;
    rewrite (RegexFacts.answer_pattern_nonempty _ _ Ha), Ha;
    (destruct (is_empty (current_question_text st)) eqn:Et;
     [simpl; auto
     | destruct Hempty as [H | H];
       [rewrite H in Et; discriminate | rewrite H; simpl; auto]]).
Qed.

(** C9.  Lines after the last ANSWER line add no question to the result,
    whatever text or options they accumulate; when text or options are
    left at the end of the input the warning about the incomplete
    question is logged, and that is the case as soon as one of these lines
    is not blank. *)
Theorem trailing_partial_question_discarded log0 pre trailing :
  Forall (fun l => Regex.answer_pattern l = None) trailing ->
  let st := scan_lines (scan_init log0) (pre ++ trailing) in
  fst (parse_lines log0 (pre ++ trailing)) = fst (parse_lines log0 pre)
  /\ (current_question_text st <> [] \/ current_options st <> [] ->
      In Warning_incomplete_question (snd (parse_lines log0 (pre ++ trailing))))
  /\ (Exists (fun l => l <> []) trailing ->
      current_question_text st <> [] \/ current_options st <> []).
Proof.
  intros Hno st. split; [| split].
  - rewrite !parse_lines_questions, scan_lines_app.
    apply scan_lines_no_answer. exact Hno.
  - intros H. unfold parse_lines, scan_finish. fold st. simpl.
    assert (E : negb (is_empty (current_question_text st))
                || negb (PyDict.is_empty (current_options st)) = true).
    { apply orb_true_iff. destruct H as [H | H]; [left | right].
      - apply negb_true_iff, is_empty_false. exact H.
      - destruct (current_options st); [congruence | reflexivity]. }
    rewrite E. rewrite !in_app_iff. left. right. left. reflexivity.
  - unfold st. rewrite scan_lines_app.
    generalize (scan_lines (scan_init log0) pre). clear st.
    induction trailing as [|l trailing IH]; intros s Hex.
    + inversion Hex.
    + inversion Hno as [|? ? Hl Hno']; subst. simpl.
      assert (Hkeep : forall s' ls,
                Forall (fun l => Regex.answer_pattern l = None) ls ->
                current_question_text s' <> [] \/ current_options s' <> [] ->
                current_question_text (scan_lines s' ls) <> []
                \/ current_options (scan_lines s' ls) <> []).
      { intros s' ls. revert s'. induction ls as [|x ls IHls]; intros s' Hls Hs'.
        - exact Hs'.
        - inversion Hls as [|? ? Hx Hls']; subst. simpl. apply IHls; [exact Hls' |].
          unfold scan_line. rewrite Hx.
          destruct (is_empty x); [exact Hs' |].
          destruct (Regex.option_pattern x) as [[k v]|].
          + right. simpl. destruct (current_options s') as [|[k' v'] d]; simpl.
            * discriminate.
            * destruct (str_eqb k k'); discriminate.
          + destruct (is_empty (current_question_text s')) eqn:Ee; simpl.
            * destruct Hs' as [Hs' | Hs']; [| right; exact Hs'].
              apply is_empty_false in Hs'. congruence.
            * left. apply is_empty_false in Ee.
              destruct (current_question_text s'); [congruence | discriminate]. }
      inversion Hex as [? ? Hne | ? ? Hex']; subst.
      * apply Hkeep; [exact Hno' |].
        unfold scan_line. rewrite Hl. apply is_empty_false in Hne. rewrite Hne.
        destruct (Regex.option_pattern l) as [[k v]|].
        -- right. simpl. destruct (current_options s) as [|[k' v'] d]; simpl.
           ++ discriminate.
           ++ destruct (str_eqb k k'); discriminate.
        -- apply is_empty_false in Hne.
           destruct (is_empty (current_question_text s)) eqn:Ee; simpl.
           ++ left. exact Hne.
           ++ left. destruct (current_question_text s); [discriminate | discriminate].
      * apply IH; assumption.
Qed.

(** C10.  Every option value of every question [parse_file] returns is
    a string that is not empty: a line is recorded as an option only when
    it is one letter of [A]-[Z], a closing parenthesis or a full stop, at
    least one blank and a text that is not empty; a line made of the letter
    and the delimiter alone, such as [A)], goes to the question text. *)
Theorem recorded_option_values_nonempty :
  (forall env qs q k v,
      fst (parse_file env) = Ok qs -> In q qs -> In (k, v) (options q) ->
      v <> [])
  /\ (forall line k v,
      Regex.option_pattern line = Some (k, v) ->
      exists c d ws,
        k = [c] /\ Regex.is_AZ c = true /\ (d = 41%N \/ d = 46%N)
        /\ ws <> [] /\ forallb isspace ws = true
        /\ v <> [] /\ ~ In newline v
        /\ (line = c :: d :: ws ++ v \/ line = c :: d :: ws ++ v ++ [newline]))
  /\ (forall st c d,
      scan_line st [c; d] =
      mkScan (questions st)
             (if is_empty (current_question_text st) then [c; d]
              else current_question_text st ++ py " " ++ [c; d])
             (current_options st) (S (line_number st)) (log st))
  /\ classify (py "A)") = TextLine.
Proof.
  split; [| split; [| split]].
  - intros env qs q k v Hp Hq Hkv.
    destruct (parse_file_Ok env qs Hp) as (log0 & raw & ->).
    rewrite parse_lines_questions in Hq.
    destruct (scan_lines_questions_invariant
                (fun q => Forall (fun kv => snd kv <> []) (options q)))
      with (lines := map strip raw) (st := scan_init log0) as [HQ _].
    + intros t o a q' Hn _ Ho.
      apply Question_new_ok in Hn as [-> _]. exact Ho.
    + constructor.
    + constructor.
    + rewrite Forall_forall in HQ. specialize (HQ q Hq).
      rewrite Forall_forall in HQ. exact (HQ (k, v) Hkv).
  - exact RegexFacts.option_pattern_spec.
  - intros st c d. apply scan_line_text. apply classify_text.
    split; [discriminate |]. split; [| reflexivity].
    unfold Regex.answer_pattern. RegexFacts.literal (py "ANSWER:"). simpl.
    destruct (Regex.literal_ignorecase 65%N c); [| reflexivity].
    destruct (Regex.literal_ignorecase 78%N d); reflexivity.
  - reflexivity.
Qed.

(* ================================================================== *)
(** * The question record *)
(* ================================================================== *)

(** C6, as the specification words it, fails: the record is not
    immutable, and an assignment after a successful construction leaves a
    record that violates the invariant. *)
Lemma Question_assignment_breaks_invariant :
  ~ (forall t o a q u,
        Question_new t o a = Ok q ->
        Question_valid (Question_setattr q u) = true).
Proof.
  intros H.
  specialize (H (py "Q") [(py "A", py "x")] (py "A") _
                (SetAnswer (py "B")) eq_refl).
  vm_compute in H. discriminate.
Qed.

(** C6, amended.  Construction is the gate: it succeeds exactly on a text
    that is not blank, options that are not empty and an answer that is a
    key of the options, and raises [ValueError] otherwise; a constructed
    record has these properties, and so has every record in the list
    [parse_file] returns. *)
Theorem Question_validated_at_construction :
  (forall t o a,
      (Question_valid (mkQuestion t o a) = true ->
       Question_new t o a = Ok (mkQuestion t o a))
      /\ (Question_valid (mkQuestion t o a) = false ->
          exists why, Question_new t o a = Raise (ValueError (Some why))))
  /\ (forall t o a q,
      Question_new t o a = Ok q ->
      q = mkQuestion t o a
      /\ strip (text q) <> [] /\ text q <> [] /\ options q <> []
      /\ In (answer q) (PyDict.keys (options q)))
  /\ (forall env qs,
      fst (parse_file env) = Ok qs ->
      Forall (fun q => Question_valid q = true) qs).
Proof.
  split; [| split].
  - intros t o a. split.
    + apply Question_new_valid.
    + apply Question_new_invalid.
  - intros t o a q H. apply Question_new_ok in H as [-> Hv].
    split; [reflexivity |]. unfold Question_valid in Hv. simpl in *.
    apply andb_true_iff in Hv as [Hv Hm].
    apply andb_true_iff in Hv as [Ht Ho].
    apply negb_true_iff in Ht, Ho. apply is_empty_false in Ht.
    repeat split.
    + exact Ht.
    + intros ->. apply Ht. reflexivity.
    + intros ->. discriminate.
    + apply DictFacts.mem_In. exact Hm.
  - intros env qs Hp.
    destruct (parse_file_Ok env qs Hp) as (log0 & raw & ->).
    rewrite parse_lines_questions.
    destruct (scan_lines_questions_invariant
                (fun q => Question_valid q = true))
      with (lines := map strip raw) (st := scan_init log0) as [HQ _].
    + intros t o a q Hn _ _. apply Question_new_ok in Hn as [_ Hv]. exact Hv.
    + constructor.
    + constructor.
    + exact HQ.
Qed.

(** C7.  [parse_file] raises [FileNotFoundError] when the path does not
    exist; when the UTF-8 read fails to decode it logs the failure and
    reads again as latin-1, and raises [ValueError] when that read fails
    too; when either read gives the lines, it returns the questions scanned
    from them and raises nothing. *)
Theorem parse_file_errors :
  (forall env,
      path_exists env = false ->
      parse_file env = (Raise FileNotFoundError, []))
  /\ (forall env,
      path_exists env = true -> read_utf8 env = ReadDecodeError ->
      (forall raw, read_latin1 env <> ReadLines raw) ->
      parse_file env
      = (Raise (ValueError None), [Info_parsing; Error_encoding_try_latin1]))
  /\ (forall env raw,
      path_exists env = true -> read_utf8 env = ReadLines raw ->
      fst (parse_file env)
      = Ok (fst (parse_lines [Info_parsing] (map strip raw))))
  /\ (forall env raw,
      path_exists env = true -> read_utf8 env = ReadDecodeError ->
      read_latin1 env = ReadLines raw ->
      fst (parse_file env)
      = Ok (fst (parse_lines [Info_parsing; Error_encoding_try_latin1]
                             (map strip raw)))).
Proof.
  split; [| split; [| split]].
  - intros env H. unfold parse_file. rewrite H. reflexivity.
  - intros env He Hu Hl. unfold parse_file. rewrite He, Hu. simpl.
    destruct (read_latin1 env) as [raw| |e]; try reflexivity.
    exfalso. exact (Hl raw eq_refl).
  - exact parse_file_utf8.
  - exact parse_file_latin1.
Qed.

(* ================================================================== *)
(** * The title of an item *)
(* ================================================================== *)

Lemma title_unsafe_spec c :
  title_unsafe c = false <-> c <> 60%N /\ c <> 62%N /\ c <> 38%N /\ c <> 34%N.
Proof.
  unfold title_unsafe. rewrite !orb_false_iff, !char_eqb_neq. tauto.
Qed.

Lemma In_firstn {A} n (l : list A) x : In x (firstn n l) -> In x l.
Proof.
  intros H. rewrite <- (firstn_skipn n l). apply in_or_app. left. exact H.
Qed.

Lemma title_placeholder_safe c :
  In c title_placeholder -> title_unsafe c = false.
Proof.
  RegexFacts.literal title_placeholder. simpl.
  intros H. repeat (destruct H as [<- | H]; [reflexivity |]). destruct H.
Qed.

(** C8.  [_safe_title] keeps the characters of the text other than [<],
    [>], [&] and the double quote, in their order; when more than
    [max_length] characters are left it keeps the first [max_length] of
    them and appends three full stops; when none is left it returns the
    placeholder.  None of the four characters occurs in the result. *)
Theorem safe_title_spec text max_length :
  (0 <= max_length)%Z ->
  let kept := filter (fun c => negb (title_unsafe c)) text in
  (forall c, In c kept <->
             In c text /\ c <> 60%N /\ c <> 62%N /\ c <> 38%N /\ c <> 34%N)
  /\ ((Z.of_nat (length kept) > max_length)%Z ->
      _safe_title text max_length
      = firstn (Z.to_nat max_length) kept ++ py "..."
      /\ Z.of_nat (length (_safe_title text max_length))
         = (max_length + 3)%Z)
  /\ ((Z.of_nat (length kept) <= max_length)%Z -> kept <> [] ->
      _safe_title text max_length = kept)
  /\ (kept = [] -> _safe_title text max_length = title_placeholder)
  /\ (forall c, In c (_safe_title text max_length) -> title_unsafe c = false).
Proof.
  intros Hmax kept.
  assert (Hkept : forall c, In c kept -> title_unsafe c = false).
  { intros c H. apply filter_In in H as [_ H]. apply negb_true_iff. exact H. }
  assert (Hslice : slice_to kept max_length = firstn (Z.to_nat max_length) kept).
  { unfold slice_to. destruct (Z.leb_spec 0 max_length); [reflexivity | lia]. }
  assert (Hlong : (Z.of_nat (length kept) > max_length)%Z ->
                  _safe_title text max_length
                  = firstn (Z.to_nat max_length) kept ++ py "...").
  { intros H. unfold _safe_title. fold kept.
    destruct (Z.gtb_spec (Z.of_nat (length kept)) max_length); [| lia].
    rewrite Hslice.
    destruct (firstn (Z.to_nat max_length) kept); reflexivity. }
  assert (Hshort : (Z.of_nat (length kept) <= max_length)%Z ->
                   _safe_title text max_length
                   = if is_empty kept then title_placeholder else kept).
  { intros H. unfold _safe_title. fold kept.
    destruct (Z.gtb_spec (Z.of_nat (length kept)) max_length); [lia |].
    reflexivity. }
  split; [| split; [| split; [| split]]].
  - intros c. unfold kept. rewrite filter_In, negb_true_iff, title_unsafe_spec.
    tauto.
  - intros H. rewrite (Hlong H). split; [reflexivity |].
    rewrite length_app, firstn_length_le by lia. simpl. lia.
  - intros H Hne. rewrite (Hshort H).
    apply is_empty_false in Hne. rewrite Hne. reflexivity.
  - intros H. rewrite Hshort by (rewrite H; simpl; lia). rewrite H. reflexivity.
  - intros c.
    destruct (Z.gtb_spec (Z.of_nat (length kept)) max_length) as [Hl | Hl].
    + rewrite Hlong by lia. rewrite in_app_iff. intros [H | H].
      * apply Hkept. exact (In_firstn _ _ _ H).
      * simpl in H. repeat (destruct H as [<- | H]; [reflexivity |]).
        destruct H.
    + rewrite (Hshort Hl). destruct (is_empty kept).
      * apply title_placeholder_safe.
      * apply Hkept.
Qed.

(* ================================================================== *)
(** * The parser and the title on examples *)
(* ================================================================== *)

(** C1 on the scenario of the specification. *)
Lemma parse_file_single_block_example :
  exists q,
    fst (parse_file example_env) = Ok [q]
    /\ answer q = Regex.upper (py "b")
    /\ PyDict.len (options q) = length [py "A) x"; py "B) y"]
    /\ PyDict.keys (options q) = [py "A"; py "B"].
Proof.
  apply (parse_file_single_block example_env example_raw
           [py "Q?"] [py "A) x"; py "B) y"] [py "A"; py "B"]
           (py "answer: b") (py "b")).
  - reflexivity.
  - reflexivity.
  - reflexivity.
  - discriminate.
  - repeat constructor.
  - repeat (constructor; [eexists; reflexivity |]). constructor.
  - repeat constructor; simpl; intuition discriminate.
  - reflexivity.
  - simpl. right. left. reflexivity.
Defined.

(** C4 on a block that answers [C] with options [A] only, between two
    good blocks. *)
Lemma bad_answer_block_dropped_example :
  let st_bad :=
    scan_lines (scan_init [])
      (good_block ++ [py "Q2?"; py "A) x"] ++ [py "ANSWER: C"]) in
  questions st_bad = fst (parse_lines [] good_block)
  /\ current_question_text st_bad = []
  /\ current_options st_bad = []
  /\ (exists n why, last (log st_bad) Info_parsing
                    = Error_in_question n (ValueError (Some why)))
  /\ fst (parse_lines []
            (good_block ++ [py "Q2?"; py "A) x"]
                        ++ py "ANSWER: C" :: good_block))
     = fst (parse_lines [] good_block) ++ fst (parse_lines [] good_block).
Proof.
  apply (bad_answer_block_dropped [] [] good_block
           [py "Q2?"; py "A) x"] (py "ANSWER: C") (py "C") good_block).
  - reflexivity.
  - reflexivity.
  - repeat constructor.
  - vm_compute. discriminate.
  - vm_compute. discriminate.
  - reflexivity.
  - reflexivity.
Defined.

(** C5 on an ANSWER line that opens the input. *)
Lemma answer_without_question_example :
  current_question_text (scan_line (scan_init []) (py "ANSWER: A"))
  = current_question_text (scan_init [])
  /\ current_options (scan_line (scan_init []) (py "ANSWER: A"))
     = current_options (scan_init [])
  /\ questions (scan_line (scan_init []) (py "ANSWER: A"))
     = questions (scan_init [])
  /\ (log (scan_line (scan_init []) (py "ANSWER: A"))
      = log (scan_init [])
        ++ [Warning_answer_without_question (S (line_number (scan_init [])))]
      \/ log (scan_line (scan_init []) (py "ANSWER: A"))
         = log (scan_init [])
           ++ [Warning_answer_without_options (S (line_number (scan_init [])))])
  /\ scan_lines (scan_init []) (py "ANSWER: A" :: good_block)
     = scan_lines (scan_line (scan_init []) (py "ANSWER: A")) good_block.
Proof.
  apply (answer_without_question_or_options_discarded
           (scan_init []) (py "ANSWER: A") (py "A") good_block).
  - reflexivity.
  - left. reflexivity.
Defined.

(** C9 on a question and an option left open after a good block. *)
Lemma trailing_partial_question_example :
  let st := scan_lines (scan_init []) (good_block ++ [py "Q2?"; py "A) x"]) in
  fst (parse_lines [] (good_block ++ [py "Q2?"; py "A) x"]))
  = fst (parse_lines [] good_block)
  /\ (current_question_text st <> [] \/ current_options st <> [] ->
      In Warning_incomplete_question
         (snd (parse_lines [] (good_block ++ [py "Q2?"; py "A) x"]))))
  /\ (Exists (fun l => l <> []) [py "Q2?"; py "A) x"] ->
      current_question_text st <> [] \/ current_options st <> []).
Proof.
  apply (trailing_partial_question_discarded [] good_block
           [py "Q2?"; py "A) x"]).
  repeat constructor.
Defined.

(** C8 on a text of five kept characters and a maximum of three. *)
Lemma safe_title_example :
  let kept := filter (fun c => negb (title_unsafe c)) (py "a<b>&cd") in
  (forall c, In c kept <->
             In c (py "a<b>&cd")
             /\ c <> 60%N /\ c <> 62%N /\ c <> 38%N /\ c <> 34%N)
  /\ ((Z.of_nat (length kept) > 3)%Z ->
      _safe_title (py "a<b>&cd") 3 = firstn (Z.to_nat 3) kept ++ py "..."
      /\ Z.of_nat (length (_safe_title (py "a<b>&cd") 3)) = (3 + 3)%Z)
  /\ ((Z.of_nat (length kept) <= 3)%Z -> kept <> [] ->
      _safe_title (py "a<b>&cd") 3 = kept)
  /\ (kept = [] -> _safe_title (py "a<b>&cd") 3 = title_placeholder)
  /\ (forall c, In c (_safe_title (py "a<b>&cd") 3) -> title_unsafe c = false).
Proof.
  apply (safe_title_spec (py "a<b>&cd") 3). lia.
Defined.

(* ================================================================== *)
(** * The item document *)
(* ================================================================== *)

Section Generator.

Context {rt : Runtime}.

Lemma forallb_false_In {A} (f : A -> bool) l x :
  In x l -> f x = false -> forallb f l = false.
Proof.
  intros Hin Hx. destruct (forallb f l) eqn:E; [| reflexivity].
  rewrite forallb_forall in E. rewrite (E x Hin) in Hx. discriminate.
Qed.

(** The characters of an element's text that are not escaped, and the
    characters of its children's serialisations, are characters of its
    serialisation. *)
Lemma tostring_text tag attrib t children c :
  In c t -> xml_char c = false ->
  In c (tostring (Elem tag attrib (Some t) children)).
Proof.
  intros Hin Hc. simpl. destruct t as [|x t]; [destruct Hin |].
  cbv iota. simpl orb. cbv iota.
  right. apply in_or_app. right. right. apply in_or_app. left.
  unfold escape_cdata. apply in_flat_map. exists c. split; [exact Hin |].
  unfold escape_cdata_char.
  destruct (char_eqb c 38%N) eqn:E1;
    [apply char_eqb_eq in E1; subst; discriminate |].
  destruct (char_eqb c 60%N) eqn:E2;
    [apply char_eqb_eq in E2; subst; discriminate |].
  destruct (char_eqb c 62%N) eqn:E3;
    [apply char_eqb_eq in E3; subst; discriminate |].
  left. reflexivity.
Qed.

Lemma tostring_child tag attrib t children e c :
  In e children -> In c (tostring e) ->
  In c (tostring (Elem tag attrib t children)).
Proof.
  intros He Hc. destruct children as [|x children]; [destruct He |].
  cbn [tostring]. rewrite orb_true_r.
  apply in_or_app. right. apply in_or_app. right.
  apply in_or_app. right. apply in_or_app. left.
  apply in_flat_map. exists e. auto.
Qed.

(** The question text reaches the serialised item unchanged but for the
    three escaped characters. *)
Lemma item_tree_carries_text q item_id option_ids c :
  In c (text q) -> xml_char c = false ->
  In c (tostring (item_tree q item_id option_ids)).
Proof.
  intros Hin Hc. unfold item_tree.
  eapply tostring_child; [right; right; left; reflexivity |].
  eapply tostring_child; [left; reflexivity |].
  eapply tostring_child; [left; reflexivity |].
  apply tostring_text; assumption.
Qed.

Lemma make_option_ids_ok letters : forall ids w,
  exists ids',
    make_option_ids letters ids w
    = (Ok ids', mkWorld (uuid_calls w + length letters) (temp_dir w)
                        (archives w)).
Proof.
  induction letters as [|k letters IH]; intros ids w; simpl.
  - exists ids. unfold ret. rewrite Nat.add_0_r. destruct w; reflexivity.
  - unfold bind, uuid4.
    destruct (IH (PyDict.set k (choice_id k (uuid4_hex (uuid_calls w))) ids)
                 (mkWorld (S (uuid_calls w)) (temp_dir w) (archives w)))
      as [ids' E].
    exists ids'. rewrite E. simpl. rewrite Nat.add_succ_r. reflexivity.
Qed.

(** What [generate_item_xml] does: the identifiers are drawn, the tree is
    serialised and handed to minidom. *)
Lemma generate_item_xml_unfold q item_id w :
  exists option_ids,
    generate_item_xml q item_id w
    = (minidom_pretty (tostring (item_tree q item_id option_ids)),
       mkWorld (uuid_calls w + length (PyDict.keys (options q)))
               (temp_dir w) (archives w)).
Proof.
  unfold generate_item_xml, bind, lift.
  destruct (make_option_ids_ok (PyDict.keys (options q)) PyDict.empty w)
    as [ids E].
  exists ids. rewrite E. reflexivity.
Qed.

(** A character outside the [Char] production in the question text makes
    [generate_item_xml] raise. *)
Lemma generate_item_xml_raises q item_id w c :
  In c (text q) -> xml_char c = false ->
  raises (fst (generate_item_xml q item_id w)) = true.
Proof.
  intros Hin Hc.
  destruct (generate_item_xml_unfold q item_id w) as [ids ->]. simpl.
  apply expat_rejects.
  apply (forallb_false_In xml_char _ c); [| exact Hc].
  apply item_tree_carries_text; assumption.
Qed.

End Generator.

(** C3, where the code departs from it: the record is valid - [parse_file]
    returns it for a three-line input - and rendering it raises instead of
    returning a document, whatever the item identifier and the random
    identifiers. *)
Theorem generate_item_xml_control_character :
  forall (rt : Runtime) item_id w,
    Question_new (py "Q" ++ [1%N]) [(py "A", py "x")] (py "A")
    = Ok control_char_question
    /\ fst (parse_file control_char_env) = Ok [control_char_question]
    /\ raises (fst (generate_item_xml control_char_question item_id w)) = true.
Proof.
  intros rt item_id w. split; [reflexivity |]. split; [reflexivity |].
  apply (generate_item_xml_raises control_char_question item_id w 1%N).
  - simpl. right. left. reflexivity.
  - reflexivity.
Qed.

(* ================================================================== *)
(** * File names *)
(* ================================================================== *)

Lemma uint_of_digits_of_uint u : uint_of_digits (digits_of_uint u) = Some u.
Proof. induction u; simpl; try rewrite IHu; reflexivity. Qed.

Lemma digits_of_uint_digits u : forallb is_digit (digits_of_uint u) = true.
Proof. induction u; simpl; try rewrite IHu; reflexivity. Qed.

Lemma uint_of_zeros k u :
  uint_of_digits (repeat 48%N k ++ digits_of_uint u)
  = Some (Nat.iter k Decimal.D0 u).
Proof.
  induction k as [|k IH]; simpl.
  - apply uint_of_digits_of_uint.
  - rewrite IH. reflexivity.
Qed.

Lemma of_uint_zeros k u : Nat.of_uint (Nat.iter k Decimal.D0 u) = Nat.of_uint u.
Proof. induction k as [|k IH]; simpl; [reflexivity | exact IH]. Qed.

(** The index can be read back from its formatting: leading zeros do not
    change the number. *)
Lemma int_of_format_03d n : int_of_digits (format_03d n) = Some n.
Proof.
  unfold int_of_digits, format_03d. rewrite uint_of_zeros. simpl.
  rewrite of_uint_zeros, DecimalNat.Unsigned.of_to. reflexivity.
Qed.

Lemma format_03d_inj i j : format_03d i = format_03d j -> i = j.
Proof.
  intros H. apply (f_equal int_of_digits) in H.
  rewrite !int_of_format_03d in H. congruence.
Qed.

Lemma format_03d_digits n : forallb is_digit (format_03d n) = true.
Proof.
  unfold format_03d. rewrite forallb_app, digits_of_uint_digits, andb_true_r.
  induction (3 - length (digits_of_uint (Nat.to_uint n))) as [|k IH];
    [reflexivity | exact IH].
Qed.

Lemma format_03d_min_width n : 3 <= length (format_03d n).
Proof.
  unfold format_03d. cbv zeta. rewrite length_app, repeat_length.
  unfold pystr, char. lia.
Qed.

(** Exactly three characters up to 999, checked index by index. *)
Lemma format_03d_three_digits n : n <= 999 -> length (format_03d n) = 3.
Proof.
  intros H.
  assert (E : forallb (fun i => length (format_03d i) =? 3) (seq 0 1000) = true)
    by (vm_compute; reflexivity).
  rewrite forallb_forall in E. apply Nat.eqb_eq. apply E.
  apply in_seq. lia.
Qed.

Lemma digits_prefix_unique d1 : forall d2 r1 r2,
  forallb is_digit d1 = true -> forallb is_digit d2 = true ->
  d1 ++ 95%N :: r1 = d2 ++ 95%N :: r2 -> d1 = d2.
Proof.
  induction d1 as [|x d1 IH]; intros [|y d2] r1 r2 H1 H2 E; simpl in *.
  - reflexivity.
  - inversion E; subst. discriminate.
  - inversion E; subst. discriminate.
  - inversion E; subst.
    apply andb_true_iff in H1 as [_ H1]. apply andb_true_iff in H2 as [_ H2].
    f_equal. exact (IH d2 r1 r2 H1 H2 H3).
Qed.

(** Two question files with different indices have different names,
    whatever their item identifiers. *)
Lemma question_filename_inj i j a b :
  question_filename i a = question_filename j b -> i = j.
Proof.
  unfold question_filename. intros H. apply app_inv_head in H.
  apply format_03d_inj.
  apply (digits_prefix_unique _ _ (a ++ py ".xml") (b ++ py ".xml"));
    auto using format_03d_digits.
Qed.

Lemma question_filename_not_manifest i a :
  question_filename i a <> manifest_filename.
Proof. unfold question_filename. simpl. discriminate. Qed.

Lemma question_filenames_length item_ids : forall index,
  length (question_filenames index item_ids) = length item_ids.
Proof. induction item_ids; intros; simpl; auto. Qed.

Lemma question_filenames_nth item_ids : forall index i item_id,
  nth_error item_ids i = Some item_id ->
  nth_error (question_filenames index item_ids) i
  = Some (question_filename (index + i) item_id).
Proof.
  induction item_ids as [|x item_ids IH]; intros index [|i] item_id H;
    simpl in *; try discriminate.
  - inversion H. rewrite Nat.add_0_r. reflexivity.
  - rewrite (IH (S index) i item_id H). f_equal. f_equal. lia.
Qed.

Lemma question_filenames_In item_ids : forall index name,
  In name (question_filenames index item_ids) ->
  exists i item_id, index <= i /\ name = question_filename i item_id.
Proof.
  induction item_ids as [|x item_ids IH]; intros index name H; simpl in H.
  - destruct H.
  - destruct H as [<- | H].
    + exists index, x. auto.
    + destruct (IH _ _ H) as (i & id & Hi & ->). exists i, id. split; [lia | auto].
Qed.

Lemma question_filenames_NoDup item_ids : forall index,
  NoDup (question_filenames index item_ids).
Proof.
  induction item_ids as [|x item_ids IH]; intros index; simpl; constructor.
  - intros H. apply question_filenames_In in H as (i & id & Hi & E).
    apply question_filename_inj in E. lia.
  - apply IH.
Qed.

Lemma question_filenames_app a b : forall index,
  question_filenames index (a ++ b)
  = question_filenames index a ++ question_filenames (index + length a) b.
Proof.
  induction a as [|x a IH]; intros index; simpl.
  - rewrite Nat.add_0_r. reflexivity.
  - rewrite IH. do 3 f_equal. lia.
Qed.

(* ================================================================== *)
(** * The manifest and the package *)
(* ================================================================== *)

Lemma manifest_resources_tree hex resources :
  manifest_resources (manifest_tree hex resources)
  = map resource_element resources.
Proof.
  unfold manifest_resources, manifest_tree, findall. simpl.
  rewrite app_nil_r.
  induction resources as [|[res_id filename] resources IH]; simpl;
    [reflexivity | rewrite IH; reflexivity].
Qed.

(** One resource per pair, in the order of the pairs, each with the file
    name as its [href] and as the [href] of its one [file] child. *)
Lemma manifest_lists_resources hex resources :
  map resource_href (manifest_resources (manifest_tree hex resources))
  = map (fun r => Some (snd r)) resources
  /\ map resource_file_hrefs (manifest_resources (manifest_tree hex resources))
     = map (fun r => [Some (snd r)]) resources.
Proof.
  rewrite manifest_resources_tree, !map_map. split;
    apply map_ext; intros [res_id filename]; reflexivity.
Qed.

Lemma map_fst_combine {A B} (l : list A) : forall (l' : list B),
  length l = length l' -> map fst (combine l l') = l.
Proof.
  induction l as [|x l IH]; intros [|y l'] H; simpl in *; try discriminate;
    [reflexivity |].
  f_equal. apply IH. lia.
Qed.

Lemma map_snd_combine {A B} (l : list A) : forall (l' : list B),
  length l = length l' -> map snd (combine l l') = l'.
Proof.
  induction l as [|x l IH]; intros [|y l'] H; simpl in *; try discriminate;
    [reflexivity |].
  f_equal. apply IH. lia.
Qed.

(** Writing files with names that are new and pairwise different adds
    them to the directory, in the order of the writes. *)
Lemma fold_set_fresh {V} (l : list (pystr * V)) : forall d,
  NoDup (map fst l) ->
  (forall k, In k (map fst l) -> PyDict.mem k d = false) ->
  fold_left (fun d fc => PyDict.set (fst fc) (snd fc) d) l d = d ++ l.
Proof.
  induction l as [|[k v] l IH]; intros d Hnd Hfresh; simpl.
  - rewrite app_nil_r. reflexivity.
  - inversion Hnd as [|? ? Hk Hnd']; subst.
    rewrite IH.
    + rewrite (DictFacts.set_fresh k v d (Hfresh k (or_introl eq_refl))).
      rewrite <- app_assoc. reflexivity.
    + exact Hnd'.
    + intros k' Hin. rewrite DictFacts.mem_set.
      rewrite (Hfresh k' (or_intror Hin)), orb_false_r.
      apply str_eqb_neq. intros ->. exact (Hk Hin).
Qed.

Lemma set_set {V} k (v v' : V) d :
  PyDict.set k v (PyDict.set k v' d) = PyDict.set k v d.
Proof.
  induction d as [|[k' x] d IH]; simpl.
  - rewrite str_eqb_refl. reflexivity.
  - destruct (str_eqb k k') eqn:E; simpl.
    + rewrite str_eqb_refl. reflexivity.
    + rewrite E, IH. reflexivity.
Qed.

Lemma get_In_NoDup {V} k (v : V) d :
  NoDup (PyDict.keys d) -> In (k, v) d -> PyDict.get k d = Some v.
Proof.
  induction d as [|[k' x] d IH]; simpl; intros Hnd Hin; [destruct Hin |].
  inversion Hnd as [|? ? Hk Hnd']; subst.
  destruct Hin as [E | Hin].
  - injection E as -> ->. rewrite str_eqb_refl. reflexivity.
  - destruct (str_eqb k k') eqn:E.
    + apply str_eqb_eq in E. subst k'. exfalso. apply Hk.
      apply in_map_iff. exists (k, v). auto.
    + apply IH; assumption.
Qed.

(** Reading the files of a listing back gives the listing. *)
Lemma listing_contents d (d' : PyDict.dict pystr) :
  NoDup (PyDict.keys d) -> (forall kv, In kv d' -> In kv d) ->
  map (fun k => (k, getitem d k)) (PyDict.keys d') = d'.
Proof.
  intros Hnd. induction d' as [|[k v] d' IH]; intros Hin; [reflexivity |].
  simpl. rewrite IH by (intros kv H; apply Hin; right; exact H).
  unfold getitem.
  rewrite (get_In_NoDup k v d Hnd (Hin (k, v) (or_introl eq_refl))).
  reflexivity.
Qed.

Section Builder.

Context {rt : Runtime}.

Lemma bind_Ok {A B} (m : M A) (k : A -> M B) w b w' :
  bind m k w = (Ok b, w') ->
  exists a w1, m w = (Ok a, w1) /\ k a w1 = (Ok b, w').
Proof.
  unfold bind. destruct (m w) as [[a|e] w1]; [| discriminate].
  intros H. exists a, w1. auto.
Qed.

Lemma staging_Ok req done w u w' :
  staging req done w = (Ok u, w') -> w' = set_staging done w.
Proof.
  unfold staging. destruct (staging_refused req w) as [[e r]|];
    [discriminate |].
  intros H. inversion H. reflexivity.
Qed.

Lemma write_temp_file_Ok filename content w u w' :
  write_temp_file filename content w = (Ok u, w') ->
  exists d, temp_dir w = Some d
            /\ w' = set_staging (Some (PyDict.set filename content d)) w.
Proof.
  unfold write_temp_file. destruct (temp_dir w) as [d|]; [| discriminate].
  intros H. apply staging_Ok in H. eauto.
Qed.

Lemma setup_Ok w u w' :
  _setup_temp_directory w = (Ok u, w') ->
  w' = set_staging (Some PyDict.empty) w.
Proof.
  unfold _setup_temp_directory. intros H.
  apply bind_Ok in H as ([] & w1 & H1 & H2).
  apply staging_Ok in H2. subst w'.
  destruct (temp_dir w).
  - apply staging_Ok in H1. subst w1. reflexivity.
  - inversion H1. reflexivity.
Qed.

Lemma cleanup_Ok w u w' :
  _cleanup_temp_directory w = (Ok u, w') ->
  temp_dir w' = None /\ archives w' = archives w
  /\ uuid_calls w' = uuid_calls w.
Proof.
  unfold _cleanup_temp_directory. destruct (temp_dir w) eqn:E.
  - intros H. apply staging_Ok in H. subst w'. auto.
  - intros H. inversion H; subst w'. auto.
Qed.

Lemma store_archive_outside path members w :
  placement_of path = Outside ->
  store_archive path members w
  = mkWorld (uuid_calls w) (temp_dir w)
            (PyDict.set path members (archives w)).
Proof. unfold store_archive. intros ->. reflexivity. Qed.

Lemma store_archive_inside path member members w :
  placement_of path = Inside member ->
  archives (store_archive path members w) = archives w.
Proof. unfold store_archive. intros ->. reflexivity. Qed.

(** Whatever it holds afterwards, only the archive under [path] is
    touched. *)
Lemma store_archive_frame path members w name :
  name <> path ->
  PyDict.get name (archives (store_archive path members w))
  = PyDict.get name (archives w).
Proof.
  intros Hn. unfold store_archive. destruct (placement_of path); simpl.
  - apply DictFacts.get_set_other. exact Hn.
  - reflexivity.
Qed.

Lemma archive_request_Ok step path members w u w' :
  archive_request step path members w = (Ok u, w') ->
  w' = store_archive path members w.
Proof.
  unfold archive_request.
  destruct (archive_refused step path w) as [[e r]|]; [discriminate |].
  intros H. inversion H. reflexivity.
Qed.

(** The loop over the files, for an archive outside the staging
    directory: the files are added in the order of the listing, each with
    the content it has in the staging directory. *)
Lemma add_members_outside path arcnames : forall members w ms w',
  placement_of path = Outside ->
  add_members path arcnames members w = (Ok ms, w') ->
  temp_dir w' = temp_dir w
  /\ ms = members
          ++ map (fun k => (k, match temp_dir w with
                               | Some d => getitem d k
                               | None => []
                               end)) arcnames
  /\ (forall x base, archives w = PyDict.set path x base ->
                     exists x', archives w' = PyDict.set path x' base).
Proof.
  induction arcnames as [|k arcnames IH]; intros members w ms w' Hp H.
  - simpl in H. unfold ret in H. inversion H; subst.
    rewrite app_nil_r. repeat split; eauto.
  - cbn [add_members] in H.
    apply bind_Ok in H as (content & w1 & Hr & H).
    unfold read_staged in Hr. inversion Hr; subst content w1. clear Hr.
    apply bind_Ok in H as ([] & w2 & Ha & H).
    apply archive_request_Ok in Ha.
    rewrite (store_archive_outside _ _ _ Hp) in Ha. subst w2.
    destruct (IH _ _ _ _ Hp H) as (T & Hm & A).
    cbn [temp_dir uuid_calls archives] in T, Hm, A.
    split; [exact T |].
    split; [rewrite Hm, <- app_assoc; reflexivity |].
    intros x base Hx. apply (A (members ++ [(k, match temp_dir w with
                                                   | Some d => getitem d k
                                                   | None => []
                                                   end)])).
    rewrite Hx. apply set_set.
Qed.

(** For an archive inside the staging directory no archive outside of it
    is touched. *)
Lemma add_members_inside path member arcnames : forall members w ms w',
  placement_of path = Inside member ->
  add_members path arcnames members w = (Ok ms, w') ->
  archives w' = archives w.
Proof.
  induction arcnames as [|k arcnames IH]; intros members w ms w' Hp H.
  - simpl in H. unfold ret in H. inversion H; subst. reflexivity.
  - cbn [add_members] in H.
    apply bind_Ok in H as (content & w1 & Hr & H).
    unfold read_staged in Hr. inversion Hr; subst content w1. clear Hr.
    apply bind_Ok in H as ([] & w2 & Ha & H).
    apply archive_request_Ok in Ha. subst w2.
    rewrite (IH _ _ _ _ Hp H). exact (store_archive_inside _ _ _ _ Hp).
Qed.

Lemma open_archive_Ok path w u w' :
  open_archive path w = (Ok u, w') ->
  w' = store_archive path PyDict.empty w.
Proof.
  unfold open_archive. destruct (open_refused path w); [discriminate |].
  destruct (placement_of path), (temp_dir w); intros H; inversion H;
    reflexivity.
Qed.

(** What [_create_zip_package] has done when it returns. *)
Lemma create_zip_Ok output_filename w out w' :
  _create_zip_package output_filename w = (Ok out, w') ->
  out = archive_name output_filename
  /\ match placement_of out with
     | Outside =>
         temp_dir w' = temp_dir w
         /\ archives w'
            = PyDict.set out
                (match temp_dir w with
                 | Some d => map (fun k => (k, getitem d k))
                                 (PyDict.keys (rglob d))
                 | None => []
                 end)
                (archives w)
     | Inside _ => archives w' = archives w
     end.
Proof.
  unfold _create_zip_package. fold (archive_name output_filename).
  set (name := archive_name output_filename).
  intros H.
  apply bind_Ok in H as ([] & w1 & Ho & H).
  apply open_archive_Ok in Ho.
  apply bind_Ok in H as (arcnames & w2 & Hl & H).
  unfold list_staged in Hl. inversion Hl; subst arcnames w2. clear Hl.
  apply bind_Ok in H as (members & w3 & Hm & H).
  apply bind_Ok in H as ([] & w4 & Hc & H).
  apply archive_request_Ok in Hc. subst w4.
  unfold ret in H. apply pair_equal_spec in H as [Hout Hw'].
  injection Hout as <-. subst w'.
  split; [reflexivity |].
  destruct (placement_of name) as [|member] eqn:Hp.
  - rewrite (store_archive_outside _ _ _ Hp) in Ho.
    rewrite (store_archive_outside _ _ _ Hp).
    destruct (add_members_outside _ _ _ _ _ _ Hp Hm) as (T & Hms & A).
    subst w1. cbn [temp_dir uuid_calls archives] in T, Hms, A.
    destruct (A _ _ eq_refl) as [x' Hx'].
    cbn [temp_dir uuid_calls archives].
    split; [exact T |].
    rewrite Hx', set_set, Hms. f_equal.
    destruct (temp_dir w); reflexivity.
  - rewrite (store_archive_inside _ _ _ _ Hp).
    rewrite (add_members_inside _ _ _ _ _ _ _ Hp Hm). subst w1.
    exact (store_archive_inside _ _ _ _ Hp).
Qed.

(** The loop: one identifier, one file name and one file per question, in
    the order of the questions, each file holding what minidom returned
    for the item document of its question; the archives are not
    touched. *)
Lemma build_items_spec questions : forall index resources w res w',
  build_items index questions resources w = (Ok res, w') ->
  exists item_ids contents,
    length item_ids = length questions
    /\ length contents = length questions
    /\ Forall (fun item_id => exists hex, item_id = py "ITEM_" ++ hex) item_ids
    /\ Forall2 (rendered_as) questions (combine item_ids contents)
    /\ res = resources ++ combine item_ids (question_filenames index item_ids)
    /\ archives w' = archives w
    /\ (forall d, temp_dir w = Some d ->
        temp_dir w'
        = Some (fold_left (fun d fc => PyDict.set (fst fc) (snd fc) d)
                  (combine (question_filenames index item_ids) contents) d)).
Proof.
  induction questions as [|q questions IH]; intros index resources w res w' H.
  - simpl in H. unfold ret in H. inversion H; subst.
    exists [], []. simpl. rewrite app_nil_r. repeat split; auto.
  - cbn [build_items] in H.
    apply bind_Ok in H as (hex & w1 & Hu & H).
    apply bind_Ok in H as (xml & w2 & Hg & H).
    apply bind_Ok in H as ([] & w3 & Hw & H).
    unfold uuid4 in Hu. inversion Hu; subst hex w1. clear Hu.
    set (item_id := py "ITEM_" ++ uuid4_hex (uuid_calls w)) in *.
    destruct (generate_item_xml_unfold q item_id
                (mkWorld (S (uuid_calls w)) (temp_dir w) (archives w)))
      as [ids Eg].
    rewrite Eg in Hg. apply pair_equal_spec in Hg as [Hxml Hw2].
    apply write_temp_file_Ok in Hw as (d0 & Ed & Hw3).
    rewrite <- Hw2 in Ed, Hw3. cbn [temp_dir] in Ed.
    unfold set_staging in Hw3. cbn [uuid_calls archives] in Hw3.
    destruct (IH _ _ _ _ _ H) as (ids' & cs' & L1 & L2 & F & Rd & R & A & T).
    exists (item_id :: ids'), (xml :: cs'). simpl.
    split; [congruence |]. split; [congruence |].
    split; [constructor; [eexists; reflexivity | exact F] |].
    split; [constructor; [exists ids; exact Hxml | exact Rd] |].
    split; [rewrite R, <- app_assoc; reflexivity |].
    split; [rewrite A, Hw3; reflexivity |].
    intros d Hd. rewrite Hd in Ed. inversion Ed; subst d0. apply T.
    rewrite Hw3. reflexivity.
Qed.

(** The files staged for a package have pairwise different names. *)
Lemma staged_names_NoDup item_ids (contents : list pystr) mc :
  length item_ids = length contents ->
  NoDup (PyDict.keys (combine (question_filenames 1 item_ids) contents
                      ++ [(manifest_filename, mc)])).
Proof.
  intros L. unfold PyDict.keys.
  rewrite map_app, map_fst_combine
    by (rewrite question_filenames_length; exact L).
  apply NoDup_app.
  - apply question_filenames_NoDup.
  - repeat constructor. intros [].
  - intros name Hin [<- | []].
    apply question_filenames_In in Hin as (i & id & _ & E).
    symmetry in E. exact (question_filename_not_manifest _ _ E).
Qed.

(** What a run of [build_package] that returns has done: the files are
    staged, the archive holds them in the order the file system lists
    them, the staging directory is gone.  An archive inside the staging
    directory is gone with it. *)
Lemma build_package_spec questions output_filename w out w' :
  build_package questions output_filename w = (Ok out, w') ->
  exists item_ids contents manifest_hex manifest_content,
    let filenames := question_filenames 1 item_ids in
    length item_ids = length questions
    /\ length contents = length questions
    /\ Forall (fun item_id => exists hex, item_id = py "ITEM_" ++ hex) item_ids
    /\ Forall2 rendered_as questions (combine item_ids contents)
    /\ minidom_pretty
         (tostring (manifest_tree manifest_hex (combine item_ids filenames)))
       = Ok manifest_content
    /\ out = archive_name output_filename
    /\ temp_dir w' = None
    /\ match placement_of out with
       | Outside =>
           archives w'
           = PyDict.set out
               (rglob (combine filenames contents
                       ++ [(manifest_filename, manifest_content)]))
               (archives w)
       | Inside _ => archives w' = archives w
       end.
Proof.
  unfold build_package. intros H.
  apply bind_Ok in H as ([] & w0 & Hs & H).
  apply setup_Ok in Hs. subst w0.
  unfold try_finally in H.
  match type of H with
  | (let (r, w') := ?body ?w in _) = _ => destruct (body w) as [r w4] eqn:B
  end.
  destruct (_cleanup_temp_directory w4) as [[[]|e] w5] eqn:C;
    [| discriminate].
  inversion H; subst r w5. clear H.
  apply cleanup_Ok in C as (Ct & Ca & _).
  apply bind_Ok in B as (resources & w1 & Hb & B).
  apply bind_Ok in B as (manifest_content & w2 & Hm & B).
  apply bind_Ok in B as ([] & w3 & Hw & B).
  destruct (build_items_spec _ _ _ _ _ _ Hb)
    as (ids & cs & L1 & L2 & F & Rd & R & A & T).
  simpl in R, A. specialize (T PyDict.empty eq_refl).
  unfold generate_manifest in Hm.
  apply bind_Ok in Hm as (hex & w1' & Hu & Hm).
  unfold uuid4 in Hu. inversion Hu; subst hex w1'. clear Hu.
  unfold lift in Hm. apply pair_equal_spec in Hm as [Hp Hw2].
  apply write_temp_file_Ok in Hw as (d & Ed & Hw3).
  rewrite <- Hw2 in Ed, Hw3. cbn [temp_dir] in Ed.
  unfold set_staging in Hw3. cbn [uuid_calls archives] in Hw3.
  rewrite T in Ed. inversion Ed; subst d. clear Ed.
  assert (LI : length ids = length cs) by (unfold pystr, char in *; lia).
  assert (LL : length (question_filenames 1 ids) = length cs).
  { rewrite question_filenames_length. exact LI. }
  assert (Hstaged :
            PyDict.set manifest_filename manifest_content
              (fold_left (fun d fc => PyDict.set (fst fc) (snd fc) d)
                 (combine (question_filenames 1 ids) cs) PyDict.empty)
            = combine (question_filenames 1 ids) cs
              ++ [(manifest_filename, manifest_content)]).
  { rewrite fold_set_fresh.
    - simpl. apply DictFacts.set_fresh.
      destruct (PyDict.mem manifest_filename
                  (combine (question_filenames 1 ids) cs)) eqn:E;
        [| reflexivity].
      apply DictFacts.mem_In in E. unfold PyDict.keys in E.
      rewrite (map_fst_combine _ _ LL) in E.
      apply question_filenames_In in E as (i & id & _ & E).
      symmetry in E. destruct (question_filename_not_manifest _ _ E).
    - rewrite (map_fst_combine _ _ LL). apply question_filenames_NoDup.
    - reflexivity. }
  rewrite Hstaged in Hw3.
  destruct (create_zip_Ok _ _ _ _ B) as (Ho & Hz).
  exists ids, cs, (uuid4_hex (uuid_calls w1)), manifest_content.
  cbv zeta. rewrite R in Hp.
  split; [exact L1 |]. split; [exact L2 |]. split; [exact F |].
  split; [exact Rd |].
  split; [exact Hp |]. split; [exact Ho |]. split; [exact Ct |].
  destruct (placement_of out).
  - destruct Hz as [_ Hz]. rewrite Ca, Hz, Hw3.
    cbn [temp_dir archives]. rewrite A.
    apply (f_equal (fun m => PyDict.set out m (archives w))).
    apply listing_contents.
    + apply staged_names_NoDup. exact LI.
    + intros kv Hin.
      apply (Permutation_in kv (rglob_permutation _)). exact Hin.
  - rewrite Ca, Hz, Hw3. cbn [archives]. exact A.
Qed.

End Builder.

Lemma manifest_not_among_questions index item_ids (contents : list pystr) :
  length item_ids = length contents ->
  PyDict.mem manifest_filename
             (combine (question_filenames index item_ids) contents) = false.
Proof.
  intros L.
  destruct (PyDict.mem manifest_filename
              (combine (question_filenames index item_ids) contents)) eqn:E;
    [| reflexivity].
  apply DictFacts.mem_In in E. unfold PyDict.keys in E.
  rewrite map_fst_combine in E
    by (rewrite question_filenames_length; exact L).
  apply question_filenames_In in E as (i & id & _ & E).
  symmetry in E. destruct (question_filename_not_manifest _ _ E).
Qed.

Lemma of_uint_acc_bound u : forall acc,
  Nat.of_uint_acc u acc < (acc + 1) * 10 ^ length (digits_of_uint u).
Proof.
  assert (Step : forall k acc n m,
            k <= 9 -> m < (k + 10 * acc + 1) * 10 ^ n ->
            m < (acc + 1) * 10 ^ S n).
  { intros k acc n m Hk Hm.
    apply Nat.lt_le_trans with (1 := Hm).
    rewrite Nat.pow_succ_r', Nat.mul_assoc.
    apply Nat.mul_le_mono_r. lia. }
  induction u as [|u IH|u IH|u IH|u IH|u IH|u IH|u IH|u IH|u IH|u IH];
    intros acc; cbn [Nat.of_uint_acc digits_of_uint length];
    [simpl; lia | | | | | | | | | |];
    rewrite Nat.tail_mul_spec.
  - apply (Step 0 acc); [lia |]. apply (IH (10 * acc)).
  - apply (Step 1 acc); [lia |]. apply (IH (S (10 * acc))).
  - apply (Step 2 acc); [lia |]. apply (IH (S (S (10 * acc)))).
  - apply (Step 3 acc); [lia |]. apply (IH (3 + 10 * acc)).
  - apply (Step 4 acc); [lia |]. apply (IH (4 + 10 * acc)).
  - apply (Step 5 acc); [lia |]. apply (IH (5 + 10 * acc)).
  - apply (Step 6 acc); [lia |]. apply (IH (6 + 10 * acc)).
  - apply (Step 7 acc); [lia |]. apply (IH (7 + 10 * acc)).
  - apply (Step 8 acc); [lia |]. apply (IH (8 + 10 * acc)).
  - apply (Step 9 acc); [lia |]. apply (IH (9 + 10 * acc)).
Qed.

(** From 1000 on the index has more than three digits and is written
    without padding. *)
Lemma format_03d_wide n :
  999 < n ->
  format_03d n = digits_of_uint (Nat.to_uint n)
  /\ 3 < length (format_03d n).
Proof.
  intros H.
  assert (L : 3 < length (digits_of_uint (Nat.to_uint n))).
  { pose proof (of_uint_acc_bound (Nat.to_uint n) 0) as B.
    change (Nat.of_uint_acc (Nat.to_uint n) 0)
      with (Nat.of_uint (Nat.to_uint n)) in B.
    rewrite DecimalNat.Unsigned.of_to in B. simpl "+" in B.
    rewrite Nat.mul_1_l in B.
    destruct (Nat.le_gt_cases (length (digits_of_uint (Nat.to_uint n))) 3)
      as [Hle | Hgt]; [| exact Hgt].
    pose proof (Nat.pow_le_mono_r 10 _ 3 ltac:(lia) Hle) as P.
    simpl (10 ^ 3) in P. lia. }
  unfold format_03d. cbv zeta.
  replace (3 - length (digits_of_uint (Nat.to_uint n))) with 0 by lia.
  split; [reflexivity | exact L].
Qed.

Lemma get_permutation {V} (d d' : PyDict.dict V) k :
  NoDup (PyDict.keys d) -> Permutation d' d ->
  PyDict.get k d' = PyDict.get k d.
Proof.
  intros Hnd Hp.
  assert (Hnd' : NoDup (PyDict.keys d')).
  { apply (Permutation_NoDup (l := PyDict.keys d)); [| exact Hnd].
    apply Permutation_map. apply Permutation_sym. exact Hp. }
  destruct (PyDict.get k d) as [v|] eqn:E.
  - apply get_In_NoDup; [exact Hnd' |].
    apply (Permutation_in _ (Permutation_sym Hp)).
    clear -E. induction d as [|[k' x] d IH]; simpl in *; [discriminate |].
    destruct (str_eqb k k') eqn:Ek.
    + apply str_eqb_eq in Ek. subst. injection E as ->. left. reflexivity.
    + right. exact (IH E).
  - destruct (PyDict.get k d') as [v|] eqn:E'; [| reflexivity].
    assert (Hin : In k (PyDict.keys d)).
    { apply (Permutation_in k (Permutation_map fst Hp)).
      apply DictFacts.mem_In. unfold PyDict.mem. rewrite E'. reflexivity. }
    apply DictFacts.mem_In in Hin. unfold PyDict.mem in Hin.
    rewrite E in Hin. discriminate.
Qed.

Lemma get_combine {V} (ks : list pystr) : forall (vs : list V) i k v,
  NoDup ks -> nth_error ks i = Some k -> nth_error vs i = Some v ->
  PyDict.get k (combine ks vs) = Some v.
Proof.
  induction ks as [|k0 ks IH]; intros [|v0 vs] [|i] k v Hnd Hk Hv;
    simpl in *; try discriminate.
  - injection Hk as ->. injection Hv as ->. rewrite str_eqb_refl. reflexivity.
  - inversion Hnd as [|? ? Hn Hnd']; subst.
    destruct (str_eqb k k0) eqn:E.
    + apply str_eqb_eq in E. subst k0. exfalso. apply Hn.
      exact (nth_error_In _ _ Hk).
    + exact (IH vs i k v Hnd' Hk Hv).
Qed.

Lemma get_app_l {V} k (d d' : PyDict.dict V) v :
  PyDict.get k d = Some v -> PyDict.get k (d ++ d') = Some v.
Proof.
  induction d as [|[k' x] d IH]; simpl; [discriminate |].
  destruct (str_eqb k k'); auto.
Qed.

(** C2, amended.  When [build_package] returns - the file system refused
    nothing, every item document and the manifest document passed
    minidom - and the archive lies outside the staging directory, the
    archive holds one file per question, each the rendering of its
    question and named [question_<index>_<item_id>.xml], with the index
    counted from 1 in the order of the questions and filled with zeros to
    at least three digits (exactly three up to 999, more than three, the
    plain digits of the index, from 1000 on), and [imsmanifest.xml], in
    the order the file system lists them; the names are pairwise
    different, so the archive has one entry more than there are questions;
    the manifest written is the rendering of a document that lists one
    resource per question, in the order of the questions, whose [href] and
    whose file [href] are the names of the question files, character for
    character; the staging directory is gone. *)
Theorem build_package_archive (rt : Runtime) questions output_filename w out w' :
  build_package questions output_filename w = (Ok out, w') ->
  placement_of out = Outside ->
  exists item_ids contents manifest_hex manifest_content entries,
    let filenames := question_filenames 1 item_ids in
    let manifest :=
      manifest_tree manifest_hex (combine item_ids filenames) in
    length item_ids = length questions
    /\ length contents = length questions
    /\ Forall2 rendered_as questions (combine item_ids contents)
    /\ PyDict.get out (archives w') = Some entries
    /\ Permutation entries
         (combine filenames contents
          ++ [(manifest_filename, manifest_content)])
    /\ Permutation (PyDict.keys entries) (filenames ++ [manifest_filename])
    /\ NoDup (PyDict.keys entries)
    /\ PyDict.len entries = S (length questions)
    /\ PyDict.get manifest_filename entries = Some manifest_content
    /\ (forall i filename content,
          nth_error filenames i = Some filename ->
          nth_error contents i = Some content ->
          PyDict.get filename entries = Some content)
    /\ minidom_pretty (tostring manifest) = Ok manifest_content
    /\ map resource_href (manifest_resources manifest) = map Some filenames
    /\ map resource_file_hrefs (manifest_resources manifest)
       = map (fun f => [Some f]) filenames
    /\ temp_dir w' = None
    /\ (forall i item_id,
         nth_error item_ids i = Some item_id ->
         nth_error filenames i
         = Some (py "question_" ++ format_03d (S i) ++ py "_" ++ item_id
                    ++ py ".xml")
         /\ int_of_digits (format_03d (S i)) = Some (S i)
         /\ 3 <= length (format_03d (S i))
         /\ (S i <= 999 -> length (format_03d (S i)) = 3)
         /\ (999 < S i ->
             format_03d (S i) = digits_of_uint (Nat.to_uint (S i))
             /\ 3 < length (format_03d (S i)))).
Proof.
  intros H Hout.
  destruct (build_package_spec questions output_filename w out w' H)
    as (ids & cs & hex & mc & L1 & L2 & _ & Rd & Hp & _ & Ht & Ha).
  cbv zeta in *. rewrite Hout in Ha.
  set (filenames := question_filenames 1 ids) in *.
  set (staged := combine filenames cs ++ [(manifest_filename, mc)]) in *.
  assert (LF : length filenames = length ids)
    by apply question_filenames_length.
  assert (LC : length filenames = length cs)
    by (unfold pystr, char in *; lia).
  assert (LI : length ids = length cs)
    by (unfold pystr, char in *; lia).
  pose proof (manifest_not_among_questions 1 ids cs LI) as Hfresh.
  fold filenames in Hfresh.
  pose proof (staged_names_NoDup ids cs mc LI) as Hnd.
  fold filenames in Hnd. fold staged in Hnd.
  pose proof (rglob_permutation staged) as Hperm.
  assert (K : PyDict.keys staged = filenames ++ [manifest_filename]).
  { unfold staged, PyDict.keys. rewrite map_app, (map_fst_combine _ _ LC).
    reflexivity. }
  assert (Hget : forall k, PyDict.get k (rglob staged) = PyDict.get k staged).
  { intros k. apply get_permutation; assumption. }
  exists ids, cs, hex, mc, (rglob staged).
  cbv zeta. fold filenames.
  split; [exact L1 |].
  split; [exact L2 |].
  split; [exact Rd |].
  split; [rewrite Ha; apply DictFacts.get_set_same |].
  split; [exact Hperm |].
  split; [rewrite <- K; apply Permutation_map; exact Hperm |].
  split.
  { apply (Permutation_NoDup (l := PyDict.keys staged)); [| exact Hnd].
    apply Permutation_map. apply Permutation_sym. exact Hperm. }
  split.
  { unfold PyDict.len. rewrite (Permutation_length Hperm).
    unfold staged. rewrite length_app, length_combine. simpl.
    unfold pystr, char in *. lia. }
  split.
  { rewrite Hget. unfold staged.
    rewrite <- (DictFacts.set_fresh manifest_filename mc _ Hfresh).
    apply DictFacts.get_set_same. }
  split.
  { intros i filename content Hf Hc. rewrite Hget. unfold staged.
    apply get_app_l.
    apply (get_combine filenames cs i filename content); try assumption.
    apply question_filenames_NoDup. }
  split; [exact Hp |].
  destruct (manifest_lists_resources hex (combine ids filenames)) as [M1 M2].
  split.
  { rewrite M1. rewrite <- (map_snd_combine ids filenames) at 2
      by (symmetry; exact LF).
    rewrite map_map. reflexivity. }
  split.
  { rewrite M2. rewrite <- (map_snd_combine ids filenames) at 2
      by (symmetry; exact LF).
    rewrite map_map. reflexivity. }
  split; [exact Ht |].
  intros i item_id Hi.
  split; [exact (question_filenames_nth ids 1 i item_id Hi) |].
  split; [apply int_of_format_03d |].
  split; [apply format_03d_min_width |].
  split; [apply format_03d_three_digits | apply format_03d_wide].
Qed.

(** C2, amended, on the two questions of the package test: three entries
    with different names. *)
Lemma build_package_archive_example :
  exists entries,
    PyDict.get (py "test_package.zip") (archives (snd example_build))
    = Some entries
    /\ PyDict.len entries = 3
    /\ NoDup (PyDict.keys entries).
Proof.
  assert (H : @build_package reference_runtime example_questions
                (py "test_package") world0
              = (Ok (py "test_package.zip"), snd example_build))
    by (vm_compute; reflexivity).
  destruct (build_package_archive reference_runtime example_questions
              (py "test_package") world0 _ _ H eq_refl)
    as (ids & cs & hex & mc & entries & _ & _ & _ & G & _ & _ & N & L & _).
  exists entries. split; [exact G |]. split; [exact L | exact N].
Defined.

(** C2, as the specification words it, fails on the index: the package of
    a thousand valid questions is built, and the name of one of its files
    carries the four-digit index [1000]. *)
Lemma build_package_four_digit_index :
  Forall (fun q => Question_valid q = true) thousand_questions
  /\ exists out w' entries item_id,
      @build_package reference_runtime thousand_questions (py "big") world0
      = (Ok out, w')
      /\ @placement_of reference_runtime out = Outside
      /\ PyDict.get out (archives w') = Some entries
      /\ PyDict.len entries = 1001
      /\ PyDict.mem (py "question_" ++ format_03d 1000 ++ py "_" ++ item_id
                        ++ py ".xml") entries = true
      /\ format_03d 1000 = py "1000"
      /\ length (format_03d 1000) = 4.
Proof.
  split.
  { apply Forall_forall. intros q Hin. apply repeat_spec in Hin. subst q.
    reflexivity. }
  destruct (@build_package reference_runtime thousand_questions (py "big")
              world0) as [r w'] eqn:E.
  assert (Hr : r = Ok (py "big.zip")).
  { change r with (fst (r, w')). rewrite <- E. vm_compute. reflexivity. }
  subst r.
  destruct (build_package_spec thousand_questions (py "big") world0 _ _ E)
    as (ids & cs & hex & mc & L1 & L2 & _ & _ & _ & _ & _ & Ha).
  cbv zeta in *.
  change (@placement_of reference_runtime (py "big.zip")) with Outside in Ha.
  change (@rglob reference_runtime) with (fun d : PyDict.dict pystr => d) in Ha.
  cbv beta in Ha.
  assert (L : length ids = 1000).
  { rewrite L1. apply repeat_length. }
  assert (LC : length cs = 1000).
  { rewrite L2. apply repeat_length. }
  destruct (nth_error ids 999) as [item_id|] eqn:Hn.
  2:{ apply nth_error_None in Hn. unfold pystr, char in *. lia. }
  exists (py "big.zip"), w',
    (combine (question_filenames 1 ids) cs ++ [(manifest_filename, mc)]),
    item_id.
  split; [reflexivity |].
  split; [reflexivity |].
  split; [rewrite Ha; apply DictFacts.get_set_same |].
  split.
  { unfold PyDict.len. rewrite length_app, length_combine,
      question_filenames_length. simpl. unfold pystr, char in *. lia. }
  split; [| split; reflexivity].
  apply DictFacts.mem_In. unfold PyDict.keys.
  rewrite map_app, map_fst_combine
    by (rewrite question_filenames_length; unfold pystr, char in *; lia).
  apply in_or_app. left.
  apply (nth_error_In _ 999).
  exact (question_filenames_nth ids 1 999 item_id Hn).
Qed.

(* ================================================================== *)
(** * The correct response of an item *)
(* ================================================================== *)

Lemma In_insert_sorted k x l : In x (insert_sorted k l) <-> x = k \/ In x l.
Proof.
  induction l as [|y l IH]; simpl.
  - intuition.
  - destruct (str_leb k y); simpl; [intuition |]. rewrite IH. intuition.
Qed.

Lemma In_sorted x l : In x (sorted l) <-> In x l.
Proof.
  unfold sorted. induction l as [|y l IH]; simpl; [tauto |].
  rewrite In_insert_sorted, IH. intuition.
Qed.

Lemma correct_response_values_tree q item_id option_ids :
  correct_response_values (item_tree q item_id option_ids)
  = if PyDict.mem (answer q) option_ids
    then [Some (getitem option_ids (answer q))] else [].
Proof.
  unfold correct_response_values, item_tree, findall, correct_response.
  simpl. destruct (PyDict.mem (answer q) option_ids); reflexivity.
Qed.

Lemma interaction_choices_tree q item_id option_ids :
  interaction_choices (item_tree q item_id option_ids)
  = map (simple_choice q option_ids) (sorted (PyDict.keys (options q))).
Proof.
  unfold interaction_choices, item_tree, findall. simpl.
  rewrite app_nil_r.
  induction (sorted (PyDict.keys (options q))) as [|k l IH]; simpl;
    [reflexivity | rewrite IH; reflexivity].
Qed.

Section Linkage.

Context {rt : Runtime}.

(** Every letter the comprehension runs over ends up with an identifier
    [Choice_<letter>_<eight characters of a fresh uuid>]. *)
Lemma make_option_ids_get k letters : forall ids w ids' w',
  make_option_ids letters ids w = (Ok ids', w') ->
  In k letters
  \/ (exists n, PyDict.get k ids = Some (choice_id k (uuid4_hex n))) ->
  exists n, PyDict.get k ids' = Some (choice_id k (uuid4_hex n)).
Proof.
  induction letters as [|l letters IH]; intros ids w ids' w' H Hk.
  - simpl in H. unfold ret in H. inversion H; subst.
    destruct Hk as [[] | Hk]. exact Hk.
  - simpl in H. unfold bind, uuid4 in H.
    eapply IH; [exact H |].
    destruct (str_eqb k l) eqn:E.
    + apply str_eqb_eq in E. subst l. right.
      exists (uuid_calls w). apply DictFacts.get_set_same.
    + apply str_eqb_neq in E.
      destruct Hk as [[Hk | Hk] | Hk]; [congruence | left; exact Hk |].
      right. rewrite (DictFacts.get_set_other k l _ _ E). exact Hk.
Qed.

Lemma generate_item_xml_ids q item_id w :
  exists option_ids w1,
    make_option_ids (PyDict.keys (options q)) PyDict.empty w
    = (Ok option_ids, w1)
    /\ generate_item_xml q item_id w
       = (minidom_pretty (tostring (item_tree q item_id option_ids)), w1).
Proof.
  unfold generate_item_xml, bind, lift.
  destruct (make_option_ids_ok (PyDict.keys (options q)) PyDict.empty w)
    as [ids E].
  rewrite E. eauto.
Qed.

End Linkage.

(** The second half of C3, which holds: in the document [generate_item_xml]
    hands to the serialiser for a valid question, the correct response has
    exactly one value, and it is the identifier of the [simpleChoice] that
    carries the text of the option the answer names; that identifier is
    [Choice_<answer>_] followed by eight characters of a fresh uuid. *)
Theorem correct_response_is_answer_choice
  (rt : Runtime) (q : Question) (item_id : pystr) (w : world) :
  Question_valid q = true ->
  exists option_ids n,
    fst (generate_item_xml q item_id w)
    = minidom_pretty (tostring (item_tree q item_id option_ids))
    /\ correct_response_values (item_tree q item_id option_ids)
       = [Some (choice_id (answer q) (uuid4_hex n))]
    /\ exists choice,
        In choice (interaction_choices (item_tree q item_id option_ids))
        /\ attribute (py "identifier") choice
           = Some (choice_id (answer q) (uuid4_hex n))
        /\ text_of choice = PyDict.get (answer q) (options q).
Proof.
  intros Hv. unfold Question_valid in Hv.
  apply andb_true_iff in Hv as [_ Hm].
  assert (Hin : In (answer q) (PyDict.keys (options q)))
    by (apply DictFacts.mem_In; exact Hm).
  destruct (generate_item_xml_ids q item_id w) as (ids & w1 & Hids & Hg).
  destruct (make_option_ids_get (answer q) _ _ _ _ _ Hids (or_introl Hin))
    as [n Hn].
  exists ids, n. split; [rewrite Hg; reflexivity |].
  assert (Hitem : getitem ids (answer q) = choice_id (answer q) (uuid4_hex n)).
  { unfold getitem. rewrite Hn. reflexivity. }
  split.
  - rewrite correct_response_values_tree. unfold PyDict.mem.
    rewrite Hn, Hitem. reflexivity.
  - exists (simple_choice q ids (answer q)). split; [| split].
    + rewrite interaction_choices_tree. apply in_map.
      apply In_sorted. exact Hin.
    + unfold attribute, simple_choice. simpl. rewrite Hitem. reflexivity.
    + unfold simple_choice, getitem. simpl. unfold PyDict.mem in Hm.
      destruct (PyDict.get (answer q) (options q)); [reflexivity | discriminate].
Qed.

(** The correct response of the one-option question. *)
Lemma correct_response_example :
  exists option_ids n,
    fst (@generate_item_xml reference_runtime control_char_question
           (py "ITEM_1") world0)
    = @minidom_pretty reference_runtime
        (tostring (item_tree control_char_question (py "ITEM_1") option_ids))
    /\ correct_response_values
         (item_tree control_char_question (py "ITEM_1") option_ids)
       = [Some (choice_id (answer control_char_question) (@uuid4_hex reference_runtime n))]
    /\ exists choice,
        In choice (interaction_choices
                     (item_tree control_char_question (py "ITEM_1") option_ids))
        /\ attribute (py "identifier") choice
           = Some (choice_id (answer control_char_question) (@uuid4_hex reference_runtime n))
        /\ text_of choice
           = PyDict.get (answer control_char_question)
                        (options control_char_question).
Proof.
  apply (correct_response_is_answer_choice reference_runtime
           control_char_question (py "ITEM_1") world0).
  reflexivity.
Defined.

(* ================================================================== *)
(** * Further properties of the parser and the builder *)
(* ================================================================== *)

Lemma scan_closed_blocks blocks : forall qs st,
  Forall2 closed_block blocks qs ->
  current_question_text st = [] -> current_options st = [] ->
  questions (scan_lines st (concat blocks)) = questions st ++ qs
  /\ current_question_text (scan_lines st (concat blocks)) = []
  /\ current_options (scan_lines st (concat blocks)) = [].
Proof.
  induction blocks as [|b blocks IH]; intros qs st HF Ht Ho.
  - inversion HF; subst. simpl. rewrite app_nil_r. auto.
  - inversion HF as [|? q ? qs' (Hq & Hbt & Hbo) HF']; subst.
    simpl. rewrite scan_lines_app.
    destruct (scan_lines_frame b st (scan_init []) Ht Ho)
      as (d & H1 & H2 & H3 & H4).
    rewrite Hq in H2. simpl in H2. subst d.
    rewrite Hbt in H3. rewrite Hbo in H4.
    destruct (IH qs' (scan_lines st b) HF' H3 H4) as (I1 & I2 & I3).
    rewrite I1, H1, <- app_assoc. auto.
Qed.

(** Blocks that each parse to one question parse, one after the other, to
    these questions in the order of the blocks. *)
Theorem closed_blocks_parse_in_order log0 blocks qs :
  Forall2 closed_block blocks qs ->
  fst (parse_lines log0 (concat blocks)) = qs
  /\ length (fst (parse_lines log0 (concat blocks))) = length blocks.
Proof.
  intros HF.
  destruct (scan_closed_blocks blocks qs (scan_init log0) HF eq_refl eq_refl)
    as (H & _ & _).
  rewrite parse_lines_questions, H. simpl. split; [reflexivity |].
  symmetry. exact (Forall2_length HF).
Qed.

(** Two blocks, the second after a blank line. *)
Lemma closed_blocks_example :
  fst (parse_lines [] (concat [good_block; [] :: good_block]))
  = [mkQuestion (py "Q1?") [(py "A", py "x"); (py "B", py "y")] (py "A");
     mkQuestion (py "Q1?") [(py "A", py "x"); (py "B", py "y")] (py "A")]
  /\ length (fst (parse_lines [] (concat [good_block; [] :: good_block])))
     = length [good_block; [] :: good_block].
Proof.
  apply (closed_blocks_parse_in_order [] [good_block; [] :: good_block]).
  repeat constructor.
Defined.

(** An option line for a letter already recorded replaces its text and
    adds no entry; the other letters keep theirs. *)
Theorem option_line_overwrites st line k v :
  Regex.option_pattern line = Some (k, v) ->
  PyDict.get k (current_options (scan_line st line)) = Some v
  /\ (forall k', k' <> k ->
        PyDict.get k' (current_options (scan_line st line))
        = PyDict.get k' (current_options st))
  /\ (PyDict.mem k (current_options st) = true ->
      PyDict.keys (current_options (scan_line st line))
      = PyDict.keys (current_options st)).
Proof.
  intros H. rewrite (scan_line_option st line k v H). simpl.
  split; [apply DictFacts.get_set_same |].
  split; [intros k' Hk; apply DictFacts.get_set_other; exact Hk |].
  unfold PyDict.mem, PyDict.keys.
  induction (current_options st) as [|[k0 v0] d IH]; simpl; [discriminate |].
  destruct (str_eqb k k0) eqn:E.
  - apply str_eqb_eq in E. subst. reflexivity.
  - intros Hm. simpl. rewrite (IH Hm). reflexivity.
Qed.

(** The letter [A] given twice. *)
Lemma option_line_overwrites_example :
  let st := scan_lines (scan_init []) [py "Q?"; py "A) first"] in
  PyDict.get (py "A") (current_options (scan_line st (py "A) second")))
  = Some (py "second")
  /\ (forall k', k' <> py "A" ->
        PyDict.get k' (current_options (scan_line st (py "A) second")))
        = PyDict.get k' (current_options st))
  /\ (PyDict.mem (py "A") (current_options st) = true ->
      PyDict.keys (current_options (scan_line st (py "A) second")))
      = PyDict.keys (current_options st)).
Proof.
  apply (option_line_overwrites
           (scan_lines (scan_init []) [py "Q?"; py "A) first"])
           (py "A) second") (py "A") (py "second")).
  reflexivity.
Defined.

Section BuilderFailure.

Context {rt : Runtime}.

Lemma bind_Raise {A B} (m : M A) (k : A -> M B) w e w' :
  bind m k w = (Raise e, w') ->
  m w = (Raise e, w')
  \/ exists a w1, m w = (Ok a, w1) /\ k a w1 = (Raise e, w').
Proof.
  unfold bind. destruct (m w) as [[a|e0] w1]; intros H.
  - right. exists a, w1. auto.
  - left. apply pair_equal_spec in H as [He Hw].
    injection He as He. subst. reflexivity.
Qed.

Lemma bind_cases {A B} (m : M A) (k : A -> M B) w r w' :
  bind m k w = (r, w') ->
  (exists e, m w = (Raise e, w') /\ r = Raise e)
  \/ exists a w1, m w = (Ok a, w1) /\ k a w1 = (r, w').
Proof.
  unfold bind. destruct (m w) as [[a|e0] w1]; intros H.
  - right. exists a, w1. auto.
  - left. apply pair_equal_spec in H as [He Hw]. subst. eauto.
Qed.

Lemma staging_Raise req done w e w' :
  staging req done w = (Raise e, w') ->
  exists remains,
    staging_refused req w = Some (e, remains) /\ w' = set_staging remains w.
Proof.
  unfold staging. destruct (staging_refused req w) as [[e0 r]|];
    [| discriminate].
  intros H. apply pair_equal_spec in H as [He Hw].
  injection He as ->. eauto.
Qed.

Lemma staging_refusal req done w e w' :
  staging req done w = (Raise e, w') -> refused_with e.
Proof.
  intros H. apply staging_Raise in H as (r & H & _). left. eauto.
Qed.

Lemma staging_archives req done w r w' :
  staging req done w = (r, w') -> archives w' = archives w.
Proof.
  unfold staging. destruct (staging_refused req w) as [[e rem]|];
    intros H; inversion H; reflexivity.
Qed.

Lemma write_temp_file_archives filename content w r w' :
  write_temp_file filename content w = (r, w') -> archives w' = archives w.
Proof.
  unfold write_temp_file. destruct (temp_dir w).
  - apply staging_archives.
  - intros H. inversion H. reflexivity.
Qed.

Lemma write_temp_file_Raise filename content w e w' :
  write_temp_file filename content w = (Raise e, w') ->
  temp_dir w <> None -> refused_with e.
Proof.
  unfold write_temp_file. destruct (temp_dir w); [| congruence].
  intros H _. exact (staging_refusal _ _ _ _ _ H).
Qed.

Lemma setup_archives w r w' :
  _setup_temp_directory w = (r, w') -> archives w' = archives w.
Proof.
  unfold _setup_temp_directory. intros H.
  apply bind_cases in H as [(e & H & _) | ([] & w1 & H1 & H2)].
  - destruct (temp_dir w); [exact (staging_archives _ _ _ _ _ H) |].
    inversion H.
  - rewrite (staging_archives _ _ _ _ _ H2).
    destruct (temp_dir w); [exact (staging_archives _ _ _ _ _ H1) |].
    inversion H1. reflexivity.
Qed.

Lemma setup_Raise w e w' :
  _setup_temp_directory w = (Raise e, w') -> refused_with e.
Proof.
  unfold _setup_temp_directory. intros H.
  apply bind_Raise in H as [H | ([] & w1 & _ & H)].
  - destruct (temp_dir w); [exact (staging_refusal _ _ _ _ _ H) |].
    discriminate.
  - exact (staging_refusal _ _ _ _ _ H).
Qed.

Lemma cleanup_archives w r w' :
  _cleanup_temp_directory w = (r, w') -> archives w' = archives w.
Proof.
  unfold _cleanup_temp_directory. destruct (temp_dir w).
  - apply staging_archives.
  - intros H. inversion H. reflexivity.
Qed.

Lemma cleanup_Raise w e w' :
  _cleanup_temp_directory w = (Raise e, w') -> refused_with e.
Proof.
  unfold _cleanup_temp_directory. destruct (temp_dir w); [| discriminate].
  apply staging_refusal.
Qed.

(** The loop never touches an archive. *)
Lemma build_items_archives questions : forall index resources w r w',
  build_items index questions resources w = (r, w') ->
  archives w' = archives w.
Proof.
  induction questions as [|q questions IH]; intros index resources w r w' H.
  - simpl in H. unfold ret in H. inversion H. reflexivity.
  - cbn [build_items] in H.
    apply bind_cases in H as [(e & H & _) | (hex & w1 & Hu & H)];
      [unfold uuid4 in H; discriminate |].
    unfold uuid4 in Hu. apply pair_equal_spec in Hu as [Hhex Hw1].
    injection Hhex as Hhex. subst hex w1.
    set (item_id := py "ITEM_" ++ uuid4_hex (uuid_calls w)) in *.
    destruct (generate_item_xml_unfold q item_id
                (mkWorld (S (uuid_calls w)) (temp_dir w) (archives w)))
      as [ids Eg].
    apply bind_cases in H as [(e & H & _) | (xml & w2 & Hg & H)].
    + rewrite Eg in H. apply pair_equal_spec in H as [_ <-]. reflexivity.
    + rewrite Eg in Hg. apply pair_equal_spec in Hg as [_ Hw2]. subst w2.
      apply bind_cases in H as [(e & H & _) | ([] & w3 & Hw & H)].
      * exact (write_temp_file_archives _ _ _ _ _ H).
      * rewrite (IH _ _ _ _ _ H).
        exact (write_temp_file_archives _ _ _ _ _ Hw).
Qed.

(** The loop fails on a document minidom refuses, or on a file the file
    system refuses. *)
Lemma build_items_raise questions : forall index resources w e w',
  build_items index questions resources w = (Raise e, w') ->
  temp_dir w <> None ->
  (exists doc, minidom_pretty (tostring doc) = Raise e) \/ refused_with e.
Proof.
  induction questions as [|q questions IH]; intros index resources w e w' H Hd.
  - simpl in H. unfold ret in H. discriminate.
  - cbn [build_items] in H.
    apply bind_Raise in H as [H | (hex & w1 & Hu & H)];
      [unfold uuid4 in H; discriminate |].
    unfold uuid4 in Hu. apply pair_equal_spec in Hu as [Hhex Hw1].
    injection Hhex as Hhex. subst hex w1.
    set (item_id := py "ITEM_" ++ uuid4_hex (uuid_calls w)) in *.
    destruct (generate_item_xml_unfold q item_id
                (mkWorld (S (uuid_calls w)) (temp_dir w) (archives w)))
      as [ids Eg].
    apply bind_Raise in H as [H | (xml & w2 & Hg & H)].
    + rewrite Eg in H. apply pair_equal_spec in H as [Hr _]. left. eauto.
    + rewrite Eg in Hg. apply pair_equal_spec in Hg as [_ Hw2]. subst w2.
      apply bind_Raise in H as [H | ([] & w3 & Hw & H)].
      * right. apply (write_temp_file_Raise _ _ _ _ _ H). exact Hd.
      * apply write_temp_file_Ok in Hw as (d & _ & ->).
        apply (IH _ _ _ _ _ H). simpl. discriminate.
Qed.

Lemma archive_request_cases step path members w r w' :
  archive_request step path members w = (r, w') ->
  (forall name, name <> path ->
     PyDict.get name (archives w') = PyDict.get name (archives w))
  /\ (forall e, r = Raise e -> refused_with e).
Proof.
  unfold archive_request.
  destruct (archive_refused step path w) as [[e0 rem]|] eqn:E;
    intros H; inversion H; subst; split.
  - intros name Hn. apply store_archive_frame. exact Hn.
  - intros e He. injection He as <-. right. right. eauto.
  - intros name Hn. apply store_archive_frame. exact Hn.
  - intros e He. discriminate.
Qed.

(** The writing of the members touches no archive but its own, and fails
    only where the file system refuses. *)
Lemma add_members_cases path arcnames : forall members w r w',
  add_members path arcnames members w = (r, w') ->
  (forall name, name <> path ->
     PyDict.get name (archives w') = PyDict.get name (archives w))
  /\ (forall e, r = Raise e -> refused_with e).
Proof.
  induction arcnames as [|k arcnames IH]; intros members w r w' H.
  - simpl in H. unfold ret in H. inversion H; subst.
    split; [reflexivity | discriminate].
  - cbn [add_members] in H.
    apply bind_cases in H as [(e & H & _) | (content & w1 & Hr & H)];
      [unfold read_staged in H; discriminate |].
    unfold read_staged in Hr. inversion Hr; subst content w1. clear Hr.
    apply bind_cases in H as [(e & H & ->) | ([] & w2 & Ha & H)].
    + destruct (archive_request_cases _ _ _ _ _ _ H) as [F R].
      split; [exact F |]. intros e' He'. injection He' as <-.
      exact (R e eq_refl).
    + destruct (archive_request_cases _ _ _ _ _ _ Ha) as [F _].
      destruct (IH _ _ _ _ H) as [F' R'].
      split; [| exact R'].
      intros name Hn. rewrite (F' name Hn). exact (F name Hn).
Qed.

Lemma open_archive_cases path w r w' :
  open_archive path w = (r, w') ->
  (forall name, name <> path ->
     PyDict.get name (archives w') = PyDict.get name (archives w))
  /\ (forall e, r = Raise e -> temp_dir w <> None -> refused_with e).
Proof.
  unfold open_archive.
  destruct (open_refused path w) as [e0|] eqn:E.
  - intros H. inversion H; subst. split; [reflexivity |].
    intros e He _. injection He as <-. right. left. eauto.
  - destruct (placement_of path) eqn:P, (temp_dir w) eqn:T;
      intros H; inversion H; subst;
      (split; [intros name Hn; try reflexivity;
               apply store_archive_frame; exact Hn |]);
      intros e He Hd; try discriminate; congruence.
Qed.

(** [_create_zip_package] touches no archive but the one it is to write,
    and fails only where the file system refuses. *)
Lemma create_zip_cases output_filename w r w' :
  _create_zip_package output_filename w = (r, w') ->
  (forall name, name <> archive_name output_filename ->
     PyDict.get name (archives w') = PyDict.get name (archives w))
  /\ (forall e, r = Raise e -> temp_dir w <> None -> refused_with e).
Proof.
  unfold _create_zip_package. fold (archive_name output_filename).
  set (path := archive_name output_filename).
  intros H.
  apply bind_cases in H as [(e & H & ->) | ([] & w1 & Ho & H)].
  { destruct (open_archive_cases _ _ _ _ H) as [F R].
    split; [exact F |]. intros e' He'. injection He' as <-.
    exact (R e eq_refl). }
  destruct (open_archive_cases _ _ _ _ Ho) as [F1 _].
  apply bind_cases in H as [(e & H & _) | (arcnames & w2 & Hl & H)];
    [unfold list_staged in H; discriminate |].
  unfold list_staged in Hl. inversion Hl; subst arcnames w2. clear Hl.
  apply bind_cases in H as [(e & H & ->) | (members & w3 & Hm & H)].
  { destruct (add_members_cases _ _ _ _ _ _ H) as [F R].
    split; [| intros e' He' _; injection He' as <-; exact (R e eq_refl)].
    intros name Hn. rewrite (F name Hn). exact (F1 name Hn). }
  destruct (add_members_cases _ _ _ _ _ _ Hm) as [F2 _].
  apply bind_cases in H as [(e & H & ->) | ([] & w4 & Hc & H)].
  { destruct (archive_request_cases _ _ _ _ _ _ H) as [F R].
    split; [| intros e' He' _; injection He' as <-; exact (R e eq_refl)].
    intros name Hn. rewrite (F name Hn), (F2 name Hn). exact (F1 name Hn). }
  destruct (archive_request_cases _ _ _ _ _ _ Hc) as [F3 _].
  unfold ret in H. inversion H; subst.
  split; [| discriminate].
  intros name Hn. rewrite (F3 name Hn), (F2 name Hn). exact (F1 name Hn).
Qed.

Lemma willing_not_refused e : file_system_willing -> ~ refused_with e.
Proof.
  intros (W1 & W2 & W3) [(req & w & r & H) | [(p & w & H)
                                             | (st & p & w & r & H)]].
  - rewrite W1 in H. discriminate.
  - rewrite W2 in H. discriminate.
  - rewrite W3 in H. discriminate.
Qed.

Lemma package_body_cases questions output_filename w r w' :
  package_body questions output_filename w = (r, w') ->
  temp_dir w <> None ->
  (forall name, name <> archive_name output_filename ->
     PyDict.get name (archives w') = PyDict.get name (archives w))
  /\ (forall e, r = Raise e ->
        ((exists doc, minidom_pretty (tostring doc) = Raise e)
         /\ archives w' = archives w)
        \/ refused_with e).
Proof.
  unfold package_body. intros H Hd.
  apply bind_cases in H as [(e & H & ->) | (resources & w1 & Hb & H)].
  { pose proof (build_items_archives _ _ _ _ _ _ H) as A.
    split; [intros name _; rewrite A; reflexivity |].
    intros e' He'. injection He' as <-.
    destruct (build_items_raise _ _ _ _ _ _ H Hd) as [D | R]; auto. }
  pose proof (build_items_archives _ _ _ _ _ _ Hb) as A1.
  destruct (build_items_spec _ _ _ _ _ _ Hb)
    as (ids & cs & _ & _ & _ & _ & _ & _ & T).
  destruct (temp_dir w) as [d|] eqn:Ed; [| congruence].
  specialize (T d eq_refl).
  apply bind_cases in H as [(e & H & ->) | (mc & w2 & Hm & H)].
  { unfold generate_manifest in H.
    apply bind_Raise in H as [H | (hex & w1' & Hu & H)];
      [unfold uuid4 in H; discriminate |].
    unfold uuid4 in Hu. apply pair_equal_spec in Hu as [_ Hw1']. subst w1'.
    unfold lift in H. apply pair_equal_spec in H as [H <-].
    cbn [archives].
    split; [intros name _; rewrite A1; reflexivity |].
    intros e' He'. injection He' as <-. left. split; [eauto | exact A1]. }
  unfold generate_manifest in Hm.
  apply bind_Ok in Hm as (hex & w1' & Hu & Hm).
  unfold uuid4 in Hu. apply pair_equal_spec in Hu as [_ Hw1']. subst w1'.
  unfold lift in Hm. apply pair_equal_spec in Hm as [_ Hw2]. subst w2.
  apply bind_cases in H as [(e & H & ->) | ([] & w3 & Hw & H)].
  { pose proof (write_temp_file_archives _ _ _ _ _ H) as A.
    cbn [archives] in A.
    split; [intros name _; rewrite A, A1; reflexivity |].
    intros e' He'. injection He' as <-. right.
    apply (write_temp_file_Raise _ _ _ _ _ H). simpl. rewrite T. discriminate. }
  pose proof (write_temp_file_archives _ _ _ _ _ Hw) as A3.
  cbn [archives] in A3.
  apply write_temp_file_Ok in Hw as (d3 & _ & Hw3).
  destruct (create_zip_cases _ _ _ _ H) as [F R].
  split.
  - intros name Hn. rewrite (F name Hn), A3, A1. reflexivity.
  - intros e He. right. apply (R e He). rewrite Hw3. simpl. discriminate.
Qed.

(** A run of [build_package] that raises: the exception is minidom's or
    the file system's, no archive but the one to be written is touched,
    and when the file system refused nothing the staging directory is
    gone and no archive is touched at all. *)
Lemma build_package_raise questions output_filename w e w' :
  build_package questions output_filename w = (Raise e, w') ->
  ((exists doc, minidom_pretty (tostring doc) = Raise e) \/ refused_with e)
  /\ (forall name, name <> archive_name output_filename ->
        PyDict.get name (archives w') = PyDict.get name (archives w))
  /\ (file_system_willing ->
      (exists doc, minidom_pretty (tostring doc) = Raise e)
      /\ temp_dir w' = None /\ archives w' = archives w).
Proof.
  unfold build_package. fold (package_body questions output_filename).
  intros H.
  apply bind_Raise in H as [H | ([] & w0 & Hs & H)].
  { pose proof (setup_archives _ _ _ H) as A.
    pose proof (setup_Raise _ _ _ H) as R.
    split; [right; exact R |].
    split; [intros name _; rewrite A; reflexivity |].
    intros W. destruct (willing_not_refused e W R). }
  pose proof (setup_archives _ _ _ Hs) as A0.
  apply setup_Ok in Hs. subst w0.
  unfold try_finally in H.
  destruct (package_body questions output_filename
              (set_staging (Some PyDict.empty) w)) as [r w4] eqn:B.
  destruct (package_body_cases _ _ _ _ _ B ltac:(simpl; discriminate))
    as [F R].
  cbn [set_staging archives] in F, R.
  destruct (_cleanup_temp_directory w4) as [[[]|e5] w5] eqn:C.
  - apply pair_equal_spec in H as [-> <-].
    pose proof (cleanup_archives _ _ _ C) as Ac.
    apply cleanup_Ok in C as (Ct & _ & _).
    destruct (R e eq_refl) as [[D A] | Rf].
    + split; [left; exact D |].
      split; [intros name _; rewrite Ac, A; reflexivity |].
      intros _. split; [exact D |]. split; [exact Ct |].
      rewrite Ac, A. reflexivity.
    + split; [right; exact Rf |].
      split; [intros name Hn; rewrite Ac; exact (F name Hn) |].
      intros W. destruct (willing_not_refused e W Rf).
  - apply pair_equal_spec in H as [He <-]. injection He as <-.
    pose proof (cleanup_archives _ _ _ C) as Ac.
    pose proof (cleanup_Raise _ _ _ C) as Rf.
    split; [right; exact Rf |].
    split; [intros name Hn; rewrite Ac; exact (F name Hn) |].
    intros W. destruct (willing_not_refused e5 W Rf).
Qed.

(** The archive of a run that returns is there exactly when it lies
    outside the staging directory. *)
Lemma archive_exists_after_build questions output_filename w out w' :
  build_package questions output_filename w = (Ok out, w') ->
  archive_exists out w'
  = match placement_of out with Outside => true | Inside _ => false end.
Proof.
  intros H.
  destruct (build_package_spec _ _ _ _ _ H)
    as (ids & cs & hex & mc & _ & _ & _ & _ & _ & _ & Ht & Ha).
  cbv zeta in Ha. unfold archive_exists.
  destruct (placement_of out).
  - rewrite Ha. unfold PyDict.mem. rewrite DictFacts.get_set_same.
    reflexivity.
  - rewrite Ht. reflexivity.
Qed.

End BuilderFailure.

(** The reference file system refuses nothing. *)
Lemma reference_file_system_willing : @file_system_willing reference_runtime.
Proof.
  repeat split; intros; reflexivity.
Qed.

(** [build_package] raises only what minidom raised on one of its
    documents or what the file system refused one of its requests with,
    and whatever it raises, no archive but the one it was to write is
    touched.  When the file system refuses nothing, the exception is
    minidom's, the staging directory is removed all the same, and no
    archive is written or changed. *)
Theorem build_package_raise_causes
  (rt : Runtime) questions output_filename w e w' :
  build_package questions output_filename w = (Raise e, w') ->
  ((exists doc, minidom_pretty (tostring doc) = Raise e) \/ refused_with e)
  /\ (forall name, name <> archive_name output_filename ->
        PyDict.get name (archives w') = PyDict.get name (archives w))
  /\ (file_system_willing ->
      (exists doc, minidom_pretty (tostring doc) = Raise e)
      /\ temp_dir w' = None /\ archives w' = archives w).
Proof.
  exact (build_package_raise questions output_filename w e w').
Qed.

(** The package of the question with U+0001: minidom raises, nothing is
    left behind. *)
Lemma build_package_raises_example :
  (forall name, name <> archive_name (py "out") ->
     PyDict.get name
       (archives (snd (@build_package reference_runtime
                         [control_char_question] (py "out") world0)))
     = PyDict.get name (archives world0))
  /\ (exists doc,
         @minidom_pretty reference_runtime (tostring doc) = Raise ExpatError)
  /\ temp_dir (snd (@build_package reference_runtime
                      [control_char_question] (py "out") world0)) = None
  /\ archives (snd (@build_package reference_runtime
                      [control_char_question] (py "out") world0))
     = archives world0.
Proof.
  assert (H : @build_package reference_runtime [control_char_question]
                (py "out") world0
              = (Raise ExpatError,
                 snd (@build_package reference_runtime
                        [control_char_question] (py "out") world0)))
    by (vm_compute; reflexivity).
  destruct (build_package_raise_causes reference_runtime
              [control_char_question] (py "out") world0 ExpatError _ H)
    as (_ & F & W).
  split; [exact F | exact (W reference_file_system_willing)].
Defined.

(* ================================================================== *)
(** * More on the scanner *)
(* ================================================================== *)

(** Two states that agree on the questions, the text and the options
    still agree after the same lines. *)
Lemma scan_lines_same_core lines st1 st2 :
  questions st1 = questions st2 ->
  current_question_text st1 = current_question_text st2 ->
  current_options st1 = current_options st2 ->
  questions (scan_lines st1 lines) = questions (scan_lines st2 lines)
  /\ current_question_text (scan_lines st1 lines)
     = current_question_text (scan_lines st2 lines)
  /\ current_options (scan_lines st1 lines)
     = current_options (scan_lines st2 lines).
Proof.
  intros Hq Ht Ho.
  destruct (scan_lines_frame lines st1 st2 Ht Ho) as (d & H1 & H2 & H3 & H4).
  rewrite H1, H2, Hq. auto.
Qed.

Lemma scan_lines_skip_blanks lines : forall st,
  questions (scan_lines st (filter nonblank lines))
  = questions (scan_lines st lines)
  /\ current_question_text (scan_lines st (filter nonblank lines))
     = current_question_text (scan_lines st lines)
  /\ current_options (scan_lines st (filter nonblank lines))
     = current_options (scan_lines st lines).
Proof.
  induction lines as [|l lines IH]; intros st; [simpl; auto |].
  destruct l as [|c l].
  - simpl filter. simpl scan_lines at 2 4 6.
    destruct (IH st) as (I1 & I2 & I3). rewrite I1, I2, I3.
    apply scan_lines_same_core; reflexivity.
  - simpl. apply IH.
Qed.

Lemma lstrip_blank s : forallb isspace s = true -> lstrip s = [].
Proof.
  induction s as [|c s IH]; simpl; [reflexivity |].
  intros H. apply andb_true_iff in H as [Hc Hs]. rewrite Hc. exact (IH Hs).
Qed.

Lemma lstrip_nil_blank s : lstrip s = [] -> forallb isspace s = true.
Proof.
  induction s as [|c s IH]; simpl; [reflexivity |].
  destruct (isspace c); [exact IH | discriminate].
Qed.

(** [strip] returns the empty string exactly on the strings made of
    blanks. *)
Lemma strip_nil_iff s : strip s = [] <-> forallb isspace s = true.
Proof.
  split.
  - intros H. apply lstrip_nil_blank.
    destruct (lstrip s) as [|c r] eqn:E; [reflexivity |].
    pose proof (lstrip_head _ _ _ E) as Hc.
    unfold strip in H. rewrite E in H.
    destruct (strip_keeps_head c r Hc) as [r' Hr].
    unfold strip in Hr. rewrite (lstrip_nonspace c r Hc) in Hr.
    rewrite Hr in H. discriminate.
  - intros H. unfold strip. rewrite (lstrip_blank s H). reflexivity.
Qed.

Lemma map_strip_filter raw :
  map strip (filter (fun l => negb (forallb isspace l)) raw)
  = filter nonblank (map strip raw).
Proof.
  induction raw as [|l raw IH]; simpl; [reflexivity |].
  unfold nonblank at 1.
  destruct (forallb isspace l) eqn:E; simpl.
  - apply strip_nil_iff in E. rewrite E. simpl. exact IH.
  - destruct (strip l) as [|c r] eqn:Es.
    + apply strip_nil_iff in Es. congruence.
    + simpl. rewrite IH. reflexivity.
Qed.

(** Blank lines count for nothing: [parse_file] returns the same
    questions for a file and for the file without its lines of blanks
    only, wherever these lines stand - also inside a block. *)
Theorem blank_lines_ignored :
  (forall raw, forallb isspace raw = true <-> strip raw = [])
  /\ (forall log0 lines,
        fst (parse_lines log0 (filter nonblank lines))
        = fst (parse_lines log0 lines))
  /\ (forall raw other,
        fst (parse_file (mkEnv true (ReadLines raw) other))
        = fst (parse_file
                 (mkEnv true
                    (ReadLines (filter (fun l => negb (forallb isspace l)) raw))
                    other))).
Proof.
  split; [| split].
  - intros raw. symmetry. apply strip_nil_iff.
  - intros log0 lines. rewrite !parse_lines_questions.
    apply scan_lines_skip_blanks.
  - intros raw other.
    rewrite (parse_file_utf8 (mkEnv true (ReadLines raw) other) raw
               eq_refl eq_refl).
    rewrite (parse_file_utf8
               (mkEnv true
                  (ReadLines (filter (fun l => negb (forallb isspace l)) raw))
                  other)
               (filter (fun l => negb (forallb isspace l)) raw)
               eq_refl eq_refl).
    rewrite map_strip_filter, !parse_lines_questions.
    f_equal. symmetry. apply scan_lines_skip_blanks.
Qed.

(** One line adds at most one question, and only an ANSWER line does. *)
Lemma scan_line_count st line :
  length (questions (scan_line st line))
  <= length (questions st) + (if is_answer_line line then 1 else 0).
Proof.
  unfold scan_line, is_answer_line.
  destruct (is_empty line); [simpl; lia |].
  destruct (Regex.answer_pattern line) as [g|].
  - destruct (is_empty (current_question_text st)); [simpl; lia |].
    destruct (PyDict.is_empty (current_options st)); [simpl; lia |].
    destruct (Question_new _ _ _); simpl; [rewrite length_app; simpl |]; lia.
  - destruct (Regex.option_pattern line) as [[k v]|]; [simpl; lia |].
    destruct (is_empty (current_question_text st)); simpl; lia.
Qed.

Lemma scan_lines_count lines : forall st,
  length (questions (scan_lines st lines))
  <= length (questions st) + length (filter is_answer_line lines).
Proof.
  induction lines as [|l lines IH]; intros st; simpl; [lia |].
  specialize (IH (scan_line st l)). pose proof (scan_line_count st l) as H.
  destruct (is_answer_line l); simpl; lia.
Qed.

(** [parse_file] returns at most one question per ANSWER line of the
    file; a file without such a line gives no question. *)
Theorem questions_bounded_by_answer_lines :
  (forall log0 lines,
      length (fst (parse_lines log0 lines))
      <= length (filter is_answer_line lines))
  /\ (forall raw other qs,
      fst (parse_file (mkEnv true (ReadLines raw) other)) = Ok qs ->
      length qs <= length (filter is_answer_line (map strip raw)))
  /\ (forall log0 lines,
      filter is_answer_line lines = [] -> fst (parse_lines log0 lines) = []).
Proof.
  assert (B : forall log0 lines,
             length (fst (parse_lines log0 lines))
             <= length (filter is_answer_line lines)).
  { intros log0 lines. rewrite parse_lines_questions.
    exact (scan_lines_count lines (scan_init log0)). }
  split; [exact B |]. split.
  - intros raw other qs H.
    rewrite (parse_file_utf8 (mkEnv true (ReadLines raw) other) raw
               eq_refl eq_refl) in H.
    injection H as <-. apply B.
  - intros log0 lines H. specialize (B log0 lines). rewrite H in B.
    destruct (fst (parse_lines log0 lines)); [reflexivity | simpl in B; lia].
Qed.

(** ** What [strip] fixes *)

Lemma strip_ends_nonblank s : starts_nonblank (rev (strip s)).
Proof.
  unfold strip, rstrip. rewrite rev_involutive.
  destruct (lstrip (rev (lstrip s))) as [|c r] eqn:E; simpl; [exact I |].
  exact (lstrip_head _ _ _ E).
Qed.

Lemma lstrip_starts_nonblank s : starts_nonblank s -> lstrip s = s.
Proof.
  destruct s as [|c r]; simpl; [reflexivity |]. intros H. rewrite H. reflexivity.
Qed.

Lemma strip_fixed s :
  starts_nonblank s -> starts_nonblank (rev s) -> strip s = s.
Proof.
  intros H1 H2. unfold strip, rstrip.
  rewrite (lstrip_starts_nonblank s H1), (lstrip_starts_nonblank (rev s) H2).
  apply rev_involutive.
Qed.

Lemma strip_idempotent s : strip (strip s) = strip s.
Proof.
  apply strip_fixed; [apply strip_starts_nonblank | apply strip_ends_nonblank].
Qed.

Lemma trimmed_ends s :
  trimmed s -> starts_nonblank s /\ starts_nonblank (rev s).
Proof.
  unfold trimmed. intros H. rewrite <- H.
  split; [apply strip_starts_nonblank | apply strip_ends_nonblank].
Qed.

Lemma join_space_cons l ls :
  join_space (l :: ls) = l ++ flat_map (fun x => py " " ++ x) ls.
Proof.
  revert l. induction ls as [|x ls IH]; intros l.
  - simpl. rewrite app_nil_r. reflexivity.
  - change (join_space (l :: x :: ls)) with (l ++ py " " ++ join_space (x :: ls)).
    rewrite IH. cbn [flat_map]. rewrite <- !app_assoc. reflexivity.
Qed.

Lemma starts_nonblank_app a b :
  a <> [] -> starts_nonblank a -> starts_nonblank (a ++ b).
Proof. destruct a; [congruence | simpl; auto]. Qed.

(** Lines that are trimmed and not empty, joined by single spaces, make
    a trimmed string. *)
Lemma join_space_trimmed ls :
  Forall (fun l => l <> [] /\ trimmed l) ls ->
  trimmed (join_space ls) /\ (ls <> [] -> join_space ls <> []).
Proof.
  induction ls as [|l ls IH]; intros H.
  - split; [reflexivity | congruence].
  - inversion H as [|? ? [Hl Ht] H']; subst.
    destruct (IH H') as [IJ IN]. destruct ls as [|x ls].
    + simpl. split; [exact Ht | intros _; exact Hl].
    + change (join_space (l :: x :: ls))
        with (l ++ py " " ++ join_space (x :: ls)).
      destruct (trimmed_ends _ Ht) as [Hs _].
      destruct (trimmed_ends _ IJ) as [_ He].
      assert (Hne : join_space (x :: ls) <> []) by (apply IN; discriminate).
      split; [| destruct l; [congruence | discriminate]].
      apply strip_fixed.
      * apply starts_nonblank_app; assumption.
      * rewrite !rev_app_distr, <- app_assoc.
        apply starts_nonblank_app; [| exact He].
        intros E. apply (f_equal (@rev char)) in E.
        rewrite rev_involutive in E. exact (Hne E).
Qed.

(** ** A block of lines without an ANSWER line *)

Lemma classify_no_answer line :
  Regex.answer_pattern line = None ->
  (line = [] /\ classify line = Blank)
  \/ (exists k v, Regex.option_pattern line = Some (k, v)
                  /\ classify line = OptionLine k v)
  \/ (line <> [] /\ classify line = TextLine).
Proof.
  intros Ha. unfold classify. rewrite Ha.
  destruct line as [|c r]; [left; auto | right].
  simpl is_empty. cbv iota.
  destruct (Regex.option_pattern (c :: r)) as [[k v]|].
  - left. exists k, v. auto.
  - right. split; [discriminate | reflexivity].
Qed.

(** The text such a block accumulates is its text lines joined by single
    spaces, after the text accumulated before; the options are assigned
    in the order of the option lines; no question is added. *)
Lemma scan_block block : forall st,
  Forall (fun l => Regex.answer_pattern l = None) block ->
  questions (scan_lines st block) = questions st
  /\ current_question_text (scan_lines st block)
     = (if is_empty (current_question_text st)
        then join_space (text_lines block)
        else join_space (current_question_text st :: text_lines block))
  /\ current_options (scan_lines st block)
     = assign_all (option_entries block) (current_options st).
Proof.
  induction block as [|l block IH]; intros st H.
  - simpl. split; [reflexivity |]. split; [| reflexivity].
    destruct (current_question_text st); reflexivity.
  - inversion H as [|? ? Hl H']; subst.
    destruct (IH (scan_line st l) H') as (I1 & I2 & I3).
    change (scan_lines st (l :: block)) with (scan_lines (scan_line st l) block).
    rewrite I1, I2, I3. clear I1 I2 I3.
    change (text_lines (l :: block))
      with (if is_text_line l then l :: text_lines block else text_lines block).
    change (option_entries (l :: block))
      with ((match classify l with
             | OptionLine k v => [(k, v)]
             | _ => []
             end) ++ option_entries block).
    unfold is_text_line.
    destruct (classify_no_answer l Hl)
      as [[-> Hc] | [(k & v & Ho & Hc) | [Hne Hc]]]; rewrite Hc.
    + rewrite scan_line_blank.
      cbn [questions current_question_text current_options app]. auto.
    + rewrite (scan_line_option st l k v Ho).
      cbn [questions current_question_text current_options app]. auto.
    + rewrite (scan_line_text st l Hc).
      cbn [questions current_question_text current_options app].
      split; [reflexivity |]. split; [| reflexivity].
      destruct (current_question_text st) as [|c r] eqn:Et.
      * cbn [is_empty].
        destruct l as [|x l]; [congruence | reflexivity].
      * cbn [is_empty].
        change (is_empty ((c :: r) ++ py " " ++ l)) with false. cbv iota.
        rewrite !join_space_cons. cbn [flat_map].
        rewrite <- !app_assoc. reflexivity.
Qed.

Lemma text_lines_trimmed block :
  Forall trimmed block ->
  Forall (fun l => l <> [] /\ trimmed l) (text_lines block).
Proof.
  intros H. apply Forall_forall. intros l Hin.
  unfold text_lines in Hin. apply filter_In in Hin as [Hin Ht].
  rewrite Forall_forall in H. split; [| exact (H l Hin)].
  unfold is_text_line in Ht.
  destruct (classify l) eqn:E; try discriminate.
  apply classify_text in E. tauto.
Qed.

(** A block and its ANSWER line, alone: the question holds the text lines
    joined by single spaces, in the order of the block and wherever they
    stand among the option lines, the options assigned in the order of the
    option lines, and the upper-case letter of the ANSWER line; it is
    returned exactly when it passes the validation of [Question]. *)
Theorem block_parses_to_joined_text log0 block aline g :
  Forall (fun l => Regex.answer_pattern l = None) block ->
  Forall trimmed block ->
  Regex.answer_pattern aline = Some g ->
  fst (parse_lines log0 (block ++ [aline]))
  = (let q := mkQuestion (join_space (text_lines block))
                         (assign_all (option_entries block) PyDict.empty)
                         (Regex.upper g) in
     if Question_valid q then [q] else []).
Proof.
  intros Hno Htr Ha. cbv zeta.
  rewrite parse_lines_questions, scan_lines_app.
  destruct (scan_block block (scan_init log0) Hno) as (Q & T & O).
  simpl in Q, T, O.
  destruct (join_space_trimmed _ (text_lines_trimmed block Htr)) as [Hj _].
  set (st := scan_lines (scan_init log0) block) in *.
  simpl scan_lines. unfold scan_line.
  rewrite (RegexFacts.answer_pattern_nonempty _ _ Ha), Ha, Q, T, O.
  unfold Question_valid, Question_new, post_init, PyDict.copy.
  simpl text. simpl options. simpl answer.
  unfold trimmed in Hj. rewrite !Hj.
  destruct (join_space (text_lines block)) as [|c r]; [reflexivity |].
  simpl is_empty. cbv iota.
  destruct (assign_all (option_entries block) PyDict.empty) as [|kv d];
    [reflexivity |].
  simpl PyDict.is_empty. cbv iota. simpl negb. simpl andb.
  destruct (PyDict.mem (Regex.upper g) (kv :: d)); reflexivity.
Qed.

(** A question between two options, and text after the options. *)
Lemma block_parses_to_joined_text_example :
  fst (parse_lines [] ([py "Which"; py "A) x"; py "one?"; py "B) y"]
                       ++ [py "ANSWER: B"]))
  = (let q := mkQuestion
                (join_space (text_lines [py "Which"; py "A) x"; py "one?";
                                         py "B) y"]))
                (assign_all
                   (option_entries [py "Which"; py "A) x"; py "one?";
                                    py "B) y"]) PyDict.empty)
                (Regex.upper (py "B")) in
     if Question_valid q then [q] else []).
Proof.
  apply (block_parses_to_joined_text []
           [py "Which"; py "A) x"; py "one?"; py "B) y"]
           (py "ANSWER: B") (py "B")).
  - repeat constructor.
  - repeat constructor.
  - reflexivity.
Defined.

(** ** The shape of the questions [parse_file] returns *)

Lemma keys_set {V} k (v : V) d :
  PyDict.keys (PyDict.set k v d)
  = if PyDict.mem k d then PyDict.keys d else PyDict.keys d ++ [k].
Proof.
  unfold PyDict.mem, PyDict.keys.
  induction d as [|[k' v'] d IH]; simpl; [reflexivity |].
  destruct (str_eqb k k') eqn:E; simpl.
  - apply str_eqb_eq in E. subst. reflexivity.
  - rewrite IH. destruct (PyDict.get k d); reflexivity.
Qed.

(** Assignments keep the keys of a dictionary pairwise different. *)
Lemma set_NoDup {V} k (v : V) d :
  NoDup (PyDict.keys d) -> NoDup (PyDict.keys (PyDict.set k v d)).
Proof.
  intros H. rewrite keys_set. destruct (PyDict.mem k d) eqn:E; [exact H |].
  apply NoDup_app; [exact H | repeat constructor; intros [] |].
  intros a Ha [<- | []].
  apply DictFacts.mem_In in Ha. congruence.
Qed.

Lemma set_keys_Forall {V} (P : pystr -> Prop) k (v : V) d :
  P k -> Forall P (PyDict.keys d) -> Forall P (PyDict.keys (PyDict.set k v d)).
Proof.
  intros Hk H. rewrite keys_set. destruct (PyDict.mem k d); [exact H |].
  apply Forall_app. split; [exact H | repeat constructor; exact Hk].
Qed.

(** An invariant of the accumulated options that every recorded option
    keeps holds of the options of every question found. *)
Lemma scan_lines_options_invariant
  (J : PyDict.dict pystr -> Prop) (P : Question -> Prop) :
  J PyDict.empty ->
  (forall l k v d, Regex.option_pattern l = Some (k, v) -> J d ->
                   J (PyDict.set k v d)) ->
  (forall t o a q, Question_new (strip t) o a = Ok q -> J o -> P q) ->
  forall lines st,
    J (current_options st) -> Forall P (questions st) ->
    Forall P (questions (scan_lines st lines))
    /\ J (current_options (scan_lines st lines)).
Proof.
  intros J0 Jset HP. induction lines as [|l lines IH]; intros st Ho Hq; [auto |].
  simpl. apply IH.
  - unfold scan_line.
    destruct (is_empty l); [exact Ho |].
    destruct (Regex.answer_pattern l) as [g|].
    + destruct (is_empty (current_question_text st)); [exact Ho |].
      destruct (PyDict.is_empty (current_options st)); [exact Ho |].
      destruct (Question_new _ _ _); exact J0.
    + destruct (Regex.option_pattern l) as [[k v]|] eqn:E.
      * exact (Jset l k v _ E Ho).
      * destruct (is_empty (current_question_text st)); exact Ho.
  - unfold scan_line.
    destruct (is_empty l); [exact Hq |].
    destruct (Regex.answer_pattern l) as [g|].
    + destruct (is_empty (current_question_text st)); [exact Hq |].
      destruct (PyDict.is_empty (current_options st)); [exact Hq |].
      destruct (Question_new _ _ _) as [q|e] eqn:En; [| exact Hq].
      simpl. apply Forall_app. split; [exact Hq |].
      constructor; [| constructor]. exact (HP _ _ _ _ En Ho).
    + destruct (Regex.option_pattern l) as [[k v]|]; [exact Hq |].
      destruct (is_empty (current_question_text st)); exact Hq.
Qed.

Lemma option_pattern_letter line k v :
  Regex.option_pattern line = Some (k, v) -> single_letter k.
Proof.
  intros H. apply RegexFacts.option_pattern_spec in H
    as (c & d & ws & Hk & Hc & _).
  exists c. auto.
Qed.

(** The questions of a scan: trimmed text that is not empty, option keys
    that are pairwise different single letters of [A]-[Z], an answer that
    is one of them. *)
Lemma parse_lines_shape log0 lines q :
  In q (fst (parse_lines log0 lines)) ->
  trimmed (text q) /\ text q <> []
  /\ NoDup (PyDict.keys (options q))
  /\ Forall single_letter (PyDict.keys (options q))
  /\ In (answer q) (PyDict.keys (options q))
  /\ single_letter (answer q).
Proof.
  intros Hin. rewrite parse_lines_questions in Hin.
  destruct (scan_lines_options_invariant
              (fun d => NoDup (PyDict.keys d)
                        /\ Forall single_letter (PyDict.keys d))
              (fun q => trimmed (text q) /\ text q <> []
                        /\ NoDup (PyDict.keys (options q))
                        /\ Forall single_letter (PyDict.keys (options q))
                        /\ In (answer q) (PyDict.keys (options q))
                        /\ single_letter (answer q)))
    with (lines := lines) (st := scan_init log0) as [HQ _].
  - split; constructor.
  - intros l k v d Hl [H1 H2]. split.
    + apply set_NoDup. exact H1.
    + apply set_keys_Forall; [exact (option_pattern_letter l k v Hl) | exact H2].
  - intros t o a q' Hn [H1 H2].
    apply Question_new_ok in Hn as [-> Hv].
    unfold Question_valid in Hv. simpl in *.
    apply andb_true_iff in Hv as [Hv Hm].
    apply andb_true_iff in Hv as [Ht _].
    apply negb_true_iff, is_empty_false in Ht.
    apply DictFacts.mem_In in Hm.
    split; [apply strip_idempotent |].
    split; [rewrite strip_idempotent in Ht; exact Ht |].
    split; [exact H1 |]. split; [exact H2 |]. split; [exact Hm |].
    rewrite Forall_forall in H2. exact (H2 a Hm).
  - split; constructor.
  - constructor.
  - rewrite Forall_forall in HQ. exact (HQ q Hin).
Qed.

(** Every question [parse_file] returns has a text without blanks at
    either end and not empty, options keyed by pairwise different single
    letters of [A]-[Z], and an answer that is one of these letters. *)
Theorem parsed_questions_shape env qs q :
  fst (parse_file env) = Ok qs -> In q qs ->
  strip (text q) = text q /\ text q <> []
  /\ NoDup (PyDict.keys (options q))
  /\ Forall single_letter (PyDict.keys (options q))
  /\ In (answer q) (PyDict.keys (options q))
  /\ single_letter (answer q).
Proof.
  intros Hp Hin. destruct (parse_file_Ok env qs Hp) as (log0 & raw & ->).
  exact (parse_lines_shape log0 (map strip raw) q Hin).
Qed.

(** The question of the specification's scenario. *)
Lemma parsed_questions_shape_example :
  let q := mkQuestion (py "Q?") [(py "A", py "x"); (py "B", py "y")] (py "B") in
  strip (text q) = text q /\ text q <> []
  /\ NoDup (PyDict.keys (options q))
  /\ Forall single_letter (PyDict.keys (options q))
  /\ In (answer q) (PyDict.keys (options q))
  /\ single_letter (answer q).
Proof.
  apply (parsed_questions_shape example_env
           [mkQuestion (py "Q?") [(py "A", py "x"); (py "B", py "y")] (py "B")]).
  - reflexivity.
  - left. reflexivity.
Defined.

(* ================================================================== *)
(** * The choices of an item *)
(* ================================================================== *)

Lemma str_leb_total a : forall b, str_leb a b = false -> str_leb b a = true.
Proof.
  induction a as [|x a IH]; intros [|y b]; simpl; try easy.
  destruct (N.ltb_spec x y), (N.ltb_spec y x); try easy; try lia.
  apply IH.
Qed.

Lemma str_leb_trans a : forall b c,
  str_leb a b = true -> str_leb b c = true -> str_leb a c = true.
Proof.
  induction a as [|x a IH]; intros [|y b] [|z c]; simpl; try easy.
  destruct (N.ltb_spec x y), (N.ltb_spec y x), (N.ltb_spec y z),
    (N.ltb_spec z y), (N.ltb_spec x z), (N.ltb_spec z x);
    try easy; try lia.
  apply IH.
Qed.

Lemma insert_sorted_perm k l : Permutation (insert_sorted k l) (k :: l).
Proof.
  induction l as [|x l IH]; simpl; [reflexivity |].
  destruct (str_leb k x); [reflexivity |].
  apply perm_trans with (x :: k :: l); [apply perm_skip; exact IH |].
  apply perm_swap.
Qed.

Lemma sorted_perm l : Permutation (sorted l) l.
Proof.
  unfold sorted. induction l as [|x l IH]; simpl; [reflexivity |].
  apply perm_trans with (x :: fold_right insert_sorted [] l);
    [apply insert_sorted_perm | apply perm_skip; exact IH].
Qed.

Lemma insert_sorted_sorted k l :
  StronglySorted str_le l -> StronglySorted str_le (insert_sorted k l).
Proof.
  induction l as [|x l IH]; intros H; simpl.
  - repeat constructor.
  - inversion H as [|? ? Hl Hx]; subst.
    destruct (str_leb k x) eqn:E.
    + constructor; [exact H |]. constructor; [exact E |].
      apply Forall_forall. intros y Hy. rewrite Forall_forall in Hx.
      exact (str_leb_trans k x y E (Hx y Hy)).
    + constructor; [exact (IH Hl) |].
      apply Forall_forall. intros y Hy. apply In_insert_sorted in Hy.
      destruct Hy as [-> | Hy].
      * exact (str_leb_total k x E).
      * rewrite Forall_forall in Hx. exact (Hx y Hy).
Qed.

Lemma sorted_sorted l : StronglySorted str_le (sorted l).
Proof.
  unfold sorted. induction l as [|x l IH]; simpl; [constructor |].
  apply insert_sorted_sorted. exact IH.
Qed.

Lemma get_of_key {V} k (d : PyDict.dict V) :
  In k (PyDict.keys d) -> exists v, PyDict.get k d = Some v.
Proof.
  intros H. apply DictFacts.mem_In in H. unfold PyDict.mem in H.
  destruct (PyDict.get k d) as [v|]; [eauto | discriminate].
Qed.

Lemma choice_texts_tree q item_id option_ids :
  choice_texts (item_tree q item_id option_ids)
  = map (fun k => PyDict.get k (options q)) (sorted (PyDict.keys (options q))).
Proof.
  unfold choice_texts. rewrite interaction_choices_tree, map_map.
  apply map_ext_in. intros k Hk. apply (proj1 (In_sorted _ _)) in Hk.
  destruct (get_of_key k (options q) Hk) as [v Hv].
  unfold simple_choice, getitem. simpl. rewrite Hv. reflexivity.
Qed.

Lemma choice_identifiers_tree q item_id option_ids :
  choice_identifiers (item_tree q item_id option_ids)
  = map (fun k => Some (getitem option_ids k))
        (sorted (PyDict.keys (options q))).
Proof.
  unfold choice_identifiers. rewrite interaction_choices_tree, map_map.
  apply map_ext. intros k. reflexivity.
Qed.

(** Whatever the order of the option lines in the file, the item document
    lists the options in the order [sorted] puts their letters in: the
    choices are the options, each once, by ascending letter, each with the
    text of its option and with the identifier drawn for its letter. *)
Theorem choices_in_letter_order (rt : Runtime) q item_id w :
  exists option_ids,
    fst (generate_item_xml q item_id w)
    = minidom_pretty (tostring (item_tree q item_id option_ids))
    /\ Permutation (sorted (PyDict.keys (options q)))
                   (PyDict.keys (options q))
    /\ StronglySorted str_le (sorted (PyDict.keys (options q)))
    /\ choice_texts (item_tree q item_id option_ids)
       = map (fun k => PyDict.get k (options q))
             (sorted (PyDict.keys (options q)))
    /\ choice_identifiers (item_tree q item_id option_ids)
       = map (fun k => PyDict.get k option_ids)
             (sorted (PyDict.keys (options q)))
    /\ Forall (fun k => exists n,
                 PyDict.get k option_ids = Some (choice_id k (uuid4_hex n)))
              (sorted (PyDict.keys (options q))).
Proof.
  destruct (generate_item_xml_ids q item_id w) as (ids & w1 & Hids & Hg).
  assert (Hget : forall k, In k (sorted (PyDict.keys (options q))) ->
                 exists n, PyDict.get k ids = Some (choice_id k (uuid4_hex n))).
  { intros k Hk. apply (proj1 (In_sorted _ _)) in Hk.
    exact (make_option_ids_get k _ _ _ _ _ Hids (or_introl Hk)). }
  exists ids. split; [rewrite Hg; reflexivity |].
  split; [apply sorted_perm |]. split; [apply sorted_sorted |].
  split; [apply choice_texts_tree |]. split.
  - rewrite choice_identifiers_tree. apply map_ext_in. intros k Hk.
    destruct (Hget k Hk) as [n Hn]. unfold getitem. rewrite Hn. reflexivity.
  - apply Forall_forall. exact Hget.
Qed.

Lemma choice_id_letter c1 c2 h1 h2 :
  choice_id [c1] h1 = choice_id [c2] h2 -> c1 = c2.
Proof.
  unfold choice_id. intros H. apply app_inv_head in H.
  simpl in H. congruence.
Qed.

(** The choices of an item have pairwise different identifiers, whatever
    [uuid4] returns: the letter of the option is part of the identifier.
    This is so for options keyed by single letters, as those of a parsed
    question are. *)
Theorem choice_identifiers_distinct (rt : Runtime) q item_id w :
  NoDup (PyDict.keys (options q)) ->
  Forall single_letter (PyDict.keys (options q)) ->
  exists option_ids,
    fst (generate_item_xml q item_id w)
    = minidom_pretty (tostring (item_tree q item_id option_ids))
    /\ NoDup (choice_identifiers (item_tree q item_id option_ids))
    /\ length (choice_identifiers (item_tree q item_id option_ids))
       = PyDict.len (options q).
Proof.
  intros Hnd Hsl.
  destruct (generate_item_xml_ids q item_id w) as (ids & w1 & Hids & Hg).
  exists ids. split; [rewrite Hg; reflexivity |].
  rewrite choice_identifiers_tree.
  pose proof (sorted_perm (PyDict.keys (options q))) as Hp.
  split.
  - apply NoDup_map_NoDup_ForallPairs.
    + intros k1 k2 H1 H2 E.
      apply (proj1 (In_sorted _ _)) in H1.
      apply (proj1 (In_sorted _ _)) in H2.
      destruct (make_option_ids_get k1 _ _ _ _ _ Hids (or_introl H1))
        as [n1 G1].
      destruct (make_option_ids_get k2 _ _ _ _ _ Hids (or_introl H2))
        as [n2 G2].
      unfold getitem in E. rewrite G1, G2 in E.
      rewrite Forall_forall in Hsl.
      destruct (Hsl k1 H1) as (c1 & -> & _).
      destruct (Hsl k2 H2) as (c2 & -> & _).
      assert (Hc : c1 = c2)
        by (apply (choice_id_letter c1 c2 (uuid4_hex n1) (uuid4_hex n2));
            congruence).
      congruence.
    + exact (Permutation_NoDup (Permutation_sym Hp) Hnd).
  - rewrite length_map, (Permutation_length Hp).
    unfold PyDict.keys, PyDict.len. apply length_map.
Qed.

(** The two choices of the first question of the package test. *)
Lemma choice_identifiers_distinct_example :
  exists option_ids,
    fst (@generate_item_xml reference_runtime
           (mkQuestion (py "Question 1")
              [(py "A", py "Opt 1"); (py "B", py "Opt 2")] (py "A"))
           (py "ITEM_1") world0)
    = @minidom_pretty reference_runtime
        (tostring
           (item_tree
              (mkQuestion (py "Question 1")
                 [(py "A", py "Opt 1"); (py "B", py "Opt 2")] (py "A"))
              (py "ITEM_1") option_ids))
    /\ NoDup (choice_identifiers
                (item_tree
                   (mkQuestion (py "Question 1")
                      [(py "A", py "Opt 1"); (py "B", py "Opt 2")] (py "A"))
                   (py "ITEM_1") option_ids))
    /\ length (choice_identifiers
                 (item_tree
                    (mkQuestion (py "Question 1")
                       [(py "A", py "Opt 1"); (py "B", py "Opt 2")] (py "A"))
                    (py "ITEM_1") option_ids))
       = 2.
Proof.
  apply (choice_identifiers_distinct reference_runtime
           (mkQuestion (py "Question 1")
              [(py "A", py "Opt 1"); (py "B", py "Opt 2")] (py "A"))
           (py "ITEM_1") world0).
  - repeat constructor; simpl; intuition discriminate.
  - repeat constructor; eexists; (split; [reflexivity | reflexivity]).
Defined.

(* ================================================================== *)
(** * The name of the archive *)
(* ================================================================== *)

Lemma startswith_app p : forall s, startswith (p ++ s) p = true.
Proof.
  induction p as [|c p IH]; intros s; simpl; [destruct s; reflexivity |].
  unfold char_eqb. rewrite N.eqb_refl. apply IH.
Qed.

Lemma endswith_app s t : endswith (s ++ t) t = true.
Proof.
  unfold endswith. rewrite rev_app_distr. apply startswith_app.
Qed.

(** The archive [build_package] writes has a name that ends in [.zip]: the
    output name itself when it ends so, the output name followed by [.zip]
    otherwise.  No archive of another name is touched.  When the path lies
    outside the staging directory, the archive is there after the return,
    in the place of an archive of that name; when it lies inside, it is
    removed with the staging directory: the path is returned and no
    archive is there. *)
Theorem build_package_archive_name
  (rt : Runtime) questions output_filename w out w' :
  build_package questions output_filename w = (Ok out, w') ->
  endswith out (py ".zip") = true
  /\ (endswith output_filename (py ".zip") = true -> out = output_filename)
  /\ (endswith output_filename (py ".zip") = false ->
      out = output_filename ++ py ".zip")
  /\ (forall name, name <> out ->
        PyDict.get name (archives w') = PyDict.get name (archives w))
  /\ (placement_of out = Outside ->
      PyDict.mem out (archives w') = true
      /\ archive_exists out w' = true
      /\ PyDict.keys (archives w')
         = (if PyDict.mem out (archives w) then PyDict.keys (archives w)
            else PyDict.keys (archives w) ++ [out]))
  /\ (forall member, placement_of out = Inside member ->
      archives w' = archives w /\ archive_exists out w' = false).
Proof.
  intros H.
  pose proof (archive_exists_after_build _ _ _ _ _ H) as Hex.
  destruct (build_package_spec questions output_filename w out w' H)
    as (ids & cs & hex & mc & _ & _ & _ & _ & _ & Ho & _ & Ha).
  cbv zeta in Ha. unfold archive_name in Ho.
  split.
  { rewrite Ho. destruct (endswith output_filename (py ".zip")) eqn:E;
      [exact E | apply endswith_app]. }
  split; [intros E; rewrite Ho, E; reflexivity |].
  split; [intros E; rewrite Ho, E; reflexivity |].
  split.
  { intros name Hne. destruct (placement_of out).
    - rewrite Ha. apply DictFacts.get_set_other. exact Hne.
    - rewrite Ha. reflexivity. }
  split.
  - intros Hp. rewrite Hp in Ha, Hex.
    split; [rewrite Ha; unfold PyDict.mem; rewrite DictFacts.get_set_same;
            reflexivity |].
    split; [exact Hex |]. rewrite Ha. apply keys_set.
  - intros member Hp. rewrite Hp in Ha, Hex. auto.
Qed.

(** The package test: the name [test_package] gets the extension. *)
Lemma build_package_archive_name_example :
  endswith (py "test_package.zip") (py ".zip") = true
  /\ PyDict.keys (archives (snd example_build)) = [py "test_package.zip"].
Proof.
  assert (H : @build_package reference_runtime example_questions
                (py "test_package") world0
              = (Ok (py "test_package.zip"), snd example_build))
    by (vm_compute; reflexivity).
  destruct (build_package_archive_name reference_runtime example_questions
              (py "test_package") world0 _ _ H)
    as (E & _ & _ & _ & K & _).
  destruct (K eq_refl) as (_ & _ & K').
  split; [exact E | exact K'].
Defined.

(* ================================================================== *)
(** * Files and encodings *)
(* ================================================================== *)

(** A regular file is always parsed: bytes that are not UTF-8 are read
    as Latin-1, which accepts every byte. *)
Lemma parse_file_regular bytes :
  exists log0 raw,
    parse_file (file_env_of (Some (RegularFile bytes)))
    = (Ok (fst (parse_lines log0 (map strip raw))),
       snd (parse_lines log0 (map strip raw)))
    /\ ((exists s, utf8_decode bytes = Some s /\ raw = readlines s
                   /\ log0 = [Info_parsing])
        \/ (utf8_decode bytes = None /\ raw = readlines (latin1_decode bytes)
            /\ log0 = [Info_parsing; Error_encoding_try_latin1])).
Proof.
  unfold parse_file, file_env_of. cbn [path_exists read_utf8 read_latin1 negb].
  destruct (utf8_decode bytes) as [s|] eqn:E.
  - exists [Info_parsing], (readlines s).
    destruct (parse_lines [Info_parsing] (map strip (readlines s))).
    split; [reflexivity |]. left. eauto.
  - exists [Info_parsing; Error_encoding_try_latin1],
      (readlines (latin1_decode bytes)).
    destruct (parse_lines [Info_parsing; Error_encoding_try_latin1]
                (map strip (readlines (latin1_decode bytes)))).
    split; [reflexivity |]. right. auto.
Qed.

Lemma questions_of_regular bytes :
  exists qs, questions_of (Some (RegularFile bytes)) = Ok qs.
Proof.
  destruct (parse_file_regular bytes) as (log0 & raw & E & _).
  unfold questions_of. rewrite E. cbn [fst]. eauto.
Qed.

(** A file that is not UTF-8 is not refused: [parse_file] reads it as
    Latin-1, every byte as the character of its value, and records the
    error of the first attempt; no regular file makes [parse_file]
    raise. *)
Theorem undecodable_file_read_as_latin1 bytes :
  utf8_decode bytes = None ->
  parse_file (file_env_of (Some (RegularFile bytes)))
  = (Ok (fst (parse_lines [Info_parsing; Error_encoding_try_latin1]
                (map strip (readlines bytes)))),
     snd (parse_lines [Info_parsing; Error_encoding_try_latin1]
            (map strip (readlines bytes))))
  /\ forall other, raises (questions_of (Some (RegularFile other))) = false.
Proof.
  intros H. split.
  - destruct (parse_file_regular bytes) as (log0 & raw & E & [D | D]).
    + destruct D as (s & D & _). congruence.
    + destruct D as (_ & -> & ->). exact E.
  - intros other. destruct (questions_of_regular other) as [qs ->].
    reflexivity.
Qed.

(** A question and its options in Latin-1. *)
Lemma undecodable_file_example :
  parse_file (file_env_of (Some (RegularFile latin1_bytes)))
  = (Ok (fst (parse_lines [Info_parsing; Error_encoding_try_latin1]
                (map strip (readlines latin1_bytes)))),
     snd (parse_lines [Info_parsing; Error_encoding_try_latin1]
            (map strip (readlines latin1_bytes))))
  /\ forall other, raises (questions_of (Some (RegularFile other))) = false.
Proof.
  apply (undecodable_file_read_as_latin1 latin1_bytes).
  vm_compute. reflexivity.
Defined.

(* ================================================================== *)
(** * The command line *)
(* ================================================================== *)

(** The sample can be encoded on both platforms, and reading the bytes
    back gives its lines. *)
Lemma sample_encoded os :
  exists bytes,
    utf8_encode (write_newlines (linesep os) sample_content) = Some bytes
    /\ bytes <> []
    /\ utf8_decode bytes = Some (write_newlines (linesep os) sample_content)
    /\ readlines (write_newlines (linesep os) sample_content)
       = map nl sample_lines.
Proof.
  exists (match utf8_encode (write_newlines (linesep os) sample_content) with
          | Some bytes => bytes
          | None => []
          end).
  destruct os.
  - split; [vm_compute; reflexivity |].
    split; [vm_compute; discriminate |].
    split; vm_compute; reflexivity.
  - split; [vm_compute; reflexivity |].
    split; [vm_compute; discriminate |].
    split; vm_compute; reflexivity.
Qed.

Lemma create_sample_file_spec {rt : Runtime} os p fs :
  ((PyDict.get p fs = Some Directory \/ sample_refused p fs <> None)
   /\ exists e fs',
       create_sample_file os p fs = (Raise e, fs')
       /\ forall name, name <> p -> PyDict.get name fs' = PyDict.get name fs)
  \/ (PyDict.get p fs <> Some Directory
      /\ sample_refused p fs = None
      /\ exists bytes,
          create_sample_file os p fs
          = (Ok tt, PyDict.set p (RegularFile bytes) fs)
          /\ bytes <> []
          /\ utf8_decode bytes
             = Some (write_newlines (linesep os) sample_content)).
Proof.
  destruct (sample_encoded os) as (bytes & E & Hne & D & _).
  unfold create_sample_file. rewrite E.
  assert (R : forall e (remains : option node),
            exists e' fs',
              (Raise e,
               match remains with
               | Some n => PyDict.set p n fs
               | None => fs
               end) = (@Raise unit e', fs')
              /\ forall name, name <> p ->
                   PyDict.get name fs' = PyDict.get name fs).
  { intros e remains. eexists. eexists. split; [reflexivity |].
    intros name Hn. destruct remains; [| reflexivity].
    apply DictFacts.get_set_other. exact Hn. }
  destruct (PyDict.get p fs) as [[c|]|].
  - destruct (sample_refused p fs) as [[e remains]|] eqn:S.
    + left. split; [right; discriminate | apply R].
    + right. split; [discriminate |]. split; [reflexivity | eauto].
  - left. split; [left; reflexivity |].
    exists OSError, fs. split; reflexivity.
  - destruct (sample_refused p fs) as [[e remains]|] eqn:S.
    + left. split; [right; discriminate | apply R].
    + right. split; [discriminate |]. split; [reflexivity | eauto].
Qed.

Section MainFacts.

Context {rt : Runtime}.

Lemma main_cases os args s : main_case os args s (main os args s).
Proof.
  unfold main. cbv zeta.
  destruct (given (create_sample args)) as [sp|] eqn:Gs.
  - destruct (create_sample_file_spec os sp (files s))
      as [(Hd & e & fs' & -> & Hfr)
         | (Hd & Hrf & bytes & -> & Hne & Hdec)].
    + exact (Sample_refused os args s sp e fs' Gs Hd Hfr).
    + exact (Sample_written os args s sp bytes Gs Hd Hrf Hne Hdec).
  - destruct (given (input_file args)) as [ip|] eqn:Gi.
    2: exact (No_input os args s Gs Gi).
    destruct (validate_input_file (PyDict.get ip (files s))) as [[]|e] eqn:Ev.
    2: exact (Input_refused os args s ip e Gs Gi Ev).
    destruct (PyDict.get ip (files s)) as [[bytes|]|] eqn:Ef;
      [| discriminate | discriminate].
    assert (Hne : bytes <> []).
    { intros ->. discriminate. }
    destruct (parse_file (file_env_of (Some (RegularFile bytes))))
      as [parsed lg] eqn:Ep.
    destruct (parse_file_regular bytes) as (log0 & raw & E & _).
    rewrite E in Ep. apply pair_equal_spec in Ep as [Ep1 Ep2].
    subst parsed. rewrite <- Ep2.
    destruct (fst (parse_lines log0 (map strip raw))) as [|q qs] eqn:Eq.
    + apply (No_questions os args s ip bytes _ Gs Gi Ef Hne).
      rewrite E; try rewrite Eq; reflexivity.
    + assert (Ep : parse_file (file_env_of (Some (RegularFile bytes)))
                   = (Ok (q :: qs), snd (parse_lines log0 (map strip raw))))
        by (rewrite E; try rewrite Eq; reflexivity).
      destruct (validate_only args) eqn:Ev'.
      * exact (Validated os args s ip bytes q qs _ Gs Gi Ef Hne Ep Ev').
      * destruct (build_package (q :: qs) (output args) (cwd s))
          as [[out|e] w'] eqn:Eb.
        -- destruct (archive_exists out w') eqn:Hex.
           ++ exact (Converted os args s ip bytes q qs _ out w'
                       Gs Gi Ef Hne Ep Ev' Eb Hex).
           ++ exact (Archive_missing os args s ip bytes q qs _ out w'
                       Gs Gi Ef Hne Ep Ev' Eb Hex).
        -- exact (Conversion_failed os args s ip bytes q qs _ e w'
                    Gs Gi Ef Hne Ep Ev' Eb).
Qed.

(** The archive of a run that returned is there exactly when its path
    lies outside the staging directory. *)
Lemma archive_exists_iff questions output_filename w out w' :
  build_package questions output_filename w = (Ok out, w') ->
  archive_exists out w' = true <-> placement_of out = Outside.
Proof.
  intros H. rewrite (archive_exists_after_build _ _ _ _ _ H).
  destruct (placement_of out); split; congruence.
Qed.

End MainFacts.

Lemma questions_of_parse n qs lg :
  parse_file (file_env_of n) = (Ok qs, lg) -> questions_of n = Ok qs.
Proof.
  intros H. unfold questions_of. rewrite H. reflexivity.
Qed.

Lemma validate_input_file_Ok n :
  validate_input_file n = Ok tt <->
  exists bytes, n = Some (RegularFile bytes) /\ bytes <> [].
Proof.
  split.
  - destruct n as [[[|b bytes]|]|]; simpl; try discriminate.
    intros _. exists (b :: bytes). split; [reflexivity | discriminate].
  - intros ([|b bytes] & -> & Hne); [congruence | reflexivity].
Qed.

(** The exit status of the program.  It is 2 exactly when neither a sample
    name nor an input file is given; with a sample name it is 0 exactly
    when the name is not that of a directory and the file system does not
    refuse the file; for a conversion it is 0 exactly when the input is a
    regular file that is not empty, at least one question is found in it
    and, unless only validation is asked for, [build_package] returns and
    the archive lies outside the staging directory; it is 1 in every other
    case. *)
Theorem main_exit_status (rt : Runtime) os args s :
  (exit_status (outcome (main os args s)) = 0
   \/ exit_status (outcome (main os args s)) = 1
   \/ exit_status (outcome (main os args s)) = 2)%Z
  /\ (exit_status (outcome (main os args s)) = 2%Z <->
      given (create_sample args) = None /\ given (input_file args) = None)
  /\ (forall p, given (create_sample args) = Some p ->
      (exit_status (outcome (main os args s)) = 0%Z <->
       PyDict.get p (files s) <> Some Directory
       /\ sample_refused p (files s) = None))
  /\ (given (create_sample args) = None ->
      (exit_status (outcome (main os args s)) = 0%Z <->
       exists p bytes q qs,
         given (input_file args) = Some p
         /\ PyDict.get p (files s) = Some (RegularFile bytes)
         /\ bytes <> []
         /\ questions_of (Some (RegularFile bytes)) = Ok (q :: qs)
         /\ (validate_only args = true
             \/ exists out w',
                 build_package (q :: qs) (output args) (cwd s) = (Ok out, w')
                 /\ placement_of out = Outside))).
Proof.
  destruct (main_cases os args s)
    as [p bytes Gs Hd Hrf Hne Hdec | p e fs' Gs Hd Hfr | Gs Gi
        | p e Gs Gi Ev
        | p bytes lg Gs Gi Ef Hne Ep | p bytes q qs lg Gs Gi Ef Hne Ep Hv
        | p bytes q qs lg out w' Gs Gi Ef Hne Ep Hv Eb Hex
        | p bytes q qs lg out w' Gs Gi Ef Hne Ep Hv Eb Hex
        | p bytes q qs lg e w' Gs Gi Ef Hne Ep Hv Eb];
    cbn [outcome exit_status].
  - split; [auto |]. split; [split; [discriminate | intros [G _]; congruence] |].
    split; [| congruence].
    intros p' Gp. assert (p' = p) by congruence. subst p'. tauto.
  - split; [auto |]. split; [split; [discriminate | intros [G _]; congruence] |].
    split; [| congruence].
    intros p' Gp. assert (p' = p) by congruence. subst p'.
    split; [discriminate |]. intros [H1 H2]. destruct Hd; contradiction.
  - split; [auto |]. split; [tauto |].
    split; [congruence |]. intros _.
    split; [discriminate | intros (p & _ & _ & _ & G & _); congruence].
  - split; [auto |]. split; [split; [discriminate | intros [_ G]; congruence] |].
    split; [congruence |]. intros _.
    split; [discriminate |].
    intros (p' & bytes & _ & _ & G & Ef & Hne & _).
    assert (p' = p) by congruence. subst p'.
    assert (Hok : validate_input_file (PyDict.get p (files s)) = Ok tt)
      by (apply validate_input_file_Ok; eauto).
    congruence.
  - split; [auto |]. split; [split; [discriminate | intros [_ G]; congruence] |].
    split; [congruence |]. intros _.
    split; [discriminate |].
    intros (p' & bytes' & q & qs & G & Ef' & _ & Hq & _).
    assert (p' = p) by congruence. subst p'.
    assert (bytes' = bytes) by congruence. subst bytes'.
    rewrite (questions_of_parse _ _ _ Ep) in Hq. discriminate.
  - split; [auto |]. split; [split; [discriminate | intros [_ G]; congruence] |].
    split; [congruence |]. intros _.
    split; [intros _ | reflexivity].
    exists p, bytes, q, qs.
    rewrite (questions_of_parse _ _ _ Ep).
    repeat (split; [assumption || reflexivity |]). left. exact Hv.
  - split; [auto |]. split; [split; [discriminate | intros [_ G]; congruence] |].
    split; [congruence |]. intros _.
    split; [intros _ | reflexivity].
    exists p, bytes, q, qs.
    rewrite (questions_of_parse _ _ _ Ep).
    repeat (split; [assumption || reflexivity |]). right.
    exists out, w'. split; [exact Eb |].
    apply (archive_exists_iff _ _ _ _ _ Eb). exact Hex.
  - split; [auto |]. split; [split; [discriminate | intros [_ G]; congruence] |].
    split; [congruence |]. intros _.
    split; [discriminate |].
    intros (p' & bytes' & q' & qs' & G & Ef' & _ & Hq & Hb).
    assert (p' = p) by congruence. subst p'.
    assert (bytes' = bytes) by congruence. subst bytes'.
    rewrite (questions_of_parse _ _ _ Ep) in Hq.
    injection Hq as <- <-.
    destruct Hb as [Hb | (out' & w'' & Eb' & Hp)]; [congruence |].
    rewrite Eb in Eb'. injection Eb' as <- <-.
    apply (archive_exists_iff _ _ _ _ _ Eb) in Hp. congruence.
  - split; [auto |]. split; [split; [discriminate | intros [_ G]; congruence] |].
    split; [congruence |]. intros _.
    split; [discriminate |].
    intros (p' & bytes' & q' & qs' & G & Ef' & _ & Hq & Hb).
    assert (p' = p) by congruence. subst p'.
    assert (bytes' = bytes) by congruence. subst bytes'.
    rewrite (questions_of_parse _ _ _ Ep) in Hq.
    injection Hq as <- <-.
    destruct Hb as [Hb | (out' & w'' & Eb' & Hp)]; congruence.
Qed.

(** A run that does not end with status 0 touches no archive but the one
    named by the output name; when the file system refuses nothing, it
    leaves the archives of the current directory as they were - the
    documents are all rendered before the archive is opened - and the
    staging directory as it was, or removed.  (When the file system
    refuses a step of the writing of the archive, what was written of it
    stays.) *)
Theorem failed_run_leaves_no_archive (rt : Runtime) os args s :
  exit_status (outcome (main os args s)) <> 0%Z ->
  (forall name, name <> archive_name (output args) ->
     PyDict.get name (archives (cwd (after (main os args s))))
     = PyDict.get name (archives (cwd s)))
  /\ (file_system_willing ->
      archives (cwd (after (main os args s))) = archives (cwd s)
      /\ (temp_dir (cwd (after (main os args s))) = temp_dir (cwd s)
          \/ temp_dir (cwd (after (main os args s))) = None)).
Proof.
  destruct (main_cases os args s)
    as [p bytes Gs Hd Hrf Hne Hdec | p e fs' Gs Hd Hfr | Gs Gi
        | p e Gs Gi Ev
        | p bytes lg Gs Gi Ef Hne Ep | p bytes q qs lg Gs Gi Ef Hne Ep Hv
        | p bytes q qs lg out w' Gs Gi Ef Hne Ep Hv Eb Hex
        | p bytes q qs lg out w' Gs Gi Ef Hne Ep Hv Eb Hex
        | p bytes q qs lg e w' Gs Gi Ef Hne Ep Hv Eb];
    cbn [outcome exit_status after cwd files]; intros Hs;
    try (exfalso; apply Hs; reflexivity);
    try (split; [reflexivity | intros _; split; [reflexivity |];
                               left; reflexivity]).
  - pose proof (archive_exists_after_build _ _ _ _ _ Eb) as Hx.
    rewrite Hex in Hx.
    destruct (build_package_spec _ _ _ _ _ Eb)
      as (ids & cs & hex & mc & _ & _ & _ & _ & _ & _ & Ht & Ha).
    cbv zeta in Ha.
    destruct (placement_of out); [discriminate |].
    split; [intros name _; rewrite Ha; reflexivity |].
    intros _. split; [exact Ha | right; exact Ht].
  - destruct (build_package_raise _ _ _ _ _ Eb) as (_ & F & W).
    split; [exact F |].
    intros Hw. destruct (W Hw) as (_ & Ht & Ha).
    split; [exact Ha | right; exact Ht].
Qed.

(** The file whose question holds U+0001: the conversion fails, and no
    archive is there. *)
Lemma failed_run_example :
  (forall name, name <> archive_name (output example_args) ->
     PyDict.get name
       (archives (cwd (after (@main reference_runtime Posix example_args
                                example_system))))
     = PyDict.get name (archives (cwd example_system)))
  /\ archives (cwd (after (@main reference_runtime Posix example_args
                             example_system)))
     = archives (cwd example_system)
  /\ (temp_dir (cwd (after (@main reference_runtime Posix example_args
                              example_system)))
      = temp_dir (cwd example_system)
      \/ temp_dir (cwd (after (@main reference_runtime Posix example_args
                                 example_system))) = None).
Proof.
  assert (H : exit_status (outcome (@main reference_runtime Posix
                                      example_args example_system)) <> 0%Z)
    by (vm_compute; discriminate).
  destruct (failed_run_leaves_no_archive reference_runtime Posix
              example_args example_system H) as [F W].
  split; [exact F | exact (W reference_file_system_willing)].
Defined.

(** A validation run writes nothing: the files and the current directory
    are as before, whatever the file holds.  When it ends with status 0 it
    has printed the number of questions and one line for each, numbered
    from 1 in the order of the file, with the text cut after 60
    characters. *)
Theorem validate_only_writes_nothing (rt : Runtime) os args s :
  given (create_sample args) = None ->
  validate_only args = true ->
  files (after (main os args s)) = files s
  /\ cwd (after (main os args s)) = cwd s
  /\ (exit_status (outcome (main os args s)) = 0%Z ->
      exists p qs before,
        given (input_file args) = Some p
        /\ questions_of (PyDict.get p (files s)) = Ok qs
        /\ events (main os args s)
           = before ++ Print_found (length qs) :: Print_validated
                    :: print_questions 1 qs).
Proof.
  intros Hc Hvo.
  destruct (main_cases os args s)
    as [p bytes Gs Hd Hrf Hne Hdec | p e fs' Gs Hd Hfr | Gs Gi
        | p e Gs Gi Ev
        | p bytes lg Gs Gi Ef Hne Ep | p bytes q qs lg Gs Gi Ef Hne Ep Hv
        | p bytes q qs lg out w' Gs Gi Ef Hne Ep Hv Eb Hex
        | p bytes q qs lg out w' Gs Gi Ef Hne Ep Hv Eb Hex
        | p bytes q qs lg e w' Gs Gi Ef Hne Ep Hv Eb];
    cbn [outcome exit_status after cwd files events];
    try congruence;
    (split; [reflexivity | split; [reflexivity |]]);
    try (intros Hs; discriminate).
  intros _. exists p, (q :: qs), (Info_starting :: map Logged lg).
  split; [exact Gi |]. split.
  - rewrite Ef. exact (questions_of_parse _ _ _ Ep).
  - reflexivity.
Qed.

(** The file in Latin-1, validated. *)
Lemma validate_only_example :
  let s := mkSystem [(py "in.txt", RegularFile latin1_bytes)] world0
                    fresh_logging in
  let args := mkArgs (Some (py "in.txt")) default_output None false true in
  files (after (@main reference_runtime Posix args s)) = files s
  /\ cwd (after (@main reference_runtime Posix args s)) = cwd s
  /\ (exit_status (outcome (@main reference_runtime Posix args s)) = 0%Z ->
      exists p qs before,
        given (input_file args) = Some p
        /\ questions_of (PyDict.get p (files s)) = Ok qs
        /\ events (@main reference_runtime Posix args s)
           = before ++ Print_found (length qs) :: Print_validated
                    :: print_questions 1 qs).
Proof.
  apply (validate_only_writes_nothing reference_runtime Posix
           (mkArgs (Some (py "in.txt")) default_output None false true)
           (mkSystem [(py "in.txt", RegularFile latin1_bytes)] world0
                     fresh_logging)).
  - reflexivity.
  - reflexivity.
Defined.

(** With a sample name the program does nothing but write the sample: the
    input file, the output name and the validation flag are not looked
    at, the current directory is untouched, and only the named file can
    change.  When the run ends with status 0 the file holds the sample;
    when the name is that of a directory the run ends with status 1 and
    nothing has changed. *)
Theorem create_sample_takes_priority (rt : Runtime) os args s p :
  given (create_sample args) = Some p ->
  (forall input out vo,
      main os (mkArgs input out (create_sample args) (verbose args) vo) s
      = main os args s)
  /\ cwd (after (main os args s)) = cwd s
  /\ (forall name, name <> p ->
        PyDict.get name (files (after (main os args s)))
        = PyDict.get name (files s))
  /\ (exit_status (outcome (main os args s)) = 0%Z ->
      exists bytes,
        PyDict.get p (files (after (main os args s)))
        = Some (RegularFile bytes)
        /\ utf8_decode bytes
           = Some (write_newlines (linesep os) sample_content))
  /\ (PyDict.get p (files s) = Some Directory ->
      exit_status (outcome (main os args s)) = 1%Z
      /\ files (after (main os args s)) = files s).
Proof.
  intros G. split.
  { intros input out vo. unfold main. cbn [create_sample verbose].
    rewrite G. reflexivity. }
  assert (Hdir : PyDict.get p (files s) = Some Directory ->
                 exit_status (outcome (main os args s)) = 1%Z
                 /\ files (after (main os args s)) = files s).
  { intros Hd. unfold main. cbv zeta. rewrite G.
    unfold create_sample_file. rewrite Hd. split; reflexivity. }
  destruct (main_cases os args s)
    as [p' bytes Gs Hd Hrf Hne Hdec | p' e fs' Gs Hd Hfr | Gs Gi
        | p' e Gs Gi Ev
        | p' bytes lg Gs Gi Ef Hne Ep | p' bytes q qs lg Gs Gi Ef Hne Ep Hv
        | p' bytes q qs lg out w' Gs Gi Ef Hne Ep Hv Eb Hex
        | p' bytes q qs lg out w' Gs Gi Ef Hne Ep Hv Eb Hex
        | p' bytes q qs lg e w' Gs Gi Ef Hne Ep Hv Eb];
    cbn [after cwd files outcome exit_status] in *; try congruence;
    assert (p' = p) by congruence; subst p'.
  - split; [reflexivity |]. split.
    + intros name Hn. apply DictFacts.get_set_other. exact Hn.
    + split; [| exact Hdir].
      intros _. exists bytes.
      split; [apply DictFacts.get_set_same | exact Hdec].
  - split; [reflexivity |]. split; [exact Hfr |].
    split; [discriminate | exact Hdir].
Qed.

(** A sample asked for together with an input file and validation. *)
Lemma create_sample_example :
  let args := mkArgs (Some (py "in.txt")) default_output
                     (Some (py "sample.txt")) false true in
  (forall input out vo,
      @main reference_runtime Windows
            (mkArgs input out (create_sample args) (verbose args) vo)
            example_system
      = @main reference_runtime Windows args example_system)
  /\ cwd (after (@main reference_runtime Windows args example_system))
     = cwd example_system
  /\ (forall name, name <> py "sample.txt" ->
        PyDict.get name
          (files (after (@main reference_runtime Windows args example_system)))
        = PyDict.get name (files example_system))
  /\ (exit_status
        (outcome (@main reference_runtime Windows args example_system))
      = 0%Z ->
      exists bytes,
        PyDict.get (py "sample.txt")
          (files (after (@main reference_runtime Windows args example_system)))
        = Some (RegularFile bytes)
        /\ utf8_decode bytes
           = Some (write_newlines (linesep Windows) sample_content))
  /\ (PyDict.get (py "sample.txt") (files example_system) = Some Directory ->
      exit_status
        (outcome (@main reference_runtime Windows args example_system))
      = 1%Z
      /\ files (after (@main reference_runtime Windows args example_system))
         = files example_system).
Proof.
  apply (create_sample_takes_priority reference_runtime Windows
           (mkArgs (Some (py "in.txt")) default_output
                   (Some (py "sample.txt")) false true)
           example_system (py "sample.txt")).
  reflexivity.
Defined.

(** The lines of the sample parse to five valid questions. *)
Lemma sample_parses :
  exists qs lg,
    parse_lines [Info_parsing] (map strip (map nl sample_lines)) = (qs, lg)
    /\ qs <> []
    /\ map text qs = sample_texts
    /\ map answer qs = sample_answers
    /\ Forall (fun q => PyDict.keys (options q) = sample_letters) qs
    /\ map (fun q => PyDict.get (py "C") (options q)) qs
       = map (fun l => Some (skipn 3 (strip l)))
             (map (fun i => nth i sample_lines []) [3; 10; 17; 24; 31]).
Proof.
  exists (fst (parse_lines [Info_parsing] (map strip (map nl sample_lines)))),
    (snd (parse_lines [Info_parsing] (map strip (map nl sample_lines)))).
  split; [apply surjective_pairing |].
  split; [vm_compute; discriminate |].
  split; [vm_compute; reflexivity |].
  split; [vm_compute; reflexivity |].
  split; [| vm_compute; reflexivity].
  vm_compute. repeat constructor.
Qed.

(** A validation run on a regular file in which questions are found. *)
Lemma validate_run_ok {rt : Runtime} os p out vb s1 bytes q qs lg :
  p <> [] ->
  PyDict.get p (files s1) = Some (RegularFile bytes) ->
  bytes <> [] ->
  parse_file (file_env_of (Some (RegularFile bytes))) = (Ok (q :: qs), lg) ->
  outcome (main os (mkArgs (Some p) out None vb true) s1) = Return 0.
Proof.
  intros Hp Hget Hne Hparse. unfold main.
  cbn [create_sample input_file validate_only verbose given].
  destruct p as [|c p]; [congruence |]. rewrite Hget.
  destruct bytes as [|b bytes]; [congruence |].
  cbn [validate_input_file length Nat.eqb]. rewrite Hparse. reflexivity.
Qed.

(** The sample the program writes is an input it accepts: after a run
    with a sample name that ended with status 0 - the sample was written -
    on either platform, [parse_file] finds in the file written the five
    questions of the sample, each with the options [A] to [D] and the
    answer of its ANSWER line, and a validation run on that file ends with
    status 0. *)
Theorem sample_file_round_trip (rt : Runtime) os args s p :
  given (create_sample args) = Some p ->
  exit_status (outcome (main os args s)) = 0%Z ->
  exists qs,
    questions_of (PyDict.get p (files (after (main os args s)))) = Ok qs
    /\ map text qs = sample_texts
    /\ map answer qs = sample_answers
    /\ Forall (fun q => PyDict.keys (options q) = sample_letters) qs
    /\ map (fun q => PyDict.get (py "C") (options q)) qs
       = map (fun l => Some (skipn 3 (strip l)))
             (map (fun i => nth i sample_lines []) [3; 10; 17; 24; 31])
    /\ forall out vb,
        outcome (main os (mkArgs (Some p) out None vb true)
                      (after (main os args s)))
        = Return 0.
Proof.
  intros G Hs.
  assert (Hp0 : p <> []).
  { intros ->. destruct (create_sample args) as [[|c t]|]; discriminate. }
  destruct (main_cases os args s)
    as [p' bytes Gs Hd' Hrf Hne' Hdec | p' e fs' Gs Hd' Hfr | Gs Gi
        | p' e Gs Gi Ev
        | p' bytes lg' Gs Gi Ef Hne' Ep
        | p' bytes q' qs' lg' Gs Gi Ef Hne' Ep Hv
        | p' bytes q' qs' lg' out w' Gs Gi Ef Hne' Ep Hv Eb Hex
        | p' bytes q' qs' lg' out w' Gs Gi Ef Hne' Ep Hv Eb Hex
        | p' bytes q' qs' lg' e w' Gs Gi Ef Hne' Ep Hv Eb];
    cbn [outcome exit_status] in Hs;
    try discriminate Hs; try congruence;
    assert (p' = p) by congruence; subst p'.
  clear Hs.
  cbn [after files].
  destruct (sample_encoded os) as (_ & _ & _ & _ & Hread).
  destruct sample_parses as (qs & lg & Hp & Hne & Ht & Ha & Hk & Hc).
  assert (Hparse : parse_file (file_env_of (Some (RegularFile bytes)))
                   = (Ok qs, lg)).
  { unfold parse_file, file_env_of.
    cbn [path_exists read_utf8 read_latin1 negb].
    rewrite Hdec, Hread, Hp. reflexivity. }
  assert (Hget : PyDict.get p (PyDict.set p (RegularFile bytes) (files s))
                 = Some (RegularFile bytes))
    by apply DictFacts.get_set_same.
  exists qs. rewrite Hget.
  split; [exact (questions_of_parse _ _ _ Hparse) |].
  split; [exact Ht |]. split; [exact Ha |]. split; [exact Hk |].
  split; [exact Hc |].
  intros out vb.
  destruct qs as [|q qs]; [exfalso; apply Hne; reflexivity |].
  apply validate_run_ok with (bytes := bytes) (q := q) (qs := qs) (lg := lg);
    [exact Hp0 | exact Hget | exact Hne' | exact Hparse].
Qed.

(** The sample written on Windows over an empty set of files. *)
Lemma sample_file_round_trip_example :
  let args := mkArgs None default_output (Some (py "ejemplo.txt")) false
                     false in
  let s := mkSystem [] world0 fresh_logging in
  exists qs,
    questions_of (PyDict.get (py "ejemplo.txt")
                    (files (after (@main reference_runtime Windows args s))))
    = Ok qs
    /\ map text qs = sample_texts
    /\ map answer qs = sample_answers
    /\ Forall (fun q => PyDict.keys (options q) = sample_letters) qs
    /\ map (fun q => PyDict.get (py "C") (options q)) qs
       = map (fun l => Some (skipn 3 (strip l)))
             (map (fun i => nth i sample_lines []) [3; 10; 17; 24; 31])
    /\ forall out vb,
        outcome (@main reference_runtime Windows
                   (mkArgs (Some (py "ejemplo.txt")) out None vb true)
                   (after (@main reference_runtime Windows args s)))
        = Return 0.
Proof.
  apply (sample_file_round_trip reference_runtime Windows
           (mkArgs None default_output (Some (py "ejemplo.txt")) false false)
           (mkSystem [] world0 fresh_logging) (py "ejemplo.txt")).
  - reflexivity.
  - vm_compute. reflexivity.
Defined.

(* ================================================================== *)
(** * The logging configuration *)
(* ================================================================== *)

(** Once the module is loaded the root logger has a handler, and a
    further [basicConfig] changes nothing. *)
Lemma setup_logging_after_load v st0 :
  setup_logging v (module_logging st0) = module_logging st0.
Proof.
  unfold setup_logging, module_logging, basicConfig.
  destruct (Nat.eqb (root_handlers st0) 0) eqn:E; cbn [root_handlers].
  - reflexivity.
  - rewrite E. reflexivity.
Qed.

Lemma main_logging {rt : Runtime} os args s :
  logging_state (after (main os args s))
  = setup_logging (verbose args) (logging_state s).
Proof.
  destruct (main_cases os args s); reflexivity.
Qed.

(** The flag [--verbose] does not change what is logged: the module has
    configured the root logger when it was loaded, so the call of
    [setup_logging] in [main] finds a handler and does nothing.  In an
    interpreter that had configured nothing before, the level stays at
    INFO and the DEBUG records are not emitted, with the flag or
    without. *)
Theorem verbose_does_not_enable_debug (rt : Runtime) os args s st0 :
  logging_state s = module_logging st0 ->
  logging_state (after (main os args s)) = logging_state s
  /\ (root_handlers st0 = 0 ->
      is_enabled_for DEBUG (logging_state (after (main os args s))) = false
      /\ is_enabled_for INFO (logging_state (after (main os args s))) = true).
Proof.
  intros H. rewrite main_logging, H, setup_logging_after_load.
  split; [reflexivity |].
  intros H0. unfold module_logging, basicConfig. rewrite H0.
  split; reflexivity.
Qed.

(** A run with [--verbose] from a fresh interpreter. *)
Lemma verbose_example :
  logging_state (after (@main reference_runtime Posix example_args
                          example_system))
  = logging_state example_system
  /\ (root_handlers fresh_logging = 0 ->
      is_enabled_for DEBUG
        (logging_state (after (@main reference_runtime Posix example_args
                                 example_system))) = false
      /\ is_enabled_for INFO
           (logging_state (after (@main reference_runtime Posix example_args
                                    example_system))) = true).
Proof.
  apply (verbose_does_not_enable_debug reference_runtime Posix example_args
           example_system fresh_logging).
  reflexivity.
Defined.

(* ================================================================== *)
(** * The grammar of the lines of a file *)
(* ================================================================== *)

Lemma class_not_space c :
  Regex.class_AZ_ignorecase c = true -> isspace c = false.
Proof.
  intros H. destruct (isspace c) eqn:E; [exfalso | reflexivity].
  unfold Regex.class_AZ_ignorecase, Regex.is_AZ, Regex.is_az in H.
  unfold isspace in E. unfold in_range, char_eqb in *.
  rewrite ?orb_true_iff, ?andb_true_iff, ?N.leb_le, ?N.eqb_eq in H.
  rewrite ?orb_true_iff, ?andb_true_iff, ?N.leb_le, ?N.eqb_eq in E.
  lia.
Qed.

Lemma match_literals_spec pat : forall s rest,
  Regex.match_literals pat s = Some rest <->
  exists kw, s = kw ++ rest
             /\ Forall2 (fun p c => Regex.literal_ignorecase p c = true) pat kw.
Proof.
  induction pat as [|p pat IH]; intros s rest.
  - split.
    + destruct s; simpl; intros H; injection H as <-; exists [];
        (split; [reflexivity | constructor]).
    + intros (kw & -> & F). inversion F; subst. destruct rest; reflexivity.
  - split.
    + destruct s as [|c s]; simpl; [discriminate |].
      destruct (Regex.literal_ignorecase p c) eqn:E; [| discriminate].
      intros H. apply IH in H as (kw & -> & F).
      exists (c :: kw). split; [reflexivity | constructor; assumption].
    + intros (kw & -> & F). inversion F as [|? c ? kw' Hc F']; subst.
      simpl. rewrite Hc. apply IH. eauto.
Qed.

Lemma blanks_then_letter_spec s g :
  Regex.blanks_then_letter s = Some g ->
  exists ws c, blanks ws /\ Regex.class_AZ_ignorecase c = true /\ g = [c]
               /\ (s = ws ++ [c] \/ s = ws ++ [c; newline]).
Proof.
  assert (L : forall s, Regex.letter_end s = Some g ->
              exists ws c, blanks ws /\ Regex.class_AZ_ignorecase c = true
                           /\ g = [c]
                           /\ (s = ws ++ [c] \/ s = ws ++ [c; newline])).
  { intros [|c r]; simpl; [discriminate |].
    destruct (Regex.class_AZ_ignorecase c && Regex.at_end r) eqn:E;
      [| discriminate].
    intros H. injection H as <-. apply andb_true_iff in E as [E1 E2].
    exists [], c. split; [reflexivity |]. split; [exact E1 |].
    split; [reflexivity |].
    destruct (RegexFacts.at_end_spec _ E2) as [-> | ->]; auto. }
  induction s as [|c s IH]; [discriminate |].
  cbn [Regex.blanks_then_letter].
  destruct (isspace c) eqn:E; [| apply L].
  destruct (Regex.blanks_then_letter s) as [g'|] eqn:B; [| apply L].
  intros H. injection H as ->.
  destruct (IH eq_refl) as (ws & c' & Hws & Hc & Hg & Hs).
  exists (c :: ws), c'. split; [unfold blanks; simpl; rewrite E; exact Hws |].
  split; [exact Hc |]. split; [exact Hg |].
  destruct Hs as [-> | ->]; auto.
Qed.

Lemma blanks_then_letter_complete ws c tail :
  blanks ws -> Regex.class_AZ_ignorecase c = true ->
  tail = [] \/ tail = [newline] ->
  Regex.blanks_then_letter (ws ++ c :: tail) = Some [c].
Proof.
  intros Hws Hc Ht.
  assert (L : Regex.letter_end (c :: tail) = Some [c]).
  { simpl. rewrite Hc. destruct Ht as [-> | ->]; reflexivity. }
  induction ws as [|w ws IH].
  - simpl app. cbn [Regex.blanks_then_letter].
    rewrite (class_not_space c Hc). exact L.
  - unfold blanks in Hws. simpl in Hws. apply andb_true_iff in Hws as [Hw Hws].
    simpl app. cbn [Regex.blanks_then_letter]. rewrite Hw, (IH Hws).
    reflexivity.
Qed.

Lemma dot_run_no_newline t r :
  ~ In newline t -> Regex.at_end r = true -> Regex.dot_run (t ++ r) = (t, r).
Proof.
  intros Hn Hr. induction t as [|c t IH]; simpl.
  - destruct r as [|x [|y r]]; simpl in *; try discriminate; [reflexivity |].
    rewrite Hr. reflexivity.
  - destruct (char_eqb c newline) eqn:E.
    + apply char_eqb_eq in E. subst c. destruct Hn. left. reflexivity.
    + rewrite IH; [reflexivity |]. intros H. apply Hn. right. exact H.
Qed.

Lemma dot_plus_end_complete t r :
  t <> [] -> ~ In newline t -> Regex.at_end r = true ->
  Regex.dot_plus_end (t ++ r) = Some t.
Proof.
  intros Ht Hn Hr. unfold Regex.dot_plus_end.
  rewrite (dot_run_no_newline t r Hn Hr), Hr.
  destruct t; [congruence | reflexivity].
Qed.

(** Text that reaches the end of the line is always matched, with or
    without blanks before it. *)
Lemma blanks_then_text_some t r :
  t <> [] -> ~ In newline t -> Regex.at_end r = true ->
  Regex.blanks_then_text (t ++ r) <> None.
Proof.
  intros Ht Hn Hr. induction t as [|c t IH]; [congruence |].
  simpl app. cbn [Regex.blanks_then_text].
  pose proof (dot_plus_end_complete (c :: t) r Ht Hn Hr) as D.
  simpl app in D.
  destruct (isspace c); [| rewrite D; discriminate].
  destruct (Regex.blanks_then_text (t ++ r)); [discriminate |].
  rewrite D. discriminate.
Qed.

(** The text the option pattern captures starts after the whole run of
    blanks, unless nothing but one blank is left for it. *)
Lemma blanks_then_text_greedy s t :
  Regex.blanks_then_text s = Some t ->
  starts_nonblank t \/ exists w, t = [w] /\ isspace w = true.
Proof.
  revert t. induction s as [|c s IH]; intros t; [discriminate |].
  cbn [Regex.blanks_then_text].
  destruct (isspace c) eqn:E.
  - destruct (Regex.blanks_then_text s) as [t'|] eqn:B.
    + intros H. injection H as <-. apply IH. reflexivity.
    + intros H. right.
      unfold Regex.dot_plus_end in H.
      destruct (Regex.dot_run (c :: s)) as [t0 r] eqn:D.
      destruct (negb (is_empty t0) && Regex.at_end r) eqn:E2; [| discriminate].
      injection H as ->. apply andb_true_iff in E2 as [E3 E4].
      destruct (RegexFacts.dot_run_spec _ _ _ D) as [Hs Hn].
      destruct t as [|x t]; [discriminate |].
      simpl in Hs. injection Hs as <- ->.
      destruct t as [|y t]; [eauto |].
      exfalso.
      apply (blanks_then_text_some (y :: t) r); auto; [discriminate |].
      intros H. apply Hn. right. exact H.
  - intros H. left.
    unfold Regex.dot_plus_end in H.
    destruct (Regex.dot_run (c :: s)) as [t0 r] eqn:D.
    destruct (negb (is_empty t0) && Regex.at_end r) eqn:E2; [| discriminate].
    injection H as ->.
    simpl in D. destruct (char_eqb c newline).
    + injection D as <- _. discriminate.
    + destruct (Regex.dot_run s). injection D as <- _. exact E.
Qed.

Lemma blanks_then_text_complete ws v tail :
  blanks ws -> v <> [] -> starts_nonblank v -> ~ In newline v ->
  Regex.at_end tail = true ->
  Regex.blanks_then_text (ws ++ v ++ tail) = Some v.
Proof.
  intros Hws Hv Hs Hn Ht.
  induction ws as [|w ws IH].
  - simpl app. destruct v as [|x v]; [congruence |].
    simpl app. cbn [Regex.blanks_then_text].
    simpl in Hs. rewrite Hs.
    exact (dot_plus_end_complete (x :: v) tail Hv Hn Ht).
  - unfold blanks in Hws. simpl in Hws. apply andb_true_iff in Hws as [Hw Hws].
    simpl app. cbn [Regex.blanks_then_text]. rewrite Hw, (IH Hws).
    reflexivity.
Qed.

Lemma lstrip_decompose s :
  exists w, s = w ++ lstrip s /\ forallb isspace w = true.
Proof.
  induction s as [|c s IH]; simpl.
  - exists []. auto.
  - destruct (isspace c) eqn:E.
    + destruct IH as (w & Hs & Hw). exists (c :: w). simpl.
      rewrite E, <- Hs. auto.
    + exists []. auto.
Qed.

Lemma forallb_rev {A} (f : A -> bool) l :
  forallb f l = true -> forallb f (rev l) = true.
Proof.
  rewrite !forallb_forall. intros H x Hx. apply H, in_rev. exact Hx.
Qed.

(** [strip] removes a run of blanks at each end and nothing else. *)
Lemma strip_decompose s :
  exists a b, s = a ++ strip s ++ b
              /\ forallb isspace a = true /\ forallb isspace b = true.
Proof.
  destruct (lstrip_decompose s) as (a & Hs & Ha).
  destruct (lstrip_decompose (rev (lstrip s))) as (b & Hr & Hb).
  exists a, (rev b). split; [| split; [exact Ha | apply forallb_rev; exact Hb]].
  unfold strip, rstrip.
  rewrite <- rev_app_distr, <- Hr, rev_involutive. exact Hs.
Qed.

Lemma last_occurrence {A} (x : A) body : forall u v,
  body ++ [x] = u ++ x :: v -> ~ In x body -> v = [].
Proof.
  induction body as [|y body IH]; intros u v H Hn.
  - destruct u as [|z u]; simpl in H.
    + injection H as <-. reflexivity.
    + injection H as _ H. destruct u; discriminate.
  - destruct u as [|z u]; simpl in H.
    + injection H as -> _. destruct Hn. left. reflexivity.
    + injection H as _ H. apply (IH u v H). intros Hx. apply Hn. right.
      exact Hx.
Qed.

Lemma split_keepends_shape s : forall cur,
  ~ In newline cur -> Forall line_shape (split_keepends cur s).
Proof.
  induction s as [|c s IH]; intros cur Hc; simpl.
  - destruct (is_empty cur); constructor; [| constructor].
    exists cur. auto.
  - destruct (N.eqb_spec c 10) as [-> | Hne].
    + constructor; [exists cur; auto |]. apply IH. intros [].
    + apply IH. intros H. apply in_app_or in H as [H | [H | []]]; [auto |].
      apply Hne. exact H.
Qed.

Lemma strip_line_no_newline l : line_shape l -> ~ In newline (strip l).
Proof.
  intros (body & Hb & Hl) Hin.
  destruct (strip_decompose l) as (a & b & Hs & Ha & Hbl).
  destruct Hl as [-> | ->].
  - apply Hb. rewrite Hs. apply in_or_app. right. apply in_or_app. left.
    exact Hin.
  - apply in_split in Hin as (s1 & s2 & Hst).
    rewrite Hst in Hs.
    assert (Hs' : body ++ [newline] = (a ++ s1) ++ newline :: (s2 ++ b)).
    { rewrite Hs, <- !app_assoc. reflexivity. }
    apply last_occurrence in Hs'; [| exact Hb].
    apply app_eq_nil in Hs' as [-> _].
    pose proof (strip_ends_nonblank (body ++ [newline])) as He.
    rewrite Hst, rev_app_distr in He. simpl in He. discriminate.
Qed.

(** The lines [parse_file] scans have no blank at either end and hold no
    newline. *)
Lemma scanned_lines_shape decoded line :
  In line (map strip (readlines decoded)) ->
  trimmed line /\ ~ In newline line.
Proof.
  intros H. apply in_map_iff in H as (l & <- & Hl).
  split; [apply strip_idempotent |].
  apply strip_line_no_newline.
  pose proof (split_keepends_shape (universal_newlines decoded) []
                (fun H => H)) as F.
  rewrite Forall_forall in F. exact (F l Hl).
Qed.

(** The grammar of the lines of a file, as [parse_file] scans them.  An
    ANSWER line is the keyword [ANSWER:] in any letter case, any number of
    blanks (none will do) and one letter in either case, which ends the
    line.  An option line is a capital letter, a closing parenthesis or a
    full stop, at least one blank and the text of the option, recorded
    from its first character that is not a blank. *)
Theorem line_grammar decoded line :
  In line (map strip (readlines decoded)) ->
  (forall g,
      Regex.answer_pattern line = Some g <->
      exists kw ws c,
        line = kw ++ ws ++ [c] /\ answer_keyword kw /\ blanks ws
        /\ Regex.class_AZ_ignorecase c = true /\ g = [c])
  /\ (forall k v,
      Regex.option_pattern line = Some (k, v) <->
      exists c d ws,
        line = c :: d :: ws ++ v /\ k = [c] /\ Regex.is_AZ c = true
        /\ (d = 41%N \/ d = 46%N) /\ ws <> [] /\ blanks ws
        /\ v <> [] /\ starts_nonblank v).
Proof.
  intros Hin. destruct (scanned_lines_shape decoded line Hin) as [Ht Hn].
  destruct (trimmed_ends line Ht) as [_ Hend].
  split.
  - intros g. unfold Regex.answer_pattern. split.
    + destruct (Regex.match_literals (py "ANSWER:") line) as [rest|] eqn:M;
        [| discriminate].
      intros B. apply match_literals_spec in M as (kw & -> & F).
      apply blanks_then_letter_spec in B as (ws & c & Hws & Hc & -> & Hr).
      exists kw, ws, c.
      destruct Hr as [-> | ->]; [auto 6 |].
      exfalso. apply Hn. apply in_or_app. right. apply in_or_app. right.
      right. left. reflexivity.
    + intros (kw & ws & c & -> & F & Hws & Hc & ->).
      assert (M : Regex.match_literals (py "ANSWER:") (kw ++ ws ++ [c])
                  = Some (ws ++ [c]))
        by (apply match_literals_spec; eauto).
      rewrite M. apply blanks_then_letter_complete; auto.
  - intros k v. split.
    + intros H.
      assert (G : starts_nonblank v \/ exists w, v = [w] /\ isspace w = true).
      { destruct line as [|c [|d [|w rest]]]; simpl in H; try discriminate.
        destruct (Regex.is_AZ c && (char_eqb d 41%N || char_eqb d 46%N)
                  && isspace w); [| discriminate].
        destruct (Regex.blanks_then_text rest) as [t|] eqn:B;
          [| discriminate].
        injection H as _ <-. exact (blanks_then_text_greedy rest t B). }
      apply RegexFacts.option_pattern_spec in H
        as (c & d & ws & -> & Hc & Hd & Hws & Hb & Hv & Hnv & Hl).
      destruct Hl as [-> | ->].
      * exists c, d, ws. repeat (split; [assumption || reflexivity |]).
        destruct G as [G | (w & -> & Hw)]; [exact G |].
        exfalso. change (c :: d :: ws ++ [w]) with ((c :: d :: ws) ++ [w]) in Hend.
        rewrite rev_app_distr in Hend. simpl in Hend. congruence.
      * exfalso. apply Hn. right. right. apply in_or_app. right.
        apply in_or_app. right. left. reflexivity.
    + intros (c & d & ws & -> & -> & Hc & Hd & Hws & Hb & Hv & Hs).
      destruct ws as [|w ws]; [congruence |].
      unfold blanks in Hb. simpl in Hb. apply andb_true_iff in Hb as [Hw Hb].
      simpl app. cbn [Regex.option_pattern].
      assert (Ed : (char_eqb d 41%N || char_eqb d 46%N) = true)
        by (destruct Hd as [-> | ->]; reflexivity).
      rewrite Hc, Ed, Hw. cbn [andb].
      assert (B : Regex.blanks_then_text (ws ++ v ++ []) = Some v).
      { apply blanks_then_text_complete; auto.
        intros Hx. apply Hn. right. right. right. apply in_or_app. right.
        exact Hx. }
      rewrite app_nil_r in B. rewrite B. reflexivity.
Qed.

(** The lines of a file of two lines, the second an ANSWER line in lower
    case. *)
Lemma line_grammar_example :
  (forall g,
      Regex.answer_pattern (py "answer: b") = Some g <->
      exists kw ws c,
        py "answer: b" = kw ++ ws ++ [c] /\ answer_keyword kw /\ blanks ws
        /\ Regex.class_AZ_ignorecase c = true /\ g = [c])
  /\ (forall k v,
      Regex.option_pattern (py "answer: b") = Some (k, v) <->
      exists c d ws,
        py "answer: b" = c :: d :: ws ++ v /\ k = [c] /\ Regex.is_AZ c = true
        /\ (d = 41%N \/ d = 46%N) /\ ws <> [] /\ blanks ws
        /\ v <> [] /\ starts_nonblank v).
Proof.
  apply (line_grammar (py "A) x" ++ [13%N; 10%N] ++ py "answer: b  ")
                      (py "answer: b")).
  vm_compute. right. left. reflexivity.
Defined.

(* ================================================================== *)
(** * Every ANSWER line is accounted for *)
(* ================================================================== *)

Lemma reports_app l1 l2 : reports (l1 ++ l2) = reports l1 ++ reports l2.
Proof. apply filter_app. Qed.

(** One line: an ANSWER line adds one question or one report that
    carries its number, any other line adds neither. *)
Lemma scan_line_accounts st line :
  line_number (scan_line st line) = S (line_number st)
  /\ ((is_answer_line line = true
       /\ ((length (questions (scan_line st line)) = S (length (questions st))
            /\ reports (log (scan_line st line)) = reports (log st))
           \/ (questions (scan_line st line) = questions st
               /\ exists r,
                   reports (log (scan_line st line)) = reports (log st) ++ [r]
                   /\ reported_line r = Some (S (line_number st)))))
      \/ (is_answer_line line = false
          /\ questions (scan_line st line) = questions st
          /\ reports (log (scan_line st line)) = reports (log st))).
Proof.
  unfold scan_line, is_answer_line.
  destruct line as [|c line'] eqn:El.
  { simpl. split; [reflexivity |]. right. auto. }
  rewrite <- El. assert (Hne : is_empty line = false) by (subst; reflexivity).
  rewrite Hne. clear El.
  destruct (Regex.answer_pattern line) as [g|].
  - destruct (is_empty (current_question_text st)).
    { cbn [line_number questions log]. split; [reflexivity |]. left.
      split; [reflexivity |]. right. split; [reflexivity |].
      eexists. rewrite reports_app. split; reflexivity. }
    destruct (PyDict.is_empty (current_options st)).
    { cbn [line_number questions log]. split; [reflexivity |]. left.
      split; [reflexivity |]. right. split; [reflexivity |].
      eexists. rewrite reports_app. split; reflexivity. }
    destruct (Question_new _ _ _) as [q|e].
    + cbn [line_number questions log]. split; [reflexivity |]. left.
      split; [reflexivity |]. left. rewrite length_app, reports_app.
      simpl. rewrite app_nil_r. split; [lia | reflexivity].
    + cbn [line_number questions log]. split; [reflexivity |]. left.
      split; [reflexivity |]. right. split; [reflexivity |].
      eexists. rewrite reports_app. split; reflexivity.
  - destruct (Regex.option_pattern line) as [[k v]|].
    + cbn [line_number questions log]. split; [reflexivity |]. right. auto.
    + destruct (is_empty (current_question_text st));
        cbn [line_number questions log]; (split; [reflexivity |]); right; auto.
Qed.

Lemma scan_lines_accounts lines : forall st,
  exists added,
    reports (log (scan_lines st lines)) = reports (log st) ++ added
    /\ length (filter is_answer_line lines)
       = length (questions (scan_lines st lines)) - length (questions st)
         + length added
    /\ length (questions st) <= length (questions (scan_lines st lines))
    /\ Forall (fun r => exists n line,
                 reported_line r = Some (line_number st + S n)
                 /\ nth_error lines n = Some line
                 /\ is_answer_line line = true) added.
Proof.
  induction lines as [|l lines IH]; intros st.
  - exists []. simpl. rewrite app_nil_r. repeat split; try lia. constructor.
  - change (scan_lines st (l :: lines))
      with (scan_lines (scan_line st l) lines).
    destruct (IH (scan_line st l)) as (added & Hr & Hc & Hle & Hf).
    destruct (scan_line_accounts st l) as [Hn Hcase].
    assert (Hf' : Forall (fun r => exists n line,
                    reported_line r = Some (line_number st + S n)
                    /\ nth_error (l :: lines) n = Some line
                    /\ is_answer_line line = true) added).
    { apply Forall_forall. intros r Hin. rewrite Forall_forall in Hf.
      destruct (Hf r Hin) as (n & line & H1 & H2 & H3).
      exists (S n), line. rewrite Hn in H1.
      split; [rewrite H1; f_equal; lia |]. split; assumption. }
    destruct Hcase as [[Ha [[Hq Hl] | [Hq (r & Hl & Hrl)]]] | (Ha & Hq & Hl)].
    + exists added. cbn [filter]. rewrite Ha. cbn [length].
      rewrite Hl in Hr. split; [exact Hr |]. split; [lia |].
      split; [lia | exact Hf'].
    + exists (r :: added). cbn [filter]. rewrite Ha. cbn [length].
      rewrite Hl, <- app_assoc in Hr. rewrite Hq in Hc, Hle.
      split; [exact Hr |]. split; [lia |]. split; [exact Hle |].
      constructor; [| exact Hf'].
      exists 0, l. split; [rewrite Hrl; f_equal; lia |]. auto.
    + exists added. cbn [filter]. rewrite Ha.
      rewrite Hl in Hr. rewrite Hq in Hc, Hle.
      split; [exact Hr |]. split; [exact Hc |]. split; [exact Hle | exact Hf'].
Qed.

(** No ANSWER line is dropped in silence: the ANSWER lines of a file are
    as many as the questions returned and the records logged about an
    ANSWER line that gave none (no question before it, no options, a
    question refused) together, and each such record carries the number,
    counted from 1, of an ANSWER line of the file. *)
Theorem every_answer_line_accounted_for log0 lines :
  reports log0 = [] ->
  length (filter is_answer_line lines)
  = length (fst (parse_lines log0 lines))
    + length (reports (snd (parse_lines log0 lines)))
  /\ Forall (fun r => exists n line,
               reported_line r = Some (S n)
               /\ nth_error lines n = Some line
               /\ is_answer_line line = true)
            (reports (snd (parse_lines log0 lines))).
Proof.
  intros H0. unfold parse_lines, scan_finish. cbn [fst snd].
  destruct (scan_lines_accounts lines (scan_init log0))
    as (added & Hr & Hc & _ & Hf).
  cbn [scan_init log questions line_number length] in Hr, Hc, Hf.
  rewrite H0 in Hr. simpl in Hr.
  assert (E : reports
                ((if negb (is_empty (current_question_text
                                       (scan_lines (scan_init log0) lines)))
                     || negb (PyDict.is_empty
                                (current_options
                                   (scan_lines (scan_init log0) lines)))
                  then log (scan_lines (scan_init log0) lines)
                       ++ [Warning_incomplete_question]
                  else log (scan_lines (scan_init log0) lines))
                 ++ [Info_parse_done
                       (length (questions (scan_lines (scan_init log0) lines)))])
              = added).
  { rewrite reports_app.
    destruct (negb _ || negb _); [rewrite reports_app |]; rewrite Hr;
      simpl; rewrite ?app_nil_r; reflexivity. }
  rewrite E. split; [lia | exact Hf].
Qed.

(** Four lines: an ANSWER line with nothing before it, then a
    question. *)
Lemma every_answer_line_example :
  length (filter is_answer_line
            [py "ANSWER: A"; py "Q?"; py "A) x"; py "ANSWER: A"])
  = length (fst (parse_lines [Info_parsing]
                   [py "ANSWER: A"; py "Q?"; py "A) x"; py "ANSWER: A"]))
    + length (reports (snd (parse_lines [Info_parsing]
                              [py "ANSWER: A"; py "Q?"; py "A) x";
                               py "ANSWER: A"])))
  /\ Forall (fun r => exists n line,
               reported_line r = Some (S n)
               /\ nth_error [py "ANSWER: A"; py "Q?"; py "A) x";
                             py "ANSWER: A"] n = Some line
               /\ is_answer_line line = true)
            (reports (snd (parse_lines [Info_parsing]
                             [py "ANSWER: A"; py "Q?"; py "A) x";
                              py "ANSWER: A"]))).
Proof.
  apply (every_answer_line_accounted_for [Info_parsing]
           [py "ANSWER: A"; py "Q?"; py "A) x"; py "ANSWER: A"]).
  reflexivity.
Defined.

(* ================================================================== *)
(** * From the command line to the package *)
(* ================================================================== *)

(** What the archive holds of the staged files, whatever the order in
    which the directory is listed. *)
Lemma staged_archive {rt : Runtime} item_ids (contents : list pystr) mc :
  length item_ids = length contents ->
  PyDict.len (rglob (combine (question_filenames 1 item_ids) contents
                     ++ [(manifest_filename, mc)]))
  = S (length item_ids)
  /\ PyDict.get manifest_filename
       (rglob (combine (question_filenames 1 item_ids) contents
               ++ [(manifest_filename, mc)]))
     = Some mc
  /\ (forall i filename content,
        nth_error (question_filenames 1 item_ids) i = Some filename ->
        nth_error contents i = Some content ->
        PyDict.get filename
          (rglob (combine (question_filenames 1 item_ids) contents
                  ++ [(manifest_filename, mc)]))
        = Some content).
Proof.
  intros LI.
  set (filenames := question_filenames 1 item_ids).
  set (staged := combine filenames contents ++ [(manifest_filename, mc)]).
  assert (LF : length filenames = length item_ids)
    by apply question_filenames_length.
  pose proof (manifest_not_among_questions 1 item_ids contents LI) as Hfresh.
  fold filenames in Hfresh.
  pose proof (staged_names_NoDup item_ids contents mc LI) as Hnd.
  fold filenames in Hnd. fold staged in Hnd.
  pose proof (rglob_permutation staged) as Hperm.
  assert (Hget : forall k, PyDict.get k (rglob staged) = PyDict.get k staged).
  { intros k. apply get_permutation; assumption. }
  split.
  { unfold PyDict.len. rewrite (Permutation_length Hperm).
    unfold staged. rewrite length_app, length_combine. simpl.
    unfold pystr, char in *. lia. }
  split.
  { rewrite Hget. unfold staged.
    rewrite <- (DictFacts.set_fresh manifest_filename mc _ Hfresh).
    apply DictFacts.get_set_same. }
  intros i filename content Hf Hc. rewrite Hget. unfold staged.
  apply get_app_l.
  apply (get_combine filenames contents i filename content);
    try assumption.
  apply question_filenames_NoDup.
Qed.

(** A conversion that ends with status 0 has written one archive, under
    the output name with the extension [.zip], that holds one file per
    question [parse_file] found in the input and the manifest; the staging
    directory is gone, the other archives are as before, and the closing
    report names the archive and the number of questions. *)
Theorem conversion_writes_package (rt : Runtime) os args s :
  given (create_sample args) = None ->
  validate_only args = false ->
  exit_status (outcome (main os args s)) = 0%Z ->
  exists p qs out entries before,
    given (input_file args) = Some p
    /\ questions_of (PyDict.get p (files s)) = Ok qs
    /\ qs <> []
    /\ out = (if endswith (output args) (py ".zip") then output args
              else output args ++ py ".zip")
    /\ PyDict.get out (archives (cwd (after (main os args s)))) = Some entries
    /\ PyDict.len entries = S (length qs)
    /\ PyDict.mem manifest_filename entries = true
    /\ temp_dir (cwd (after (main os args s))) = None
    /\ (forall name, name <> out ->
          PyDict.get name (archives (cwd (after (main os args s))))
          = PyDict.get name (archives (cwd s)))
    /\ events (main os args s)
       = before ++ [Print_completed out (length qs)].
Proof.
  intros Hc Hvo.
  destruct (main_cases os args s)
    as [p bytes Gs Hd Hrf Hne Hdec | p e fs' Gs Hd Hfr | Gs Gi
        | p e Gs Gi Ev
        | p bytes lg Gs Gi Ef Hne Ep | p bytes q qs lg Gs Gi Ef Hne Ep Hv
        | p bytes q qs lg out w' Gs Gi Ef Hne Ep Hv Eb Hex
        | p bytes q qs lg out w' Gs Gi Ef Hne Ep Hv Eb Hex
        | p bytes q qs lg e w' Gs Gi Ef Hne Ep Hv Eb];
    cbn [outcome exit_status after cwd events]; intros Hs;
    try discriminate; try congruence.
  apply (archive_exists_iff _ _ _ _ _ Eb) in Hex.
  destruct (build_package_spec _ _ _ _ _ Eb)
    as (ids & cs & hex & mc & L1 & L2 & _ & _ & _ & Ho & Ht & Ha).
  cbv zeta in Ha. rewrite Hex in Ha.
  assert (LI : length ids = length cs) by (unfold pystr, char in *; lia).
  destruct (staged_archive ids cs mc LI) as (Hlen & Hman & _).
  exists p, (q :: qs), out,
    (rglob (combine (question_filenames 1 ids) cs
            ++ [(manifest_filename, mc)])),
    ((Info_starting :: map Logged lg)
       ++ [Print_found (length (q :: qs)); Print_generated out]).
  split; [exact Gi |].
  split; [rewrite Ef; exact (questions_of_parse _ _ _ Ep) |].
  split; [discriminate |].
  split; [exact Ho |].
  split; [rewrite Ha; apply DictFacts.get_set_same |].
  split; [rewrite Hlen; f_equal; exact L1 |].
  split; [unfold PyDict.mem; rewrite Hman; reflexivity |].
  split; [exact Ht |].
  split.
  { intros name Hn. rewrite Ha. apply DictFacts.get_set_other. exact Hn. }
  rewrite <- app_assoc. reflexivity.
Qed.

(** The file in Latin-1, converted under the default output name. *)
Lemma conversion_example :
  let args := mkArgs (Some (py "in.txt")) default_output None false false in
  let s := mkSystem [(py "in.txt", RegularFile latin1_bytes)] world0
                    fresh_logging in
  exists p qs out entries before,
    given (input_file args) = Some p
    /\ questions_of (PyDict.get p (files s)) = Ok qs
    /\ qs <> []
    /\ out = (if endswith (output args) (py ".zip") then output args
              else output args ++ py ".zip")
    /\ PyDict.get out
         (archives (cwd (after (@main reference_runtime Posix args s))))
       = Some entries
    /\ PyDict.len entries = S (length qs)
    /\ PyDict.mem manifest_filename entries = true
    /\ temp_dir (cwd (after (@main reference_runtime Posix args s))) = None
    /\ (forall name, name <> out ->
          PyDict.get name
            (archives (cwd (after (@main reference_runtime Posix args s))))
          = PyDict.get name (archives (cwd s)))
    /\ events (@main reference_runtime Posix args s)
       = before ++ [Print_completed out (length qs)].
Proof.
  apply (conversion_writes_package reference_runtime Posix
           (mkArgs (Some (py "in.txt")) default_output None false false)
           (mkSystem [(py "in.txt", RegularFile latin1_bytes)] world0
                     fresh_logging)).
  - reflexivity.
  - reflexivity.
  - vm_compute. reflexivity.
Defined.

(** The manifest and the items agree on the identifiers: the resources of
    the manifest are identified, in order, by [RES-] followed by the
    identifier of the [assessmentItem] in the file they refer to, and that
    identifier is [ITEM_] followed by a uuid and is part of the name of the
    file.  When the archive lies outside the staging directory, it holds
    the manifest and each of these files under that name. *)
Theorem manifest_identifiers_match_items
  (rt : Runtime) questions output_filename w out w' :
  build_package questions output_filename w = (Ok out, w') ->
  exists item_ids contents manifest_hex manifest_content,
    minidom_pretty
      (tostring (manifest_tree manifest_hex
                   (combine item_ids (question_filenames 1 item_ids))))
    = Ok manifest_content
    /\ map (attribute (py "identifier"))
           (manifest_resources
              (manifest_tree manifest_hex
                 (combine item_ids (question_filenames 1 item_ids))))
       = map (fun item_id => Some (py "RES-" ++ item_id)) item_ids
    /\ Forall2 (fun q file =>
                  exists option_ids,
                    minidom_pretty
                      (tostring (item_tree q (fst file) option_ids))
                    = Ok (snd file)
                    /\ attribute (py "identifier")
                         (item_tree q (fst file) option_ids)
                       = Some (fst file))
               questions (combine item_ids contents)
    /\ Forall (fun item_id => exists hex, item_id = py "ITEM_" ++ hex)
              item_ids
    /\ (forall i item_id,
          nth_error item_ids i = Some item_id ->
          nth_error (question_filenames 1 item_ids) i
          = Some (question_filename (S i) item_id))
    /\ (placement_of out = Outside ->
        exists entries,
          PyDict.get out (archives w') = Some entries
          /\ PyDict.get manifest_filename entries = Some manifest_content
          /\ forall i item_id content,
               nth_error item_ids i = Some item_id ->
               nth_error contents i = Some content ->
               PyDict.get (question_filename (S i) item_id) entries
               = Some content).
Proof.
  intros H.
  destruct (build_package_spec _ _ _ _ _ H)
    as (ids & cs & hex & mc & L1 & L2 & F & Rd & Hp & _ & _ & Ha).
  cbv zeta in *.
  assert (LI : length ids = length cs) by (unfold pystr, char in *; lia).
  exists ids, cs, hex, mc.
  split; [exact Hp |].
  split.
  { rewrite manifest_resources_tree, map_map.
    assert (LF : length ids = length (question_filenames 1 ids))
      by (symmetry; apply question_filenames_length).
    transitivity (map (fun r : pystr * pystr => Some (py "RES-" ++ fst r))
                      (combine ids (question_filenames 1 ids))).
    - apply map_ext. intros [res_id filename]. reflexivity.
    - rewrite <- (map_map fst (fun item_id => Some (py "RES-" ++ item_id))).
      f_equal. exact (map_fst_combine ids (question_filenames 1 ids) LF). }
  split.
  { clear -Rd. induction Rd as [|q f qs fs (ids' & Hr) _ IH]; constructor.
    - exists ids'. split; [exact Hr | reflexivity].
    - exact IH. }
  split; [exact F |].
  split.
  { intros i item_id Hn. exact (question_filenames_nth ids 1 i item_id Hn). }
  intros Hout. rewrite Hout in Ha.
  destruct (staged_archive ids cs mc LI) as (_ & Hman & Hfile).
  eexists. split; [rewrite Ha; apply DictFacts.get_set_same |].
  split; [exact Hman |].
  intros i item_id content Hi Hc.
  apply (Hfile i _ content); [| exact Hc].
  exact (question_filenames_nth ids 1 i item_id Hi).
Qed.

(** The package of the two questions of the package test. *)
Lemma manifest_identifiers_example :
  exists item_ids manifest_hex,
    map (attribute (py "identifier"))
        (manifest_resources
           (manifest_tree manifest_hex
              (combine item_ids (question_filenames 1 item_ids))))
    = map (fun item_id => Some (py "RES-" ++ item_id)) item_ids
    /\ Forall (fun item_id => exists hex, item_id = py "ITEM_" ++ hex)
              item_ids.
Proof.
  assert (H : @build_package reference_runtime example_questions
                (py "test_package") world0
              = (Ok (py "test_package.zip"), snd example_build))
    by (vm_compute; reflexivity).
  destruct (manifest_identifiers_match_items reference_runtime
              example_questions (py "test_package") world0 _ _ H)
    as (ids & cs & hex & mc & _ & R & _ & F & _).
  exists ids, hex. split; [exact R | exact F].
Defined.
